(** * crawler2025: the crawl engine and the consensus classification pipeline

    A shallow embedding of the parts of the crawler that its specification
    makes statements about:

    - the two-pass consensus classification loop of the orchestrators
      ([crawler_light/main.py], [crawler/main_backward.py],
      [crawler/main_forward.py]) and of [NatureParser.scrape_journal];
    - the paginated, date-windowed listing crawl of
      [NatureParser.scrape_journal];
    - the relaxed "nearest issue" fallback of the Science and Cell parsers;
    - [UnifiedDB.save_paper] and [UnifiedDB.get_last_update_time];
    - [BaseParser.get_page_with_retry];
    - [FailedJournalsManager].

    It also covers what surrounds them in the same files: the batching of
    [PaperAgent.batch_analyze_papers_in_batches_concurrent], the counters of
    the three orchestrators' runs, the archives written by
    [_save_non_ai_papers_to_json], the analysis and the returned list of
    [NatureParser.scrape_journal], the queries [check_paper_exists] and
    [get_paper_count], and the fetch loops
    [CellParser._get_page_with_retry] and
    [PLOSParser.get_page_with_retry_plos].

    Dates are day ordinals ([Z]), timestamps are microseconds ([Z]), a Python
    dict used as a lookup table is a [gmap], and everything the program gets
    from the outside world (the language model's answers, HTTP responses,
    random samples, the clock) is an explicit argument. *)

From Stdlib Require Import ZArith Lia Sorted Permutation Ascii.
From stdpp Require Import gmap strings list pretty sorting.

Local Open Scope Z_scope.

(** ** Python helpers *)

(** [list.sort(key=...)] is stable: elements with equal keys keep their
    relative order.  The result of a stable sort is unique, so it is modelled
    by a stable insertion sort on integer keys. *)
Module PySort.
Section SortByKey.
Context {A : Type} (key : A → Z).

Fixpoint insert_by (x : A) (l : list A) : list A :=
  match l with
  | [] => [x]
  | y :: l' => if Z.ltb (key y) (key x) then y :: insert_by x l' else x :: y :: l'
  end.

(* [foldr] inserts the elements starting from the right end, and an element
   is put before the first element whose key is not smaller: elements with
   equal keys keep their order. *)
Definition sort_by (l : list A) : list A := foldr insert_by [] l.

Definition ascending (l : list A) : Prop := Sorted (λ x y, key x ≤ key y) l.

End SortByKey.
End PySort.

Module PyStr.

(** A Python [str] is the string of the bytes of its UTF-8 encoding. *)

(** The ASCII characters for which [str.isspace] holds. *)
Definition is_space (c : ascii) : bool :=
  match c with
  | "009" | "010" | "011" | "012" | "013" | "028" | "029" | "030" | "031" | " " => true
  | _ => false
  end%char.

(** The other characters for which [str.isspace] holds, which [str.strip]
    removes as well: U+0085 and U+00A0, encoded on two bytes. *)
Definition is_space2 (c1 c2 : ascii) : bool :=
  match c1, c2 with
  | "194", "133" | "194", "160" => true
  | _, _ => false
  end%char.

(** U+1680, U+2000 to U+200A, U+2028, U+2029, U+202F, U+205F and U+3000,
    encoded on three bytes. *)
Definition is_space3 (c1 c2 c3 : ascii) : bool :=
  match c1, c2, c3 with
  | "225", "154", "128" => true
  | "226", "128", "128" | "226", "128", "129" | "226", "128", "130"
  | "226", "128", "131" | "226", "128", "132" | "226", "128", "133"
  | "226", "128", "134" | "226", "128", "135" | "226", "128", "136"
  | "226", "128", "137" | "226", "128", "138" => true
  | "226", "128", "168" | "226", "128", "169" | "226", "128", "175" => true
  | "226", "129", "159" => true
  | "227", "128", "128" => true
  | _, _, _ => false
  end%char.

(** [value.strip() == '']: every character of [value] is white space. *)
Fixpoint is_blank (s : string) : bool :=
  match s with
  | EmptyString => true
  | String c1 s1 =>
      if is_space c1 then is_blank s1
      else
        match s1 with
        | EmptyString => false
        | String c2 s2 =>
            if is_space2 c1 c2 then is_blank s2
            else
              match s2 with
              | EmptyString => false
              | String c3 s3 => is_space3 c1 c2 c3 && is_blank s3
              end
        end
  end.

(** [len(s)]: the number of characters, that is, of the bytes that do not
    continue a character (a continuation byte is one from 128 to 191). *)
Fixpoint len (s : string) : nat :=
  match s with
  | EmptyString => 0
  | String c s' =>
      let n := nat_of_ascii c in
      if (128 <=? n)%nat && (n <=? 191)%nat then len s' else S (len s')
  end.

(** [sub in s] *)
Fixpoint contains (sub s : string) : bool :=
  String.prefix sub s ||
  match s with
  | EmptyString => false
  | String _ s' => contains sub s'
  end.

(** [s.split('/')[-1]]: the text after the last slash. *)
Fixpoint last_segment_go (cur s : string) : string :=
  match s with
  | EmptyString => cur
  | String c s' =>
      if Ascii.eqb c "/" then last_segment_go s' s' else last_segment_go cur s'
  end.

Definition last_segment (s : string) : string := last_segment_go s s.

(** [sep.join(l)] *)
Fixpoint join (sep : string) (l : list string) : string :=
  match l with
  | [] => ""
  | [x] => x
  | x :: l' => x +:+ sep +:+ join sep l'
  end.

End PyStr.

(** ** The classification agent's answers ([crawler_light/agent.py]) *)
Module Agent.

(** One element of the list returned by
    [batch_analyze_papers_in_batches_concurrent]: the dict with the keys
    [id], [is_ai_related], [judgment], [explanation] built by
    [analyze_batch_papers_with_id] ([judgment] is never read by the engine).
    The [id] is whatever the model echoed back. *)
Record Vote := {
  v_id : string;
  is_ai_related : bool;
  explanation : string
}.

(** The dict returned by [analyze_paper]; the engine reads it with
    [review['is_ai_related']] and [review.get('explanation', 'reviewed')]. *)
Record Review := {
  rv_is_ai_related : bool;
  rv_explanation : option string
}.

(** [[paper_list[i:i + batch_size] for i in range(0, len(paper_list),
    batch_size)]] for a batch size that is not negative; [range] raises
    [ValueError] for the step 0 ([None]). *)
Definition batches {A : Type} (paper_list : list A) (batch_size : nat)
  : option (list (list A)) :=
  match batch_size with
  | O => None
  | S _ =>
      Some ((λ k, take batch_size (drop (k * batch_size) paper_list))
              <$> seq 0 ((length paper_list + batch_size - 1) / batch_size))
  end.

(** [batch_analyze_papers_in_batches_concurrent]: [answer k batch] is what
    [analyze_batch_papers_with_id] returns for the [k]-th batch (the empty
    list when the call failed), and [completion] lists the batch numbers in
    the order in which [as_completed] yields their futures.  The results of
    the batches are concatenated in that order. *)
Definition batch_analyze_papers_in_batches_concurrent {A : Type}
    (answer : nat → list A → list Vote) (completion : list nat)
    (paper_list : list A) (batch_size : nat) : option (list Vote) :=
  match batches paper_list batch_size with
  | None => None
  | Some bs =>
      Some (concat (omap (λ k, answer k <$> bs !! k) completion))
  end.

End Agent.

(** ** The two-pass consensus classification loop *)
Module Consensus.
Import Agent.

(** A dict of the list a parser's [scrape_journal] returns, read by the
    orchestrators with [paper.get(key, '')] ([paper.get('date')] for the
    date, [None] when the parser found none). *)
Record Paper := {
  p_title : string;
  p_abstract : string;
  p_date : option Z;
  p_doi : string;
  p_url : string;
  p_authors : string
}.

(** A [card_infos] entry.  [None] in [url], [reason], [ai_relevant] means that
    the key is absent from the dict. *)
Record Item := {
  title : string;
  abstract : string;
  date : option Z;
  doi : string;
  link : string;
  url : option string;
  authors : string;
  type_ : string;
  id : string;
  reason : option string;
  ai_relevant : option bool
}.

(** [crawler_light/main.py] 240-249 and [crawler/main_forward.py] 137-146:
    the dict has a [link] but no [url]. *)
Definition card_of_paper_full (p : Paper) : Item :=
  {| title := p_title p; abstract := p_abstract p; date := p_date p;
     doi := p_doi p; link := p_url p; url := None; authors := p_authors p;
     type_ := "full"; id := ""; reason := None; ai_relevant := None |}.

(** [crawler/main_backward.py] 188-198: both [link] and [url] are filled. *)
Definition card_of_paper_incremental (p : Paper) : Item :=
  {| title := p_title p; abstract := p_abstract p; date := p_date p;
     doi := p_doi p; link := p_url p; url := Some (p_url p); authors := p_authors p;
     type_ := "incremental"; id := ""; reason := None; ai_relevant := None |}.

Definition set_id (s : string) (it : Item) : Item :=
  {| title := title it; abstract := abstract it; date := date it; doi := doi it;
     link := link it; url := url it; authors := authors it; type_ := type_ it;
     id := s; reason := reason it; ai_relevant := ai_relevant it |}.

Definition set_reason (r : string) (it : Item) : Item :=
  {| title := title it; abstract := abstract it; date := date it; doi := doi it;
     link := link it; url := url it; authors := authors it; type_ := type_ it;
     id := id it; reason := Some r; ai_relevant := ai_relevant it |}.

Definition set_ai_relevant (b : bool) (it : Item) : Item :=
  {| title := title it; abstract := abstract it; date := date it; doi := doi it;
     link := link it; url := url it; authors := authors it; type_ := type_ it;
     id := id it; reason := reason it; ai_relevant := Some b |}.

(** [for i, item in enumerate(card_infos, start=1): item['id'] = str(i)] *)
Definition assign_ids (card_infos : list Item) : list Item :=
  imap (λ i, set_id (pretty (S i))) card_infos.

(** [{res['id']: res for res in result}]: a later entry with the same id
    replaces an earlier one. *)
Definition results_map (result : list Vote) : gmap string Vote :=
  foldl (λ m res, <[v_id res := res]> m) ∅ result.

(** The loop's state: the two output lists and the log of the single-item
    [analyze_paper(title, abstract)] calls made so far. *)
Record Acc := {
  ai_papers : list Item;
  non_ai_papers : list Item;
  review_calls : list (string * string)
}.

Definition empty_acc : Acc :=
  {| ai_papers := []; non_ai_papers := []; review_calls := [] |}.

Definition add_ai (it : Item) (acc : Acc) : Acc :=
  {| ai_papers := ai_papers acc ++ [it]; non_ai_papers := non_ai_papers acc;
     review_calls := review_calls acc |}.

Definition add_non_ai (it : Item) (acc : Acc) : Acc :=
  {| ai_papers := ai_papers acc; non_ai_papers := non_ai_papers acc ++ [it];
     review_calls := review_calls acc |}.

Definition log_call (c : string * string) (acc : Acc) : Acc :=
  {| ai_papers := ai_papers acc; non_ai_papers := non_ai_papers acc;
     review_calls := review_calls acc ++ [c] |}.

Section Loop.
(** The answer of the [n]-th single-item adjudication call of the run (the
    model may answer the same question differently each time). *)
Variable analyze_paper : nat → string → string → Review.

(** The body executed when both votes are present; the same text in
    [crawler_light/main.py] 289-301, [crawler/main_backward.py] 233-245,
    [crawler/main_forward.py] 181-193 and [crawler/parser.py] 733-745. *)
Definition vote_block (r1 r2 : Vote) (acc : Acc) (item : Item) : Acc :=
  if is_ai_related r1 && is_ai_related r2 then
    add_ai (set_reason (explanation r1) item) acc
  else if negb (is_ai_related r1) && negb (is_ai_related r2) then
    add_non_ai (set_reason (explanation r1) item) acc
  else
    let review := analyze_paper (length (review_calls acc)) (title item) (abstract item) in
    let item' := set_reason (default "reviewed" (rv_explanation review)) item in
    let acc' := log_call (title item, abstract item) acc in
    if rv_is_ai_related review then add_ai item' acc' else add_non_ai item' acc'.

(** [crawler_light/main.py] 276-301. *)
Definition step_light (r1_map r2_map : gmap string Vote) (acc : Acc) (item : Item) : Acc :=
  match r1_map !! id item, r2_map !! id item with
  | Some r1, Some r2 => vote_block r1 r2 acc item
  | _, _ => add_non_ai (set_ai_relevant false (set_reason "AI分析失败" item)) acc
  end.

(** [crawler/main_backward.py] 225-245 (the same text in
    [crawler/main_forward.py] 173-193 and [crawler/parser.py] 725-745):
    [if not r1 or not r2: continue]. *)
Definition step_incremental (r1_map r2_map : gmap string Vote) (acc : Acc) (item : Item) : Acc :=
  match r1_map !! id item, r2_map !! id item with
  | Some r1, Some r2 => vote_block r1 r2 acc item
  | _, _ => acc
  end.

(** [CrawlerSystem.run_full_crawl] of [crawler_light/main.py], lines 239-301,
    for the papers of one sub-journal and the answers [result1], [result2] of
    the two batch passes. *)
Definition classify_light (papers : list Paper) (result1 result2 : list Vote) : Acc :=
  foldl (step_light (results_map result1) (results_map result2)) empty_acc
        (assign_ids (card_of_paper_full <$> papers)).

(** [IncrementalCrawlerSystem.run_incremental_crawl] of
    [crawler/main_backward.py], lines 188-245. *)
Definition classify_incremental (papers : list Paper) (result1 result2 : list Vote) : Acc :=
  foldl (step_incremental (results_map result1) (results_map result2)) empty_acc
        (assign_ids (card_of_paper_incremental <$> papers)).

(** [CrawlerSystem.run_full_crawl] of [crawler/main_forward.py], lines
    136-193. *)
Definition classify_full (papers : list Paper) (result1 result2 : list Vote) : Acc :=
  foldl (step_incremental (results_map result1) (results_map result2)) empty_acc
        (assign_ids (card_of_paper_full <$> papers)).

(** The items on which the two passes both voted and disagree. *)
Definition needs_review (r1_map r2_map : gmap string Vote) (item : Item) : bool :=
  match r1_map !! id item, r2_map !! id item with
  | Some r1, Some r2 => negb (eqb (is_ai_related r1) (is_ai_related r2))
  | _, _ => false
  end.

End Loop.

(** The scraped paper an item was built from (by either constructor). *)
Definition paper_of_item (it : Item) : Paper :=
  {| p_title := title it; p_abstract := abstract it; p_date := date it;
     p_doi := doi it; p_url := link it; p_authors := authors it |}.

(** The items that have a vote from both passes. *)
Definition voted (r1_map r2_map : gmap string Vote) (item : Item) : bool :=
  bool_decide (is_Some (r1_map !! id item)) && bool_decide (is_Some (r2_map !! id item)).

End Consensus.

(** ** The persistence boundary ([crawler/db.py]) *)
Module DB.
Import Consensus.

(** A row of the journal's table (the columns written by [save_paper]; the
    auto-increment id and the two timestamps play no role here).  The table
    is declared with [UNIQUE KEY unique_doi (doi)]; a unique index does not
    constrain [NULL]s. *)
Record Row := {
  r_title : string;
  r_abstract : option string;
  r_doi : option string;
  r_pub_date : option Z;
  r_journal : string;
  r_url : option string;
  r_authors : option string;
  r_reason : option string;
  r_type : string
}.

(** [clean_empty_string] of [save_paper]. *)
Definition clean_empty_string (value : string) : option string :=
  if PyStr.is_blank value then None else Some value.

(** The value stored in the [doi] column: lines 201-207 of [save_paper]. *)
Definition doi_value (paper : Item) : option string :=
  match clean_empty_string (doi paper), clean_empty_string (default "" (url paper)) with
  | None, Some url_value => Some url_value
  | doi_value, _ => doi_value
  end.

Definition row_of_paper (paper : Item) (journal_name : string) : Row :=
  {| r_title := if String.eqb (title paper) "" then "未知标题" else title paper;
     r_abstract := clean_empty_string (abstract paper);
     r_doi := doi_value paper;
     r_pub_date := date paper;
     r_journal := journal_name;
     r_url := clean_empty_string (default "" (url paper));
     r_authors := clean_empty_string (authors paper);
     r_reason := clean_empty_string (default "" (reason paper));
     r_type := type_ paper |}.

Definition doi_taken (table : list Row) (k : string) : bool :=
  bool_decide (Some k ∈ r_doi <$> table).

(** [INSERT IGNORE INTO table ... VALUES ...] under the unique index on
    [doi]: the new table and [cursor.rowcount]. *)
Definition insert_ignore (table : list Row) (row : Row) : list Row * Z :=
  match r_doi row with
  | Some k => if doi_taken table k then (table, 0) else (table ++ [row], 1)
  | None => (table ++ [row], 1)
  end.

(** [UnifiedDB.save_paper] on a live connection. *)
Definition save_paper (table : list Row) (paper : Item) (journal_name : string)
  : list Row * bool :=
  let '(table', rowcount) := insert_ignore table (row_of_paper paper journal_name) in
  (table', 0 <? rowcount).

(** A [datetime.date] (what the [DATE] column gives back) or a
    [datetime.datetime] in microseconds. *)
Inductive PyTime :=
  | PDate (day : Z)
  | PDateTime (us : Z).

(** [timedelta(weeks=1)] in microseconds. *)
Definition one_week : Z := 7 * 24 * 3600 * 1000000.

(** [MAX(pub_date)]: [NULL]s are ignored, and the maximum of no value is
    [NULL]. *)
Definition max_pub_date (rows : list Row) : option Z :=
  foldr (λ r acc, match r_pub_date r, acc with
                  | Some d, Some m => Some (Z.max d m)
                  | Some d, None => Some d
                  | None, _ => acc
                  end) None rows.

(** The rows the query ranges over: [WHERE journal = %s] if a sub-journal
    name is given ([if journal_name:]), the whole table otherwise. *)
Definition rows_for (table : list Row) (journal_name : string) : list Row :=
  if String.eqb journal_name "" then table
  else filter (λ r, r_journal r = journal_name) table.

(** [UnifiedDB.get_last_update_time]; [now] is [datetime.now()].  The
    [except] branch returns the same default. *)
Definition get_last_update_time (table : list Row) (journal_name : string) (now : Z)
  : PyTime :=
  match max_pub_date (rows_for table journal_name) with
  | Some d => PDate d
  | None => PDateTime (now - one_week)
  end.

(** [UnifiedDB.get_paper_count] on a live connection: the number of rows. *)
Definition get_paper_count (table : list Row) : Z := Z.of_nat (length table).

(** [UnifiedDB.check_paper_exists] on a live connection: the number of rows
    [WHERE doi = %s] is positive.  A [NULL] is equal to nothing. *)
Definition check_paper_exists (table : list Row) (doi : string) : bool :=
  bool_decide (0 < length (filter (λ r, r_doi r = Some doi) table))%nat.

End DB.

(** ** The orchestrators' handoff to the persistence boundary *)
Module Orchestrator.
Import Agent Consensus DB.

(** [for paper in ai_papers: if db.save_paper(paper, journal_name):
    saved_count += 1] *)
Definition save_loop (table : list Row) (journal_name : string) (papers : list Item)
  : list Row * Z :=
  foldl (λ '(t, saved_count) paper,
           let '(t', ok) := save_paper t paper journal_name in
           (t', if ok then saved_count + 1 else saved_count))
        (table, 0) papers.

(** [ai_papers.sort(key=lambda x: x.get('date', datetime.now().date()))]
    ([crawler/main_backward.py] 250).  Every item has the key [date], so the
    default is never used; comparing [None] with anything raises [TypeError],
    and a list of two or more elements compares each of its keys at least
    once.  [None] is that exception. *)
Definition sort_by_date (l : list Item) : option (list Item) :=
  if bool_decide (1 < length l)%nat && bool_decide (Exists (λ it, date it = None) l)
  then None
  else Some (PySort.sort_by (λ it, default 0 (date it)) l).


(** What one sub-journal's batch leaves behind. *)
Record Batch := {
  handed_to_save : list Item;   (* the arguments of [db.save_paper], in call order *)
  table_after : list Row;
  saved_count : Z;
  archived : list Item          (* the argument of [_save_non_ai_papers_to_json] *)
}.

Section Runs.
Variable analyze_paper : nat → string → string → Review.

(** [run_incremental_crawl], [crawler/main_backward.py] 184-266.  [None]: the
    sort raised, which the handler at line 272 turns into a failed
    sub-journal; nothing is saved. *)
Definition process_incremental (table : list Row) (journal_name : string)
    (papers : list Paper) (result1 result2 : list Vote) : option Batch :=
  let acc := classify_incremental analyze_paper papers result1 result2 in
  match sort_by_date (ai_papers acc) with
  | None => None
  | Some sorted =>
      let '(table', n) := save_loop table journal_name sorted in
      Some {| handed_to_save := sorted; table_after := table'; saved_count := n;
              archived := non_ai_papers acc |}
  end.

(** [run_full_crawl], [crawler/main_forward.py] 134-208: no sort. *)
Definition process_full (table : list Row) (journal_name : string)
    (papers : list Paper) (result1 result2 : list Vote) : Batch :=
  let acc := classify_full analyze_paper papers result1 result2 in
  let '(table', n) := save_loop table journal_name (ai_papers acc) in
  {| handed_to_save := ai_papers acc; table_after := table'; saved_count := n;
     archived := non_ai_papers acc |}.

End Runs.

(** The scheduling state of [IncrementalCrawlerSystem]. *)
Record Schedule := {
  first_run : bool;
  initial_start_date : option PyTime;
  initial_end_date : option PyTime
}.

(** [crawler/main_backward.py] 156-165: the window of one sub-journal;
    [now_query] and [now_end] are the two readings of the clock. *)
Definition crawl_window (s : Schedule) (table : list Row) (journal_name : string)
    (now_query now_end : Z) : PyTime * PyTime :=
  match first_run s, initial_start_date s, initial_end_date s with
  | true, Some start_date, Some end_date => (start_date, end_date)
  | _, _, _ => (get_last_update_time table journal_name now_query, PDateTime now_end)
  end.

(** [crawler/main_backward.py] 298-299. *)
Definition after_run (s : Schedule) : Schedule :=
  {| first_run := false; initial_start_date := initial_start_date s;
     initial_end_date := initial_end_date s |}.

(** *** One journal group, sub-journal by sub-journal *)

(** What the parser and the agent give for one sub-journal of the list:
    [scraped] is what [parser.scrape_journal] returns ([None] if it
    raises), the rest are the agent's answers for its papers. *)
Record SubJournal := {
  name : string;
  scraped : option (list Paper);
  result1 : list Vote;
  result2 : list Vote;
  analyze_paper : nat → string → string → Review
}.

(** The counters of [run_incremental_crawl] for one journal group, and the
    group's table. *)
Record Tally := {
  table : list Row;
  total_papers : Z;
  total_saved : Z;
  subjournal_success : Z;
  subjournal_failed : Z;
  failed_subjournal_names : list string;
  total_subjournals : Z
}.

Definition count_subjournal (t : Tally) : Tally :=
  {| table := table t; total_papers := total_papers t; total_saved := total_saved t;
     subjournal_success := subjournal_success t; subjournal_failed := subjournal_failed t;
     failed_subjournal_names := failed_subjournal_names t;
     total_subjournals := total_subjournals t + 1 |}.

Definition count_success (t : Tally) : Tally :=
  {| table := table t; total_papers := total_papers t; total_saved := total_saved t;
     subjournal_success := subjournal_success t + 1;
     subjournal_failed := subjournal_failed t;
     failed_subjournal_names := failed_subjournal_names t;
     total_subjournals := total_subjournals t |}.

(** The handler of lines 272-277; [label] is [journal.upper()]. *)
Definition count_failure (label journal_name : string) (t : Tally) : Tally :=
  {| table := table t; total_papers := total_papers t; total_saved := total_saved t;
     subjournal_success := subjournal_success t;
     subjournal_failed := subjournal_failed t + 1;
     failed_subjournal_names :=
       failed_subjournal_names t ++ [label +:+ "-" +:+ journal_name];
     total_subjournals := total_subjournals t |}.

(** Lines 265-266, with the table the save loop left. *)
Definition count_batch (papers : list Paper) (batch : Batch) (t : Tally) : Tally :=
  {| table := table_after batch;
     total_papers := total_papers t + Z.of_nat (length papers);
     total_saved := total_saved t + saved_count batch;
     subjournal_success := subjournal_success t;
     subjournal_failed := subjournal_failed t;
     failed_subjournal_names := failed_subjournal_names t;
     total_subjournals := total_subjournals t |}.

(** The body of [for journal_info in journal_list], [crawler/main_backward.py]
    150-277.  The success counter is stepped right after [scrape_journal]
    returns, inside the [try] whose handler steps the failure counter. *)
Definition incremental_subjournal (label : string) (t : Tally) (sj : SubJournal) : Tally :=
  let t := count_subjournal t in
  match scraped sj with
  | None => count_failure label (name sj) t
  | Some papers =>
      let t := count_success t in
      if bool_decide (papers = []) then t
      else
        match process_incremental (analyze_paper sj) (table t) (name sj) papers
                (result1 sj) (result2 sj) with
        | None => count_failure label (name sj) t
        | Some batch => count_batch papers batch t
        end
  end.

Definition run_incremental_crawl (label : string) (t : Tally) (journal_list : list SubJournal)
  : Tally :=
  foldl (incremental_subjournal label) t journal_list.

(** A sub-journal whose scrape returned papers and whose sort then raised. *)
Definition fails_after_scrape (sj : SubJournal) : bool :=
  match scraped sj with
  | Some papers =>
      negb (bool_decide (papers = []))
      && bool_decide (sort_by_date
                        (ai_papers (classify_incremental (analyze_paper sj) papers
                                      (result1 sj) (result2 sj))) = None)
  | None => false
  end.

(** [run_full_crawl] of [crawler/main_forward.py], lines 120-213, for one
    journal group: [scrape_journal] is called outside any handler of the
    loop, so an exception ends the group; what the report then shows for
    the group is an error ([None]), otherwise [total_papers] and
    [total_saved]. *)
Fixpoint run_full_crawl (table : list Row) (total_papers total_saved : Z)
    (journal_list : list SubJournal) : list Row * option (Z * Z) :=
  match journal_list with
  | [] => (table, Some (total_papers, total_saved))
  | sj :: rest =>
      match scraped sj with
      | None => (table, None)
      | Some papers =>
          if bool_decide (papers = []) then
            run_full_crawl table total_papers total_saved rest
          else
            let batch := process_full (analyze_paper sj) table (name sj) papers
                           (result1 sj) (result2 sj) in
            run_full_crawl (table_after batch)
              (total_papers + Z.of_nat (length papers))
              (total_saved + saved_count batch) rest
      end
  end.

(** The counters of [run_full_crawl] of [crawler_light/main.py], lines
    209-329, for one journal group. *)
Record LightTally := {
  light_total_papers : Z;
  light_ai_papers : Z;
  light_non_ai_papers : Z;
  successful_subjournals : Z;
  failed_subjournals : list string
}.

(** The body of [for journal_info in journal_list], lines 217-320 (the
    files written by [append_articles_to_file] are left out). *)
Definition light_subjournal (t : LightTally) (sj : SubJournal) : LightTally :=
  match scraped sj with
  | None =>
      {| light_total_papers := light_total_papers t; light_ai_papers := light_ai_papers t;
         light_non_ai_papers := light_non_ai_papers t;
         successful_subjournals := successful_subjournals t;
         failed_subjournals := failed_subjournals t ++ [name sj] |}
  | Some papers =>
      if bool_decide (papers = []) then
        {| light_total_papers := light_total_papers t; light_ai_papers := light_ai_papers t;
           light_non_ai_papers := light_non_ai_papers t;
           successful_subjournals := successful_subjournals t + 1;
           failed_subjournals := failed_subjournals t |}
      else
        let acc := classify_light (analyze_paper sj) papers (result1 sj) (result2 sj) in
        {| light_total_papers := light_total_papers t + Z.of_nat (length papers);
           light_ai_papers := light_ai_papers t + Z.of_nat (length (ai_papers acc));
           light_non_ai_papers :=
             light_non_ai_papers t + Z.of_nat (length (non_ai_papers acc));
           successful_subjournals := successful_subjournals t + 1;
           failed_subjournals := failed_subjournals t |}
  end.

(** The counters start from zero; the dict put in [results] also holds
    [total_subjournals = len(journal_list)]. *)
Definition light_run (journal_list : list SubJournal) : LightTally :=
  foldl light_subjournal
    {| light_total_papers := 0; light_ai_papers := 0; light_non_ai_papers := 0;
       successful_subjournals := 0; failed_subjournals := [] |}
    journal_list.

End Orchestrator.

(** ** The listing crawl of [NatureParser.scrape_journal] *)
Module Nature.

(** An [article.c-card] of a listing page, as the loop body reads it. *)
Record Card := {
  has_title : bool;       (* the [h3.c-card__title] and its link were found *)
  c_title : string;
  c_link : string;
  pub_date : option Z;    (* [dateparser.parse(raw_date)]; [None] if missing or unparseable *)
  fetch_raises : bool;    (* [fetch_abstract_and_authors] raises: it lets through what
                             [raise_for_status] raises (line 427) and any exception of
                             [requests.get] other than a timeout or a connection error *)
  c_abstract : string;    (* what [fetch_abstract_and_authors] returns otherwise *)
  c_authors : string
}.

(** A [card_infos] entry of the parser. *)
Record CardInfo := {
  title : string;
  url : string;
  abstract : string;
  date : option Z;
  doi : string;
  type_ : string;
  journal : string;
  authors : string
}.

(** One listing stream, unfolded along its next-page links: a page whose
    request or parsing raises, a page without a next-page link, or a page
    with one. *)
Inductive Stream :=
  | FetchError
  | LastPage (cards : list Card)
  | NextPage (cards : list Card) (rest : Stream).

Record State := {
  card_infos : list CardInfo;
  ret_date : option Z;
  pages_requested : nat
}.

Definition init : State :=
  {| card_infos := []; ret_date := None; pages_requested := 0 |}.

Definition request (st : State) : State :=
  {| card_infos := card_infos st; ret_date := ret_date st;
     pages_requested := S (pages_requested st) |}.

Section Crawl.
Variables (start_date end_date : option Z).
(** [self.db and hasattr(self.db, 'paper_exists') and
    self.db.paper_exists(doi=doi)] *)
Variable paper_exists : string → bool.
Variable non_ai_set : gset (string * string).
Variables (journal_name article_type : string).

(** [start_date and pub_date < start_date] *)
Definition too_old (d : Z) : bool :=
  match start_date with Some s => d <? s | None => false end.

(** [end_date and pub_date > end_date] *)
Definition too_new (d : Z) : bool :=
  match end_date with Some e => e <? d | None => false end.

Definition info_of_card (card : Card) : CardInfo :=
  {| title := c_title card; url := c_link card; abstract := c_abstract card;
     date := pub_date card; doi := PyStr.last_segment (c_link card);
     type_ := article_type; journal := journal_name; authors := c_authors card |}.

(** The cards that get past the [continue]s of lines 638-663 and whose
    article page is fetched without an exception (line 652: the handler of
    lines 676-678 skips the card otherwise). *)
Definition kept (card : Card) : bool :=
  match pub_date card with
  | Some d => negb (too_old d) && negb (too_new d)
  | None => true
  end
  && negb (fetch_raises card)
  && negb (paper_exists (PyStr.last_segment (c_link card)))
  && negb (bool_decide ((c_title card, c_link card) ∈ non_ai_set)).

(** The body of [for card in cards], lines 617-678.  A card without title
    leaves [ret_date] as it was; every other card sets it (line 636) before
    any of the tests that skip the card. *)
Definition process_card (st : State) (card : Card) : State :=
  if negb (has_title card) then st
  else
    {| card_infos := if kept card then card_infos st ++ [info_of_card card]
                     else card_infos st;
       ret_date := pub_date card;
       pages_requested := pages_requested st |}.

(** [ret_date and start_date and ret_date < start_date], line 693. *)
Definition stop_signal (st : State) : bool :=
  match ret_date st with Some r => too_old r | None => false end.

(** The [while page_url] loop, lines 598-701. *)
Fixpoint crawl_stream (s : Stream) (st : State) : State :=
  match s with
  | FetchError => request st
  | LastPage cards => foldl process_card (request st) cards
  | NextPage cards rest =>
      let st' := foldl process_card (request st) cards in
      if stop_signal st' then st' else crawl_stream rest st'
  end.

(** The pages whose cards the loop goes through. *)
Fixpoint visited (s : Stream) (st : State) : list (list Card) :=
  match s with
  | FetchError => []
  | LastPage cards => [cards]
  | NextPage cards rest =>
      let st' := foldl process_card (request st) cards in
      cards :: (if stop_signal st' then [] else visited rest st')
  end.

End Crawl.

(** The pages of a stream, in link order. *)
Fixpoint pages (s : Stream) : list (list Card) :=
  match s with
  | FetchError => []
  | LastPage cards => [cards]
  | NextPage cards rest => cards :: pages rest
  end.

Fixpoint fetch_fails (s : Stream) : bool :=
  match s with
  | FetchError => true
  | LastPage _ => false
  | NextPage _ rest => fetch_fails rest
  end.

(** [articles.sort(key=lambda x: x['date'] or dateparser.parse('1900-01-01'),
    reverse=True)], line 768.  The key of a dated article is a [date], that of
    an undated one a [datetime], and comparing the two raises [TypeError]
    ([None] here).  A reversed sort keeps equal keys in their original order
    as well, so it is the stable sort on the negated key. *)
Definition final_sort (articles : list CardInfo) : option (list CardInfo) :=
  if bool_decide (Exists (λ x, date x = None) articles)
     && bool_decide (Exists (λ x, is_Some (date x)) articles)
  then None
  else Some (PySort.sort_by (λ x, - default 0 (date x)) articles).

(** Both articles are dated and the first is not older than the second. *)
Definition newest_first (x y : CardInfo) : Prop :=
  match date x, date y with
  | Some a, Some b => b ≤ a
  | _, _ => False
  end.

(** A listing in reverse chronological order: every card has a title and a
    parsed date, and no card is dated later than a card before it. *)
Definition not_older (a b : Card) : Prop :=
  match pub_date a, pub_date b with
  | Some x, Some y => y ≤ x
  | _, _ => False
  end.

Definition reverse_chronological (s : Stream) : Prop :=
  Forall (λ c, has_title c = true ∧ is_Some (pub_date c)) (concat (pages s))
  ∧ StronglySorted not_older (concat (pages s)).

End Nature.

(** ** The relaxed "nearest issue" fallback *)
Module Relaxed.

(** [start_date + (end_date - start_date) / 2]: the timedelta is halved
    exactly, and adding it to a [date] uses its whole days only, which for a
    normalised timedelta is the floor. *)
Definition target_center (start_date end_date : Z) : Z :=
  start_date + (end_date - start_date) / 2.

(** [abs((d - target_center).days)] *)
Definition distance (start_date end_date d : Z) : Z :=
  Z.abs (d - target_center start_date end_date).

(** [start_date <= article_date <= end_date] of [_is_date_in_range]. *)
Definition is_date_in_range (d start_date end_date : Z) : bool :=
  (start_date <=? d) && (d <=? end_date).

(** What the fallbacks return per issue. *)
Record IssueLink := {
  i_url : string;
  i_title : string
}.

(** A candidate of the fallback, before the two nearest are cut off. *)
Record Dated := {
  d_url : string;
  d_title : string;
  d_date : Z;
  d_distance : Z
}.

Definition link_of (v : Dated) : IssueLink :=
  {| i_url := d_url v; i_title := d_title v |}.

(** [l.sort(key=lambda x: x['distance']); l[:2]] and the projection of the
    result, shared by the two parsers. *)
Definition nearest_two (l : list Dated) : list IssueLink :=
  link_of <$> take 2 (PySort.sort_by d_distance l).

(** *** Science: [_find_nearest_volumes_science] *)

(** A volume element of the year page of the archive. *)
Record VolumeElem := {
  cover_date_text : option string;  (* the text of the cover-date element, if there is one *)
  parsed_date : option Z;           (* [dateparser.parse] of that text and the year *)
  toc_href : option string;         (* the [href] of the [a[href*="/toc/"]] element *)
  toc_url : string;                 (* [urljoin('https://www.science.org', href)] *)
  volume_text : string;             (* volume and issue, as the strict pass prints them *)
  title_text : option string        (* the text of the title element, if there is one *)
}.

Definition science_candidate (start_date end_date : Z) (e : VolumeElem) : option Dated :=
  match cover_date_text e, parsed_date e, toc_href e with
  | Some date_text, Some volume_date, Some href =>
      if String.eqb href "" then None
      else Some {| d_url := toc_url e;
                   d_title := default ("Volume (Date: " +:+ date_text +:+ ")") (title_text e);
                   d_date := volume_date;
                   d_distance := distance start_date end_date volume_date |}
  | _, _, _ => None
  end.

Definition find_nearest_volumes_science (volume_elements : list VolumeElem)
    (start_date end_date : Z) : list IssueLink :=
  nearest_two (omap (science_candidate start_date end_date) volume_elements).

(** The strict pass of [_get_science_year_volumes], lines 1175-1228. *)
Definition science_strict (start_date end_date : Z) (e : VolumeElem) : option IssueLink :=
  match cover_date_text e, parsed_date e, toc_href e with
  | Some date_text, Some volume_date, Some _ =>
      if is_date_in_range volume_date start_date end_date
      then Some {| i_url := toc_url e;
                   i_title := volume_text e +:+ " (" +:+ date_text +:+ ")" |}
      else None
  | _, _, _ => None
  end.

(** [_get_science_year_volumes] from the point where the volume elements of
    the year page are known. *)
Definition get_science_year_volumes (volume_elements : list VolumeElem)
    (start_date end_date : Z) : list IssueLink :=
  let volumes := omap (science_strict start_date end_date) volume_elements in
  if bool_decide (length volumes = 0%nat)
  then find_nearest_volumes_science volume_elements start_date end_date
  else volumes.

(** [ScienceParser.scrape_journal], lines 883-897:
    [for year in sorted(target_years)] asks [_get_science_year_volumes] for
    the volumes of each year page in turn, and scrapes the articles of every
    volume it returns.  [year_pages] holds the volume elements of the year
    pages of the window's years, in that order; the result is the list of
    the volumes scraped. *)
Definition science_volumes (year_pages : list (list VolumeElem))
    (start_date end_date : Z) : list IssueLink :=
  concat ((λ volume_elements, get_science_year_volumes volume_elements start_date end_date)
            <$> year_pages).

(** *** Cell: [_find_nearest_issues_cell] *)

(** What the date pattern and [dateparser.parse] make of one [span]. *)
Inductive SpanDate :=
  | NoMatch                 (* the pattern "Month dd, yyyy" does not occur *)
  | ParseRaises             (* the parser raised *)
  | ParseNone               (* the parser returned nothing *)
  | Parsed (d : Z).

Record Span := {
  span_text : string;
  span_date : SpanDate
}.

(** An issue link of the archive page. *)
Record IssueElem := {
  href : string;
  spans : list Span
}.

Definition issue_text (link : IssueElem) : string :=
  PyStr.join " " (span_text <$> spans link).

(** Lines 2414-2430: the first span that parses to a date. *)
Fixpoint first_parsed (l : list Span) : option Z :=
  match l with
  | [] => None
  | s :: l' => match span_date s with
               | Parsed d => Some d
               | _ => first_parsed l'
               end
  end.

(** The same, as a relation: [d] is the date of a span before which no span
    parses to a date. *)
Definition issue_date_is (link : IssueElem) (d : Z) : Prop :=
  ∃ before s after,
    spans link = before ++ s :: after
    ∧ span_date s = Parsed d
    ∧ Forall (λ s', ∀ d', span_date s' ≠ Parsed d') before.

Definition usable (link : IssueElem) : bool :=
  negb (String.eqb (href link) "") && negb (bool_decide (spans link = [])).

Definition cell_candidate (start_date end_date : Z) (link : IssueElem) : option Dated :=
  if usable link then
    match first_parsed (spans link) with
    | Some issue_date =>
        Some {| d_url := href link; d_title := issue_text link; d_date := issue_date;
                d_distance := distance start_date end_date issue_date |}
    | None => None
    end
  else None.

Definition find_nearest_issues_cell (all_issue_links : list IssueElem)
    (start_date end_date : Z) : list IssueLink :=
  nearest_two (omap (cell_candidate start_date end_date) all_issue_links).

(** Lines 2336-2361: the [break] is under [if parsed_date:], so the loop
    stops at the first span that parses to a date, and that date decides;
    a link none of whose spans does is included. *)
Fixpoint should_include (start_date end_date : Z) (l : list Span) : bool :=
  match l with
  | [] => true
  | s :: l' => match span_date s with
               | Parsed d => negb (d <? start_date) && negb (end_date <? d)
               | NoMatch | ParseRaises | ParseNone => should_include start_date end_date l'
               end
  end.

Definition cell_strict (start_date end_date : Z) (link : IssueElem) : option IssueLink :=
  if usable link && should_include start_date end_date (spans link)
  then Some {| i_url := href link; i_title := issue_text link |}
  else None.

(** [_extract_volume_issue_links] from the point where the issue links of
    the archive page are known, with both dates given. *)
Definition extract_volume_issue_links (all_found_links : list IssueElem)
    (start_date end_date : Z) : list IssueLink :=
  let volume_issue_links := omap (cell_strict start_date end_date) all_found_links in
  if bool_decide (length volume_issue_links = 0%nat) && negb (bool_decide (all_found_links = []))
  then volume_issue_links ++ find_nearest_issues_cell all_found_links start_date end_date
  else volume_issue_links.

End Relaxed.

(** ** [BaseParser.get_page_with_retry] *)
Module Fetch.

(** The outcome of one [self.session.get(url, timeout=timeout)] call: the
    response it returns, or an exception.  The call goes through the
    [HTTPAdapter] that [__init__] mounts on the session (lines 88-97), which
    may send the request several times and sleep in between before the call
    returns or raises; all of that is inside the one call. *)
Inductive Response :=
  | Status (code : Z)
  | Raises.

#[global] Instance response_eq_dec : EqDecision Response.
Proof. solve_decision. Defined.

(** What the browser phase leads to: [self.driver.get(url)] raises, or
    the [WebDriverWait(self.driver, 30).until(...)] of line 319 raises (the
    page was not complete within 30 seconds), or the page source is read
    (an exception raised by that reading leaves the same steps and the same
    result as a page that fails the test of line 328). *)
Inductive Browser :=
  | BrowserRaises
  | WaitRaises
  | PageSource (page_source : string).

(** The steps of a fetch, in order: the assignment of the User-Agent header,
    a [time.sleep] of the function itself (in milliseconds), a call of
    [self.session.get], [self.driver.get], and the [WebDriverWait] for the
    complete page.  The time spent inside [session.get] and the two browser
    calls is not recorded. *)
Inductive Event :=
  | SetUserAgent (attempt : nat) (choice : nat)
  | Sleep (ms : Z)
  | Get (attempt : nat)
  | SeleniumGet
  | WaitComplete.

(** Everything the fetch draws from outside, per attempt index: the index
    [random.choice] picks in [self.user_agents], the three
    [random.uniform] samples, and the outcome of the [session.get] call. *)
Record World := {
  ua_choice : nat → nat;
  backoff : nat → Z;          (* [random.uniform(5, 15)] *)
  forbidden_wait : nat → Z;   (* [random.uniform(10, 20)] *)
  error_wait : nat → Z;       (* [random.uniform(5, 12)] *)
  http : nat → Response;
  browser : Browser
}.

Record Config := {
  max_retries : nat;
  use_selenium_fallback : bool;
  use_selenium : bool;        (* [self.use_selenium] *)
  has_driver : bool           (* [hasattr(self, 'driver') and self.driver] *)
}.


Inductive Result :=
  | PlainResponse (attempt : nat)
  | SeleniumResponse (page_source : string)
  | NoResponse.

Section Fetch.
Variable w : World.

(** The steps of one attempt up to and including the request, lines 271-289. *)
Definition request_events (attempt : nat) : list Event :=
  SetUserAgent attempt (ua_choice w attempt)
  :: (if bool_decide (0 < attempt)%nat
      then [Sleep (backoff w attempt * (Z.of_nat attempt + 1))] else [])
  ++ [Get attempt].

(** The wait after a failed attempt, lines 294-306; [last] is
    [not (attempt < max_retries - 1)]. *)
Definition failure_events (attempt : nat) (last : bool) : list Event :=
  match http w attempt with
  | Status 403 => if last then [] else [Sleep (forbidden_wait w attempt)]
  | Status _ => []
  | Raises => if last then [] else [Sleep (error_wait w attempt)]
  end.

(** [for attempt in range(max_retries)], with [remaining] iterations to go
    from [attempt] on: the steps, and the attempt that returned a response. *)
Fixpoint plain_phase (remaining attempt : nat) : list Event * option nat :=
  match remaining with
  | O => ([], None)
  | S remaining' =>
      match http w attempt with
      | Status 200 => (request_events attempt, Some attempt)
      | _ =>
          let '(events, r) := plain_phase remaining' (S attempt) in
          (request_events attempt
             ++ failure_events attempt (bool_decide (remaining' = 0%nat)) ++ events, r)
      end
  end.

(** Line 328: ["403" not in page_source and "Forbidden" not in page_source
    and len(page_source) > 1000]. *)
Definition page_ok (page_source : string) : bool :=
  negb (PyStr.contains "403" page_source)
  && negb (PyStr.contains "Forbidden" page_source)
  && bool_decide (1000 < PyStr.len page_source)%nat.

(** Line 309. *)
Definition fallback_enabled (c : Config) : bool :=
  use_selenium_fallback c && use_selenium c && has_driver c.

Definition get_page_with_retry (c : Config) : list Event * Result :=
  match plain_phase (max_retries c) 0 with
  | (events, Some attempt) => (events, PlainResponse attempt)
  | (events, None) =>
      if fallback_enabled c then
        match browser w with
        | PageSource page_source =>
            (events ++ [SeleniumGet; WaitComplete; Sleep 8000],
             if page_ok page_source then SeleniumResponse page_source else NoResponse)
        | WaitRaises => (events ++ [SeleniumGet; WaitComplete], NoResponse)
        | BrowserRaises => (events ++ [SeleniumGet], NoResponse)
        end
      else (events, NoResponse)
  end.

End Fetch.


Definition is_get (e : Event) : bool :=
  match e with Get _ => true | _ => false end.

Definition is_selenium_get (e : Event) : bool :=
  match e with SeleniumGet => true | _ => false end.



(** [PLOSParser.get_page_with_retry_plos] ([crawler/parser.py] 3582-3617):
    the loop of [get_page_with_retry] with its own sample ranges, and no
    browser phase. *)
Definition get_page_with_retry_plos (w : World) (max_retries : nat) : list Event * Result :=
  match plain_phase w max_retries 0 with
  | (events, Some attempt) => (events, PlainResponse attempt)
  | (events, None) => (events, NoResponse)
  end.

(** The ranges of its three samples: [random.uniform(8, 20)],
    [random.uniform(15, 30)], [random.uniform(8, 15)]. *)
Definition plos_samples_in_range (w : World) : Prop :=
  ∀ k, (8000 ≤ backoff w k ≤ 20000) ∧ (15000 ≤ forbidden_wait w k ≤ 30000)
       ∧ (8000 ≤ error_wait w k ≤ 15000).

End Fetch.

(** ** [CellParser._get_page_with_retry] *)
Module CellFetch.
Import Fetch.

(** The outcome of [self.session.get(url, timeout=90, verify=False)]: a
    response with its status code and the length of its text, or an
    exception. *)
Inductive Response :=
  | Answer (status_code : Z) (text_length : nat)
  | GetRaises.

Record World := {
  wait : nat → Z;                   (* [random.uniform(4, 8)] *)
  ua_choice : nat → nat;            (* the index [random.choice] picks *)
  http : nat → Response;
  throttle_wait : nat → Z;          (* [random.uniform(3, 6)] *)
  init_driver : bool;               (* [_init_selenium_driver] sets [self.driver] *)
  selenium_wait : nat → Z;          (* [random.uniform(3, 5)] *)
  browser : nat → option string     (* what [_get_page_with_selenium] returns *)
}.

Record Config := {
  max_retries : nat;
  use_selenium : bool;              (* [self.use_selenium] *)
  has_driver : bool                 (* [self.driver] *)
}.

(** How a statement list is left. *)
Inductive Flow :=
  | Return (attempt : nat)
  | Continue
  | Break
  | Raise (message : string)
  | Done.

Inductive Result :=
  | PlainResponse (attempt : nat)
  | MockResponse (page_source : string)
  | NoResponse                      (* [return None] *)
  | Raised (message : string).      (* an exception leaves the function *)

Section Fetch.
Variable w : World.
Variable c : Config.

(** [attempt < max_retries - 1] *)
Definition more_to_come (attempt : nat) : bool :=
  bool_decide (attempt < max_retries c - 1)%nat.

(** The events up to and including the request, lines 2605-2630. *)
Definition request_events (attempt : nat) : list Event :=
  (if bool_decide (0 < attempt)%nat then [Sleep (wait w attempt)] else [])
  ++ [SetUserAgent attempt (ua_choice w attempt); Get attempt].

(** The body of the [try] statement, lines 2605-2662. *)
Definition try_body (attempt : nat) : list Event * Flow :=
  match http w attempt with
  | GetRaises => (request_events attempt, Raise "request failed")
  | Answer status_code text_length =>
      if status_code =? 403 then
        if more_to_come attempt then (request_events attempt, Continue)
        else (request_events attempt, Raise "403 Forbidden after all attempts")
      else if status_code =? 429 then
        if more_to_come attempt
        then (request_events attempt ++ [Sleep (throttle_wait w attempt)], Continue)
        else (request_events attempt, Break)
      else if (400 <=? status_code) && (status_code <? 600) then
        (request_events attempt, Raise "HTTPError")     (* [raise_for_status] *)
      else if bool_decide (1000 < text_length)%nat then
        (request_events attempt, Return attempt)
      else if more_to_come attempt then (request_events attempt, Continue)
      else (request_events attempt, Done)
  end.

(** The [try] statement with its handler, lines 2663-2667:
    [except Exception: if attempt == max_retries - 1: break]. *)
Definition try_statement (attempt : nat) : list Event * Flow :=
  match try_body attempt with
  | (events, Raise _) =>
      (events, if bool_decide (attempt = max_retries c - 1)%nat then Break else Done)
  | flow => flow
  end.

(** [for attempt in range(max_retries)], with [remaining] iterations to go:
    [None] when the loop is left without a [return]. *)
Fixpoint plain_phase (remaining attempt : nat) : list Event * option Result :=
  match remaining with
  | O => ([], None)
  | S remaining' =>
      match try_statement attempt with
      | (events, Return k) => (events, Some (PlainResponse k))
      | (events, Raise message) => (events, Some (Raised message))
      | (events, Break) => (events, None)
      | (events, Continue) | (events, Done) =>
          let '(later, r) := plain_phase remaining' (S attempt) in (events ++ later, r)
      end
  end.

(** Line 2687: [if page_source and len(page_source) > 1000]. *)
Definition page_ok (page_source : option string) : option string :=
  match page_source with
  | Some text => if bool_decide (1000 < PyStr.len text)%nat then Some text else None
  | None => None
  end.

(** The browser phase, lines 2670-2711: the driver is initialised if there
    is none, and the page is asked for at most twice. *)
Definition selenium_phase : list Event * Result :=
  if use_selenium c && (has_driver c || init_driver w) then
    match page_ok (browser w 0) with
    | Some text => ([SeleniumGet], MockResponse text)
    | None =>
        match page_ok (browser w 1) with
        | Some text =>
            ([SeleniumGet; Sleep (selenium_wait w 1); SeleniumGet], MockResponse text)
        | None => ([SeleniumGet; Sleep (selenium_wait w 1); SeleniumGet], NoResponse)
        end
    end
  else ([], NoResponse).

Definition get_page_with_retry : list Event * Result :=
  match plain_phase (max_retries c) 0 with
  | (events, Some r) => (events, r)
  | (events, None) => (events ++ selenium_phase.1, selenium_phase.2)
  end.

End Fetch.

(** The responses the requests phase returns (lines 2633-2655): the status
    is neither 403 nor 429 nor one [raise_for_status] raises for, and the
    text is longer than 1000 characters. *)
Definition acceptable (r : Response) : bool :=
  match r with
  | Answer status_code text_length =>
      negb (status_code =? 403) && negb (status_code =? 429)
      && negb ((400 <=? status_code) && (status_code <? 600))
      && bool_decide (1000 < text_length)%nat
  | GetRaises => false
  end.

End CellFetch.

(** ** [FailedJournalsManager] *)
Module FailedJournals.

(** A record of [journals_config/failed_<type>_journals.json]; times are
    clock readings instead of ISO strings. *)
Record FailedRecord := {
  journal_name : string;
  url : string;
  reason : string;
  failed_time : Z;
  retry_count : Z;
  last_retry : option Z
}.

Definition named (name : string) (record : FailedRecord) : bool :=
  String.eqb (journal_name record) name.

(** Lines 61-63 of [add_failed_journal]. *)
Definition refail (reason' : string) (now : Z) (record : FailedRecord) : FailedRecord :=
  {| journal_name := journal_name record; url := url record; reason := reason';
     failed_time := now; retry_count := retry_count record + 1;
     last_retry := last_retry record |}.

(** Lines 106-107 of [update_retry_info]. *)
Definition touch (now : Z) (record : FailedRecord) : FailedRecord :=
  {| journal_name := journal_name record; url := url record; reason := reason record;
     failed_time := failed_time record; retry_count := retry_count record + 1;
     last_retry := Some now |}.

(** Apply [f] to the first record of the given name, if there is one. *)
Fixpoint update_first (name : string) (f : FailedRecord → FailedRecord)
    (failed_journals : list FailedRecord) : list FailedRecord :=
  match failed_journals with
  | [] => []
  | record :: rest =>
      if named name record then f record :: rest
      else record :: update_first name f rest
  end.

(** The file is the state; a missing file reads as the empty list. *)
Definition add_failed_journal (failed_journals : list FailedRecord)
    (name url' reason' : string) (now : Z) : list FailedRecord :=
  if existsb (named name) failed_journals
  then update_first name (refail reason' now) failed_journals
  else failed_journals ++
       [{| journal_name := name; url := url'; reason := reason'; failed_time := now;
           retry_count := 0; last_retry := None |}].

Definition get_failed_journals (failed_journals : list FailedRecord) : list FailedRecord :=
  failed_journals.

Definition remove_successful_journal (failed_journals : list FailedRecord)
    (name : string) : list FailedRecord :=
  let updated_journals := List.filter (λ journal, negb (named name journal)) failed_journals in
  if bool_decide (length updated_journals < length failed_journals)%nat
  then updated_journals else failed_journals.

Definition update_retry_info (failed_journals : list FailedRecord)
    (name : string) (now : Z) : list FailedRecord :=
  update_first name (touch now) failed_journals.

(** One iteration of the loop of [CellParser.retry_failed_journals]
    ([crawler/parser.py] 2093-2115): [articles] is what
    [_retry_single_journal] retrieved for the record. *)
Definition retry_journal (failed_journals : list FailedRecord)
    (journal_record : FailedRecord) (articles : list Consensus.Paper) (now : Z)
  : list FailedRecord :=
  let touched := update_retry_info failed_journals (journal_name journal_record) now in
  match articles with
  | [] => touched
  | _ :: _ => remove_successful_journal touched (journal_name journal_record)
  end.

(** [clear_failed_journals] *)
Definition clear_failed_journals (failed_journals : list FailedRecord) : list FailedRecord :=
  [].

(** The dict [get_statistics] returns, without the file's name. *)
Record Statistics := {
  total_failed : Z;
  retry_distribution : gmap Z Z
}.

Definition get_statistics (failed_journals : list FailedRecord) : Statistics :=
  {| total_failed := Z.of_nat (length failed_journals);
     retry_distribution :=
       foldl (λ retry_counts journal,
                let count := retry_count journal in
                <[count := default 0 (retry_counts !! count) + 1]> retry_counts)
             ∅ failed_journals |}.

End FailedJournals.

(** ** The archives of the papers found not relevant
    ([_save_non_ai_papers_to_json] of the two orchestrators) *)
Module Archive.
Import Consensus.

(** A dict of the JSON file. *)
Record Entry := {
  e_title : string;
  e_abstract : string;
  e_date : string;
  e_doi : string;
  e_link : string;
  e_authors : string;
  e_type : string
}.

(** The archive file: absent, not readable as JSON, or a list of dicts. *)
Inductive File :=
  | Missing
  | Unreadable
  | Content (papers : list Entry).

(** [existing_papers.sort(key=lambda x: x.get('date', ''), reverse=True)]:
    the keys are strings, compared character by character; a reversed sort
    is stable as well, so an entry is put behind the entries with a greater
    key and before those with an equal or a smaller one. *)
Fixpoint insert_by_date (x : Entry) (l : list Entry) : list Entry :=
  match l with
  | [] => [x]
  | y :: l' =>
      if String.ltb (e_date x) (e_date y) then y :: insert_by_date x l'
      else x :: y :: l'
  end.

Definition sort_by_date_desc (l : list Entry) : list Entry := foldr insert_by_date [] l.

Section Save.
(** [date.strftime('%Y-%m-%d')] *)
Variable strftime : Z → string.

(** The dict built per paper: the date is formatted, or is [str(None)] for
    a paper without date; the link is read from the key [url]. *)
Definition paper_data (paper : Item) : Entry :=
  {| e_title := title paper; e_abstract := abstract paper;
     e_date := match date paper with Some d => strftime d | None => "None" end;
     e_doi := doi paper; e_link := default "" (url paper);
     e_authors := authors paper; e_type := type_ paper |}.

(** [crawler/main_backward.py] 340-343: the loop that merges by DOI. *)
Definition merge_step (st : list Entry * gset string) (paper : Entry)
  : list Entry * gset string :=
  if negb (String.eqb (e_doi paper) "") && negb (bool_decide (e_doi paper ∈ st.2))
  then (st.1 ++ [paper], st.2 ∪ {[e_doi paper]})
  else st.

(** [{paper.get('doi') for paper in existing_papers if paper.get('doi')}] *)
Definition dois_of (existing_papers : list Entry) : gset string :=
  list_to_set (List.filter (λ doi, negb (String.eqb doi "")) (e_doi <$> existing_papers)).

(** [_save_non_ai_papers_to_json] of [crawler/main_backward.py]: a file
    that cannot be read counts as empty, and the file is always written. *)
Definition save_backward (file : File) (non_ai_papers : list Item) : File :=
  let existing_papers := match file with Content papers => papers | _ => [] end in
  let merged := foldl merge_step (existing_papers, dois_of existing_papers)
                      (paper_data <$> non_ai_papers) in
  Content (sort_by_date_desc merged.1).

(** [_save_non_ai_papers_to_json] of [crawler/main_forward.py]: the papers
    are merged by title, the file is written only if a paper is new, and
    reading an unreadable file raises into the handler, which writes
    nothing. *)
Definition save_forward (file : File) (non_ai_papers : list Item) : File :=
  match file with
  | Unreadable => Unreadable
  | _ =>
      let existing_papers := match file with Content papers => papers | _ => [] end in
      let existing_titles : gset string := list_to_set (e_title <$> existing_papers) in
      let new_papers :=
        List.filter (λ p, negb (bool_decide (e_title p ∈ existing_titles)))
                    (paper_data <$> non_ai_papers) in
      if bool_decide (new_papers = []) then file
      else Content (sort_by_date_desc (existing_papers ++ new_papers))
  end.

End Save.

(** No entry is followed by one with a greater date key. *)
Definition descending (l : list Entry) : Prop :=
  Sorted (λ x y, String.ltb (e_date x) (e_date y) = false) l.

End Archive.

(** ** [NatureParser.scrape_journal]: the analysis and the returned list *)
Module NatureScrape.
Import Agent Nature.

(** A [card_infos] dict as the analysis leaves it: the keys [id] and
    [reason] are written in place ([id] is empty and [reason] is [None]
    while the key is absent). *)
Record Article := {
  info : CardInfo;
  id : string;
  reason : option string
}.

Definition candidate (c : CardInfo) : Article :=
  {| info := c; id := ""; reason := None |}.

Definition set_id (s : string) (a : Article) : Article :=
  {| info := info a; id := s; reason := reason a |}.

Definition set_reason (r : string) (a : Article) : Article :=
  {| info := info a; id := id a; reason := Some r |}.

(** [for i, item in enumerate(card_infos, start=1): item['id'] = str(i)] *)
Definition assign_ids (card_infos : list Article) : list Article :=
  imap (λ i, set_id (pretty (S i))) card_infos.

(** The parsed lines of [exports/json/non_ai_papers.json]: the values under
    [title] and [link].  A line that does not parse is skipped by the
    reader and is left out here. *)
Definition NonAiFile := list (string * string).

(** [load_non_ai_set]: the pairs of the file are added to [self.non_ai_set]. *)
Definition load_non_ai_set (file : NonAiFile) (non_ai_set : gset (string * string))
  : gset (string * string) :=
  non_ai_set ∪ list_to_set file.

(** Lines 750-760: one line per article of [non_ai_articles] is appended. *)
Definition append_non_ai (file : NonAiFile) (non_ai_articles : list Article) : NonAiFile :=
  file ++ ((λ item, (title (info item), url (info item))) <$> non_ai_articles).

(** What the agent answers for one listing stream. *)
Record Analysis := {
  result1 : list Vote;
  result2 : list Vote;
  analyze_paper : nat → string → string → Review
}.

(** The state of the loop of lines 725-745: the two output lists, the dicts
    of [card_infos] gone through so far (as the loop has left them) and the
    number of single-item calls made. *)
Record Loop := {
  articles : list Article;
  non_ai_articles : list Article;
  seen : list Article;
  reviews : nat
}.

Definition start_loop (articles : list Article) : Loop :=
  {| articles := articles; non_ai_articles := []; seen := []; reviews := 0 |}.

Definition to_articles (item : Article) (reviewed : bool) (st : Loop) : Loop :=
  {| articles := articles st ++ [item]; non_ai_articles := non_ai_articles st;
     seen := seen st ++ [item];
     reviews := if reviewed then S (reviews st) else reviews st |}.

Definition to_non_ai_articles (item : Article) (reviewed : bool) (st : Loop) : Loop :=
  {| articles := articles st; non_ai_articles := non_ai_articles st ++ [item];
     seen := seen st ++ [item];
     reviews := if reviewed then S (reviews st) else reviews st |}.

Definition skip (item : Article) (st : Loop) : Loop :=
  {| articles := articles st; non_ai_articles := non_ai_articles st;
     seen := seen st ++ [item]; reviews := reviews st |}.

(** The body of [for item in card_infos], lines 725-745. *)
Definition analysis_step (a : Analysis) (r1_map r2_map : gmap string Vote)
    (st : Loop) (item : Article) : Loop :=
  match r1_map !! id item, r2_map !! id item with
  | Some r1, Some r2 =>
      if is_ai_related r1 && is_ai_related r2 then
        to_articles (set_reason (explanation r1) item) false st
      else if negb (is_ai_related r1) && negb (is_ai_related r2) then
        to_non_ai_articles (set_reason (explanation r1) item) false st
      else
        let review := analyze_paper a (reviews st) (title (info item)) (abstract (info item)) in
        let item' := set_reason (default "reviewed" (rv_explanation review)) item in
        if rv_is_ai_related review then to_articles item' true st
        else to_non_ai_articles item' true st
  | _, _ => skip item st
  end.

(** What is carried from one article type to the next: the list [articles],
    the file of the papers found not relevant, and [self.non_ai_set]. *)
Record Env := {
  env_articles : list Article;
  env_file : NonAiFile;
  env_non_ai_set : gset (string * string)
}.

Section Scrape.
Variable has_agent : bool.                 (* [self.paper_agent] is set *)
Variables (start_date end_date : option Z).
Variable paper_exists : string → bool.
Variable journal_name : string.

(** The candidates of one article type, lines 582-701. *)
Definition candidates (env : Env) (article_type : string) (s : Stream) : list Article :=
  candidate <$> card_infos
    (crawl_stream start_date end_date paper_exists
       (load_non_ai_set (env_file env) (env_non_ai_set env))
       journal_name article_type s init).

(** One iteration of [for article_type in article_types], lines 579-762:
    what it leaves in [articles], in the file and in the set, and the value
    of [card_infos] at its end. *)
Definition scrape_type (env : Env) (article_type : string) (s : Stream) (a : Analysis)
  : Env * list Article :=
  let non_ai_set := load_non_ai_set (env_file env) (env_non_ai_set env) in
  let card_infos := candidates env article_type s in
  if negb (bool_decide (card_infos = [])) && has_agent then
    let out := foldl (analysis_step a (Consensus.results_map (result1 a))
                        (Consensus.results_map (result2 a)))
                     (start_loop (env_articles env)) (assign_ids card_infos) in
    ({| env_articles := articles out;
        env_file := append_non_ai (env_file env) (non_ai_articles out);
        env_non_ai_set := non_ai_set |}, seen out)
  else
    ({| env_articles := env_articles env; env_file := env_file env;
        env_non_ai_set := non_ai_set |}, card_infos).

(** [articles.sort(key=lambda x: x['date'] or dateparser.parse('1900-01-01'),
    reverse=True)], line 768, on these dicts; see [Nature.final_sort]. *)
Definition sort_articles (articles : list Article) : option (list Article) :=
  if bool_decide (Exists (λ x, date (info x) = None) articles)
     && bool_decide (Exists (λ x, is_Some (date (info x))) articles)
  then None
  else Some (PySort.sort_by (λ x, - default 0 (date (info x))) articles).

(** [scrape_journal]: the two article types in turn, then the [else] of the
    [for] statement (line 763; the loop has no [break], so it always runs),
    which extends [articles] by the [card_infos] of the last article type,
    then the sort.  The result is the returned list ([None] if the sort
    raises) and the state left behind.  [file] and [non_ai_set] are the file
    and [self.non_ai_set] at the time of the call. *)
Definition scrape_journal (file : NonAiFile) (non_ai_set : gset (string * string))
    (news : Stream * Analysis) (research : Stream * Analysis)
  : option (list Article) * Env :=
  let env := {| env_articles := []; env_file := file; env_non_ai_set := non_ai_set |} in
  let '(env1, _) := scrape_type env "news-and-comment" news.1 news.2 in
  let '(env2, card_infos) := scrape_type env1 "research-articles" research.1 research.2 in
  (sort_articles (env_articles env2 ++ card_infos), env2).

End Scrape.

End NatureScrape.

(** ** Concrete inputs used below *)
Module Examples.
Import Agent Consensus.

(** An adjudicator that finds every paper related to AI. *)
Definition always_relevant (n : nat) (title abstract : string) : Review :=
  {| rv_is_ai_related := true; rv_explanation := Some "adjudicated: related" |}.

Definition paper_dated (d : Z) (doi : string) : Paper :=
  {| p_title := "Paper " +:+ doi; p_abstract := "Abstract of " +:+ doi;
     p_date := Some d; p_doi := doi; p_url := "https://example.org/" +:+ doi;
     p_authors := "A. Author" |}.

Definition yes (i : string) : Vote :=
  {| v_id := i; is_ai_related := true; explanation := "related" |}.

Definition no (i : string) : Vote :=
  {| v_id := i; is_ai_related := false; explanation := "not related" |}.

(** The first card of a run, as the loop sees it. *)
Definition item1 : Item := set_id "1" (card_of_paper_full (paper_dated 738000 "10.1/a")).

(** Two papers, the later one listed first, as [NatureParser.scrape_journal]
    returns them (newest first). *)
Definition newest_first : list Paper :=
  [paper_dated 738002 "10.1/late"; paper_dated 738001 "10.1/early"].

(** A relevant item without DOI, as [crawler/main_forward.py] builds it:
    the dict has no [url] key. *)
Definition item_without_identity : Item :=
  set_reason "related" (set_id "1" (card_of_paper_full
    {| p_title := "Untitled"; p_abstract := ""; p_date := Some 738000;
       p_doi := ""; p_url := "https://example.org/u"; p_authors := "" |})).

(** A table holding two dated rows of the sub-journal "Nature Physics" and
    a later one of another sub-journal. *)
Definition stored_row (journal : string) (d : option Z) (doi : string) : DB.Row :=
  {| DB.r_title := "Stored"; DB.r_abstract := None; DB.r_doi := Some doi;
     DB.r_pub_date := d; DB.r_journal := journal; DB.r_url := None;
     DB.r_authors := None; DB.r_reason := None; DB.r_type := "incremental" |}.

Definition some_table : list DB.Row :=
  [stored_row "Nature Physics" (Some 738000) "10.1/p1";
   stored_row "Nature Energy" (Some 738100) "10.1/e1";
   stored_row "Nature Physics" (Some 738050) "10.1/p2"].

(** A schedule whose first run used a configured window. *)
Definition configured : Orchestrator.Schedule :=
  {| Orchestrator.first_run := true;
     Orchestrator.initial_start_date := Some (DB.PDateTime 0);
     Orchestrator.initial_end_date := Some (DB.PDateTime 1) |}.

(** The listing of the pagination example: cards dated 10, 9, 8, 5, 1. *)
Definition card_dated (d : Z) : Nature.Card :=
  {| Nature.has_title := true; Nature.c_title := "Card " +:+ pretty d;
     Nature.c_link := "https://www.nature.com/articles/" +:+ pretty d;
     Nature.pub_date := Some d; Nature.fetch_raises := false;
     Nature.c_abstract := ""; Nature.c_authors := "" |}.


Definition stream_3_2 : Nature.Stream :=
  Nature.NextPage [card_dated 10; card_dated 9; card_dated 8]
    (Nature.LastPage [card_dated 5; card_dated 1]).

(** The crawl of the example: window 6..11, nothing stored, nothing archived. *)
Definition crawl_example (s : Nature.Stream) : Nature.State :=
  Nature.crawl_stream (Some 6) (Some 11) (λ _, false) ∅ "Nature" "research-articles"
    s Nature.init.

(** A card whose date could not be parsed. *)
Definition undated_card : Nature.Card :=
  {| Nature.has_title := true; Nature.c_title := "Undated";
     Nature.c_link := "https://www.nature.com/articles/undated";
     Nature.pub_date := None; Nature.fetch_raises := false;
     Nature.c_abstract := ""; Nature.c_authors := "" |}.

(** The relaxed-fallback example: window 2020-01-01 .. 2020-01-02 (day
    ordinals 737425 and 737426), issues dated 2019-12-20 (737413) and
    2020-02-15 (737470), the later one listed first. *)
Definition issue_on (d : Z) (label : string) : Relaxed.IssueElem :=
  {| Relaxed.href := "/issue?pii=" +:+ label;
     Relaxed.spans := [ {| Relaxed.span_text := "Issue " +:+ label;
                           Relaxed.span_date := Relaxed.NoMatch |};
                        {| Relaxed.span_text := label;
                           Relaxed.span_date := Relaxed.Parsed d |} ] |}.

Definition sparse_archive : list Relaxed.IssueElem :=
  [issue_on 737470 "February 15, 2020"; issue_on 737413 "December 20, 2019"].

(** A registry with two failed sub-journals. *)
Definition failed (name : string) : FailedJournals.FailedRecord :=
  {| FailedJournals.journal_name := name;
     FailedJournals.url := "https://www.cell.com/" +:+ name +:+ "/home";
     FailedJournals.reason := "Forbidden"; FailedJournals.failed_time := 1700000000;
     FailedJournals.retry_count := 0; FailedJournals.last_retry := None |}.

Definition registry : list FailedJournals.FailedRecord :=
  [failed "cell"; failed "neuron"].

(** Volume elements of a Science year page with the same two dates. *)
Definition volume_on (d : Z) (label : string) : Relaxed.VolumeElem :=
  {| Relaxed.cover_date_text := Some label; Relaxed.parsed_date := Some d;
     Relaxed.toc_href := Some ("/toc/science/" +:+ label);
     Relaxed.toc_url := "https://www.science.org/toc/science/" +:+ label;
     Relaxed.volume_text := "Vol 367 Issue 1"; Relaxed.title_text := None |}.

Definition sparse_year : list Relaxed.VolumeElem :=
  [volume_on 737470 "15 February"; volume_on 737413 "20 December"].

(** A page of 400 Chinese characters, each of three bytes. *)
Definition short_page : string := String.concat "" (replicate 400 "页").


(** A relevant item with a DOI, dated day 738200. *)
Definition item_with_doi : Item :=
  set_reason "related" (set_id "1" (card_of_paper_incremental (paper_dated 738200 "10.1/new"))).

(** Three paper ids, answered "related" one by one. *)
Definition echo (k : nat) (batch : list string) : list Vote := yes <$> batch.

(** The news stream shows one card, the research stream two; the agent
    finds the news card and the first research card relevant and the second
    research card not. *)
Definition nature_news : Nature.Stream * NatureScrape.Analysis :=
  (Nature.LastPage [card_dated 12],
   {| NatureScrape.result1 := [yes "1"]; NatureScrape.result2 := [yes "1"];
      NatureScrape.analyze_paper := always_relevant |}).

Definition nature_research : Nature.Stream * NatureScrape.Analysis :=
  (Nature.LastPage [card_dated 10; card_dated 9],
   {| NatureScrape.result1 := [yes "1"; no "2"]; NatureScrape.result2 := [yes "1"; no "2"];
      NatureScrape.analyze_paper := always_relevant |}).

Definition nature_scrape : option (list NatureScrape.Article) * NatureScrape.Env :=
  NatureScrape.scrape_journal true None None (λ _, false) "Nature" [] ∅
    nature_news nature_research.

(** A sub-journal whose two papers are both found relevant, and one whose
    scrape raises. *)
Definition scraped_two : Orchestrator.SubJournal :=
  {| Orchestrator.name := "Nature Physics";
     Orchestrator.scraped := Some newest_first;
     Orchestrator.result1 := [yes "1"; yes "2"];
     Orchestrator.result2 := [yes "1"; yes "2"];
     Orchestrator.analyze_paper := always_relevant |}.

Definition scrape_raises : Orchestrator.SubJournal :=
  {| Orchestrator.name := "Nature Energy";
     Orchestrator.scraped := None;
     Orchestrator.result1 := []; Orchestrator.result2 := [];
     Orchestrator.analyze_paper := always_relevant |}.

(** A PLOS server that blocks the first two calls and answers the third
    with 200, with the shortest sleeps the function's ranges allow. *)
Definition plos_blocked_twice : Fetch.World :=
  {| Fetch.ua_choice := λ k, (k `mod` 4)%nat;
     Fetch.backoff := λ _, 8000;
     Fetch.forbidden_wait := λ _, 15000;
     Fetch.error_wait := λ _, 8000;
     Fetch.http := λ k, if bool_decide (k < 2)%nat then Fetch.Raises else Fetch.Status 200;
     Fetch.browser := Fetch.BrowserRaises |}.

(** The year pages 2019 and 2020 of the Science archive, three volumes
    each: 27, 20 and 13 December 2019 (day ordinals 737420, 737413, 737406)
    and 3, 10 and 17 January 2020 (737427, 737434, 737441). *)
Definition year_2019 : list Relaxed.VolumeElem :=
  [volume_on 737420 "27 December"; volume_on 737413 "20 December";
   volume_on 737406 "13 December"].

Definition year_2020 : list Relaxed.VolumeElem :=
  [volume_on 737427 "3 January"; volume_on 737434 "10 January";
   volume_on 737441 "17 January"].

(** Three papers as the incremental loop sees them; the passes agree on
    the first (yes) and on the second (no) and disagree on the third. *)
Definition item1' : Item := set_id "1" (card_of_paper_incremental (paper_dated 1 "a")).
Definition item2 : Item := set_id "2" (card_of_paper_incremental (paper_dated 2 "b")).
Definition item3 : Item := set_id "3" (card_of_paper_incremental (paper_dated 3 "c")).

Definition three_items : list Item := [item1'; item2; item3].

Definition three_votes_a : gmap string Vote := results_map [yes "1"; no "2"; yes "3"].
Definition three_votes_b : gmap string Vote := results_map [yes "1"; no "2"; no "3"].

(** An article as [ScienceParser._get_science_article_details] returns it
    when the article page shows no DOI (lines 1591 and 1671-1676): it has a
    URL and an empty DOI.  Both passes find it relevant. *)
Definition paper_without_doi : Paper :=
  {| p_title := "Quantum error correction with neural decoders"; p_abstract := "";
     p_date := Some 738000; p_doi := "";
     p_url := "https://www.science.org/doi/full/10.1126/science.abc1234";
     p_authors := "" |}.

(** Two runs of [run_full_crawl] ([crawler/main_forward.py]) over the same
    window, and two of [run_incremental_crawl] ([crawler/main_backward.py]),
    each run finding that one paper. *)
Definition full_crawl_once : Orchestrator.Batch :=
  Orchestrator.process_full always_relevant [] "Science" [paper_without_doi]
    [yes "1"] [yes "1"].

Definition full_crawl_twice : Orchestrator.Batch :=
  Orchestrator.process_full always_relevant (Orchestrator.table_after full_crawl_once)
    "Science" [paper_without_doi] [yes "1"] [yes "1"].

Definition incremental_crawl_once : option Orchestrator.Batch :=
  Orchestrator.process_incremental always_relevant [] "Science" [paper_without_doi]
    [yes "1"] [yes "1"].

Definition incremental_crawl_twice : option Orchestrator.Batch :=
  Orchestrator.process_incremental always_relevant
    (from_option Orchestrator.table_after [] incremental_crawl_once)
    "Science" [paper_without_doi] [yes "1"] [yes "1"].

(** U+00A0 and U+3000 in UTF-8. *)
Definition no_break_space : string := String "194" (String "160" EmptyString).
Definition ideographic_space : string :=
  String "227" (String "128" (String "128" EmptyString)).

End Examples.

(** * Properties *)

(** ** The stable sort *)
Section SortFacts.
Context {A : Type} (key : A → Z).
Import PySort.

Lemma insert_by_perm x l : insert_by key x l ≡ₚ x :: l.
Proof.
  induction l as [|y l IH]; simpl; [done|].
  destruct (Z.ltb_spec (key y) (key x)); [|done].
  rewrite IH. apply Permutation_swap.
Qed.

Lemma sort_by_perm l : sort_by key l ≡ₚ l.
Proof.
  induction l as [|x l IH]; simpl; [done|].
  fold (sort_by key l). by rewrite insert_by_perm, IH.
Qed.

Lemma insert_by_hdrel a x l :
  key a ≤ key x → HdRel (λ x y, key x ≤ key y) a l →
  HdRel (λ x y, key x ≤ key y) a (insert_by key x l).
Proof.
  intros Hax Hl. destruct l as [|y l]; simpl; [by constructor|].
  destruct (Z.ltb_spec (key y) (key x)); constructor; [|done].
  by inversion Hl.
Qed.

Lemma insert_by_sorted x l : ascending key l → ascending key (insert_by key x l).
Proof.
  unfold ascending. induction l as [|y l IH]; intros Hs; simpl.
  - repeat constructor.
  - inversion Hs as [|? ? Hs' Hhd]; subst.
    destruct (Z.ltb_spec (key y) (key x)).
    + constructor; [by apply IH|]. apply insert_by_hdrel; [lia|done].
    + constructor; [done|]. by constructor.
Qed.

Lemma sort_by_sorted l : ascending key (sort_by key l).
Proof.
  induction l as [|x l IH]; simpl; [constructor|].
  by apply insert_by_sorted.
Qed.

Lemma sort_by_length l : length (sort_by key l) = length l.
Proof. apply Permutation_length, sort_by_perm. Qed.

(** Stability: the elements of any one key come out in their input order. *)
Lemma insert_by_filter_key k x l :
  ascending key l →
  filter (λ y, key y = k) (insert_by key x l) = filter (λ y, key y = k) (x :: l).
Proof.
  unfold ascending. induction l as [|y l IH]; intros Hs; simpl; [done|].
  inversion Hs as [|? ? Hs' Hhd]; subst.
  destruct (Z.ltb_spec (key y) (key x)) as [Hlt|Hge]; [|done].
  rewrite !filter_cons. rewrite filter_cons in IH.
  destruct (decide (key y = k)) as [Hy|Hy]; destruct (decide (key x = k)) as [Hx|Hx];
    rewrite ?IH by done; try done; try lia;
    rewrite ?decide_False by done; rewrite ?decide_True by done; done.
Qed.

Lemma sort_by_stable k l :
  filter (λ y, key y = k) (sort_by key l) = filter (λ y, key y = k) l.
Proof.
  induction l as [|x l IH]; simpl; [done|].
  fold (sort_by key l). rewrite insert_by_filter_key by apply sort_by_sorted.
  rewrite !filter_cons. by rewrite IH.
Qed.

End SortFacts.

(** ** The consensus loop *)
Section ConsensusFacts.
Import Agent Consensus.
Variable analyze_paper : nat → string → string → Review.
Variables r1_map r2_map : gmap string Vote.

(** Ids are the decimal numerals of the positions, hence pairwise distinct. *)
Lemma assign_ids_lookup card_infos i item :
  assign_ids card_infos !! i = Some item →
  id item = pretty (S i).
Proof.
  unfold assign_ids. rewrite list_lookup_imap.
  destruct (card_infos !! i); simpl; [|done]. by intros [= <-].
Qed.

Lemma assign_ids_length card_infos : length (assign_ids card_infos) = length card_infos.
Proof. apply length_imap. Qed.

Lemma assign_ids_NoDup card_infos : NoDup (id <$> assign_ids card_infos).
Proof.
  apply NoDup_alt. intros i j s Hi Hj.
  rewrite list_lookup_fmap in Hi, Hj.
  destruct (assign_ids card_infos !! i) as [a|] eqn:Ha; [|done].
  destruct (assign_ids card_infos !! j) as [b|] eqn:Hb; [|done].
  simpl in *. apply assign_ids_lookup in Ha, Hb.
  assert (pretty (S i) = pretty (S j)) as Heq by congruence.
  apply (inj pretty) in Heq. lia.
Qed.

(** What one iteration does to the three components, for an item with both
    votes. *)
Lemma vote_block_agree r1 r2 acc item :
  is_ai_related r1 = is_ai_related r2 →
  vote_block analyze_paper r1 r2 acc item =
    (if is_ai_related r1 then add_ai else add_non_ai)
      (set_reason (explanation r1) item) acc.
Proof. unfold vote_block. by destruct (is_ai_related r1), (is_ai_related r2). Qed.

Lemma vote_block_disagree r1 r2 acc item :
  is_ai_related r1 ≠ is_ai_related r2 →
  vote_block analyze_paper r1 r2 acc item =
    let review := analyze_paper (length (review_calls acc)) (title item) (abstract item) in
    (if rv_is_ai_related review then add_ai else add_non_ai)
      (set_reason (default "reviewed" (rv_explanation review)) item)
      (log_call (title item, abstract item) acc).
Proof.
  intros Hne. unfold vote_block.
  destruct (is_ai_related r1), (is_ai_related r2); try done; simpl;
    by destruct (rv_is_ai_related _).
Qed.

Section AnyStep.
(** The four copies of the loop differ only in what they do with an item
    that lacks a vote; what follows holds for each of them. *)
Variable step : Acc → Item → Acc.
Hypothesis step_voted : ∀ acc item r1 r2,
  r1_map !! id item = Some r1 → r2_map !! id item = Some r2 →
  step acc item = vote_block analyze_paper r1 r2 acc item.
Hypothesis step_unvoted : ∀ acc item,
  r1_map !! id item = None ∨ r2_map !! id item = None →
  review_calls (step acc item) = review_calls acc
  ∧ ai_papers (step acc item) = ai_papers acc
  ∧ non_ai_papers acc `prefix_of` non_ai_papers (step acc item).

Lemma step_cases acc item :
  (∃ r1 r2, r1_map !! id item = Some r1 ∧ r2_map !! id item = Some r2
            ∧ step acc item = vote_block analyze_paper r1 r2 acc item)
  ∨ ((r1_map !! id item = None ∨ r2_map !! id item = None)
     ∧ needs_review r1_map r2_map item = false).
Proof.
  unfold needs_review.
  destruct (r1_map !! id item) as [r1|] eqn:H1;
    destruct (r2_map !! id item) as [r2|] eqn:H2; eauto 10.
Qed.

Lemma step_calls acc item :
  review_calls (step acc item) =
  review_calls acc ++
    (if needs_review r1_map r2_map item then [(title item, abstract item)] else []).
Proof.
  destruct (step_cases acc item) as [(r1 & r2 & H1 & H2 & ->)|[Hnone ->]].
  - unfold needs_review. rewrite H1, H2.
    destruct (decide (is_ai_related r1 = is_ai_related r2)) as [Heq|Hne].
    + rewrite vote_block_agree by done. rewrite Heq, eqb_reflx. simpl.
      rewrite app_nil_r. by destruct (is_ai_related r2).
    + rewrite vote_block_disagree by done.
      assert (eqb (is_ai_related r1) (is_ai_related r2) = false) as ->
        by (by destruct (is_ai_related r1), (is_ai_related r2)).
      simpl. by destruct (rv_is_ai_related _).
  - rewrite app_nil_r. by apply step_unvoted.
Qed.

Lemma step_grows acc item :
  ai_papers acc `prefix_of` ai_papers (step acc item)
  ∧ non_ai_papers acc `prefix_of` non_ai_papers (step acc item).
Proof.
  destruct (step_cases acc item) as [(r1 & r2 & H1 & H2 & ->)|[Hnone _]].
  - unfold vote_block.
    repeat match goal with |- context [if ?b then _ else _] => destruct b end;
      simpl; split; (done || apply prefix_app_r; done).
  - destruct (step_unvoted acc item Hnone) as (_ & -> & ?). done.
Qed.

Lemma run_grows items acc :
  ai_papers acc `prefix_of` ai_papers (foldl step acc items)
  ∧ non_ai_papers acc `prefix_of` non_ai_papers (foldl step acc items).
Proof.
  revert acc. induction items as [|item items IH]; intros acc; simpl; [done|].
  destruct (step_grows acc item), (IH (step acc item)). split; by etrans.
Qed.

Lemma run_calls items acc :
  review_calls (foldl step acc items) =
  review_calls acc ++
    ((λ it, (title it, abstract it)) <$> List.filter (needs_review r1_map r2_map) items).
Proof.
  revert acc. induction items as [|item items IH]; intros acc; simpl.
  - by rewrite app_nil_r.
  - rewrite IH, step_calls.
    destruct (needs_review r1_map r2_map item); simpl; by rewrite <-app_assoc.
Qed.

(** The verdict reached for the item at a given place of the run: it is
    found in the output list the rule names, with the reason the rule names. *)
Lemma run_verdict pre item post acc r1 r2 :
  r1_map !! id item = Some r1 → r2_map !! id item = Some r2 →
  let out := foldl step acc (pre ++ item :: post) in
  (is_ai_related r1 = is_ai_related r2 →
     set_reason (explanation r1) item ∈
       (if is_ai_related r1 then ai_papers out else non_ai_papers out))
  ∧ (is_ai_related r1 ≠ is_ai_related r2 →
     let n := (length (review_calls acc)
               + length (List.filter (needs_review r1_map r2_map) pre))%nat in
     let review := analyze_paper n (title item) (abstract item) in
     set_reason (default "reviewed" (rv_explanation review)) item ∈
       (if rv_is_ai_related review then ai_papers out else non_ai_papers out)).
Proof.
  intros H1 H2 out. subst out. rewrite foldl_app.
  set (mid := foldl step acc pre).
  change (foldl step mid (item :: post)) with (foldl step (step mid item) post).
  destruct (run_grows post (step mid item)) as [[ka Hka] [kn Hkn]].
  rewrite (step_voted mid item r1 r2 H1 H2) in *.
  split.
  - intros Heq. rewrite vote_block_agree in Hka, Hkn |- * by done.
    destruct (is_ai_related r1); simpl in *.
    + rewrite Hka, !elem_of_app, list_elem_of_singleton. auto.
    + rewrite Hkn, !elem_of_app, list_elem_of_singleton. auto.
  - intros Hne n review. rewrite vote_block_disagree in Hka, Hkn |- * by done.
    assert (length (review_calls mid) = n) as Hn.
    { subst mid n. rewrite run_calls, length_app, length_fmap. done. }
    cbv zeta in Hka, Hkn |- *. rewrite Hn in Hka, Hkn |- *.
    fold review in Hka, Hkn |- *.
    destruct (rv_is_ai_related review); simpl in *.
    + rewrite Hka, !elem_of_app, list_elem_of_singleton. auto.
    + rewrite Hkn, !elem_of_app, list_elem_of_singleton. auto.
Qed.

End AnyStep.

Lemma step_light_unvoted acc item :
  r1_map !! id item = None ∨ r2_map !! id item = None →
  step_light analyze_paper r1_map r2_map acc item =
    add_non_ai (set_ai_relevant false (set_reason "AI分析失败" item)) acc.
Proof.
  unfold step_light. intros [-> | ->]; [done|]. by destruct (r1_map !! id item).
Qed.

Lemma step_incremental_unvoted acc item :
  r1_map !! id item = None ∨ r2_map !! id item = None →
  step_incremental analyze_paper r1_map r2_map acc item = acc.
Proof.
  unfold step_incremental. intros [-> | ->]; [done|]. by destruct (r1_map !! id item).
Qed.

Lemma step_light_voted acc item r1 r2 :
  r1_map !! id item = Some r1 → r2_map !! id item = Some r2 →
  step_light analyze_paper r1_map r2_map acc item = vote_block analyze_paper r1 r2 acc item.
Proof. unfold step_light. by intros -> ->. Qed.

Lemma step_incremental_voted acc item r1 r2 :
  r1_map !! id item = Some r1 → r2_map !! id item = Some r2 →
  step_incremental analyze_paper r1_map r2_map acc item = vote_block analyze_paper r1 r2 acc item.
Proof. unfold step_incremental. by intros -> ->. Qed.

End ConsensusFacts.

Section ConsensusClaims.
Import Agent Consensus.
Variable analyze_paper : nat → string → string → Review.

Lemma voted_true r1_map r2_map item :
  voted r1_map r2_map item = true →
  ∃ r1 r2, r1_map !! id item = Some r1 ∧ r2_map !! id item = Some r2.
Proof.
  unfold voted. rewrite andb_true_iff, !bool_decide_eq_true.
  intros [[r1 ?] [r2 ?]]. eauto.
Qed.

Lemma voted_false r1_map r2_map item :
  voted r1_map r2_map item = false →
  r1_map !! id item = None ∨ r2_map !! id item = None.
Proof.
  unfold voted. rewrite andb_false_iff, !bool_decide_eq_false, <-!eq_None_not_Some. done.
Qed.

Lemma vote_block_count r1 r2 acc item :
  (length (ai_papers (vote_block analyze_paper r1 r2 acc item))
   + length (non_ai_papers (vote_block analyze_paper r1 r2 acc item)))%nat
  = S (length (ai_papers acc) + length (non_ai_papers acc)).
Proof.
  unfold vote_block.
  repeat match goal with |- context [if ?b then _ else _] => destruct b end;
    simpl; rewrite length_app; simpl; lia.
Qed.

(** The light orchestrator puts every item in one of the two lists. *)
Lemma light_run_count r1_map r2_map items acc :
  let out := foldl (step_light analyze_paper r1_map r2_map) acc items in
  (length (ai_papers out) + length (non_ai_papers out))%nat
  = (length (ai_papers acc) + length (non_ai_papers acc) + length items)%nat.
Proof.
  revert acc. induction items as [|item items IH]; intros acc; simpl; [lia|].
  rewrite IH. destruct (voted r1_map r2_map item) eqn:Hv.
  - apply voted_true in Hv as (r1 & r2 & H1 & H2).
    rewrite (step_light_voted _ _ _ _ _ r1 r2) by done. rewrite vote_block_count. lia.
  - apply voted_false in Hv. rewrite step_light_unvoted by done.
    simpl. rewrite length_app. simpl. lia.
Qed.

Lemma light_run_conserves_items papers result1 result2 :
  let out := classify_light analyze_paper papers result1 result2 in
  (length (ai_papers out) + length (non_ai_papers out))%nat = length papers.
Proof.
  unfold classify_light. cbv zeta. rewrite light_run_count. simpl.
  by rewrite assign_ids_length, length_fmap.
Qed.

(** ... and an item without both votes lands in the non-relevant list with the
    reason "AI分析失败" and the flag [ai_relevant = False]. *)
Lemma light_run_flags_unvoted r1_map r2_map pre item post :
  r1_map !! id item = None ∨ r2_map !! id item = None →
  set_ai_relevant false (set_reason "AI分析失败" item)
  ∈ non_ai_papers (foldl (step_light analyze_paper r1_map r2_map) empty_acc
                         (pre ++ item :: post)).
Proof.
  intros Hnone. rewrite foldl_app. simpl.
  set (mid := foldl _ empty_acc pre).
  destruct (run_grows analyze_paper r1_map r2_map
              (step_light analyze_paper r1_map r2_map)) with
    (items := post) (acc := step_light analyze_paper r1_map r2_map mid item)
    as [_ [k Hk]].
  - intros. by apply step_light_voted.
  - intros acc it Hn. rewrite step_light_unvoted by done. simpl.
    split_and!; [done..|]. by apply prefix_app_r.
  - rewrite Hk, step_light_unvoted by done. simpl.
    rewrite !elem_of_app, list_elem_of_singleton. auto.
Qed.

(** The other three copies of the loop keep only the items with both votes. *)
Lemma incremental_run_count r1_map r2_map items acc :
  let out := foldl (step_incremental analyze_paper r1_map r2_map) acc items in
  (length (ai_papers out) + length (non_ai_papers out))%nat
  = (length (ai_papers acc) + length (non_ai_papers acc)
     + length (List.filter (voted r1_map r2_map) items))%nat.
Proof.
  revert acc. induction items as [|item items IH]; intros acc; simpl; [lia|].
  rewrite IH. destruct (voted r1_map r2_map item) eqn:Hv.
  - apply voted_true in Hv as (r1 & r2 & H1 & H2).
    rewrite (step_incremental_voted _ _ _ _ _ r1 r2) by done.
    rewrite vote_block_count. simpl. lia.
  - apply voted_false in Hv. rewrite step_incremental_unvoted by done. lia.
Qed.

(** C1 (the incremental orchestrator, [crawler/main_backward.py] 225-231).
    One paper goes in, pass A returns a vote for it and pass B returns
    nothing: the loop [continue]s, so the item is in neither output list, it
    carries no "classification failed" reason anywhere, and the counts do
    not add up (1 item in, 0 relevant + 0 non-relevant out).  The light
    orchestrator handles the same input as the claim says
    ([light_run_conserves_items], [light_run_flags_unvoted]). *)
Theorem incremental_run_drops_unvoted_item :
  let paper := {| p_title := "T"; p_abstract := "A"; p_date := Some 738000;
                  p_doi := "10.1/x"; p_url := "https://example.org/x";
                  p_authors := "" |} in
  let vote := {| v_id := "1"; is_ai_related := true; explanation := "about AI" |} in
  let out := classify_incremental analyze_paper [paper] [vote] [] in
  ai_papers out = [] ∧ non_ai_papers out = []
  ∧ length [paper] ≠ (length (ai_papers out) + length (non_ai_papers out))%nat
  ∧ non_ai_papers (classify_light analyze_paper [paper] [vote] [])
    = [set_ai_relevant false
         (set_reason "AI分析失败" (set_id "1" (card_of_paper_full paper)))].
Proof. vm_compute. split_and!; done. Qed.

End ConsensusClaims.

(** A run of three papers: both passes say yes, both say no, they disagree.
    The third paper alone is adjudicated. *)
Lemma consensus_example :
  Consensus.id <$> Consensus.ai_papers
      (Consensus.classify_incremental Examples.always_relevant
         [Examples.paper_dated 1 "a"; Examples.paper_dated 2 "b"; Examples.paper_dated 3 "c"]
         [Examples.yes "1"; Examples.no "2"; Examples.yes "3"]
         [Examples.yes "1"; Examples.no "2"; Examples.no "3"])
  = ["1"; "3"]
  ∧ Consensus.reason <$> Consensus.non_ai_papers
      (Consensus.classify_incremental Examples.always_relevant
         [Examples.paper_dated 1 "a"; Examples.paper_dated 2 "b"; Examples.paper_dated 3 "c"]
         [Examples.yes "1"; Examples.no "2"; Examples.yes "3"]
         [Examples.yes "1"; Examples.no "2"; Examples.no "3"])
    = [Some "not related"]
  ∧ Consensus.review_calls
      (Consensus.classify_incremental Examples.always_relevant
         [Examples.paper_dated 1 "a"; Examples.paper_dated 2 "b"; Examples.paper_dated 3 "c"]
         [Examples.yes "1"; Examples.no "2"; Examples.yes "3"]
         [Examples.yes "1"; Examples.no "2"; Examples.no "3"])
    = [("Paper c", "Abstract of c")].
Proof. vm_compute. done. Qed.

(** ** The persistence boundary *)
Section DBFacts.
Import Consensus DB.

Lemma doi_taken_true table k :
  doi_taken table k = true ↔ ∃ r, r ∈ table ∧ r_doi r = Some k.
Proof.
  unfold doi_taken. rewrite bool_decide_eq_true, list_elem_of_fmap.
  split; intros (r & ? & ?); exists r; auto.
Qed.

Lemma doi_taken_false table k :
  doi_taken table k = false ↔ ∀ r, r ∈ table → r_doi r ≠ Some k.
Proof.
  unfold doi_taken. rewrite bool_decide_eq_false, list_elem_of_fmap. split.
  - intros Hfree r Hin Heq. apply Hfree. exists r. auto.
  - intros Hfree (r & Heq & Hin). by apply (Hfree r).
Qed.

Lemma save_paper_fresh table paper journal_name k :
  doi_value paper = Some k → doi_taken table k = false →
  save_paper table paper journal_name
  = (table ++ [row_of_paper paper journal_name], true).
Proof. intros Hk Hfree. unfold save_paper, insert_ignore. simpl. by rewrite Hk, Hfree. Qed.

Lemma save_paper_duplicate table paper journal_name k :
  doi_value paper = Some k → doi_taken table k = true →
  save_paper table paper journal_name = (table, false).
Proof. intros Hk Htaken. unfold save_paper, insert_ignore. simpl. by rewrite Hk, Htaken. Qed.

(** An item without DOI and without URL is stored with a [NULL] key, which
    the unique index never rejects. *)
Lemma save_paper_null table paper journal_name :
  doi_value paper = None →
  save_paper table paper journal_name
  = (table ++ [row_of_paper paper journal_name], true).
Proof. intros Hk. unfold save_paper, insert_ignore. simpl. by rewrite Hk. Qed.

Lemma doi_taken_after_save table paper journal_name k :
  doi_value paper = Some k →
  doi_taken (save_paper table paper journal_name).1 k = true.
Proof.
  intros Hk. destruct (doi_taken table k) eqn:Htaken.
  - by rewrite (save_paper_duplicate _ _ _ k).
  - rewrite (save_paper_fresh _ _ _ k) by done. simpl.
    apply doi_taken_true. exists (row_of_paper paper journal_name).
    rewrite elem_of_app, list_elem_of_singleton. auto.
Qed.

Lemma filter_doi_none table k :
  doi_taken table k = false → filter (λ r, r_doi r = Some k) table = [].
Proof.
  rewrite doi_taken_false. intros Hfree.
  induction table as [|r table IH]; [done|].
  rewrite filter_cons, decide_False.
  - apply IH. intros r' Hr'. apply Hfree. by right.
  - apply Hfree. by left.
Qed.

(** For an item that has an identity key (a DOI that is not blank, or else
    a URL under the key [url] that is not blank): a second [save_paper] with
    the same key, for the same or another item, changes nothing and returns
    [False]; and if the key was not stored before, the two calls leave
    exactly one row with that key, inserted by the first call, which returns
    [True]. *)
Lemma save_paper_idempotent_on_key table paper paper' journal_name journal_name' k :
  doi_value paper = Some k →
  doi_value paper' = Some k →
  let first := save_paper table paper journal_name in
  let second := save_paper first.1 paper' journal_name' in
  second.1 = first.1
  ∧ second.2 = false
  ∧ (doi_taken table k = false →
       first = (table ++ [row_of_paper paper journal_name], true)
       ∧ filter (λ r, r_doi r = Some k) second.1 = [row_of_paper paper journal_name])
  ∧ (doi_taken table k = true → first = (table, false)).
Proof.
  intros Hk Hk' first second.
  assert (second = (first.1, false)) as Hsecond.
  { subst second. apply (save_paper_duplicate _ _ _ k); [done|].
    by apply doi_taken_after_save. }
  rewrite Hsecond. simpl. split_and!; [done..| |].
  - intros Hfree. subst first. rewrite (save_paper_fresh _ _ _ k) by done.
    split; [done|]. simpl. rewrite filter_app, filter_doi_none by done.
    rewrite filter_cons, decide_True by done. done.
  - intros Htaken. subst first. by apply (save_paper_duplicate _ _ _ k).
Qed.

Lemma max_pub_date_None rows :
  max_pub_date rows = None ↔ Forall (λ r, r_pub_date r = None) rows.
Proof.
  induction rows as [|r rows IH]; simpl; [by split; [constructor|]|].
  rewrite Forall_cons, <-IH.
  destruct (r_pub_date r), (max_pub_date rows); split; try done;
    intros [? ?]; done.
Qed.

Lemma max_pub_date_Some rows m :
  max_pub_date rows = Some m →
  (∃ r, r ∈ rows ∧ r_pub_date r = Some m)
  ∧ (∀ r d, r ∈ rows → r_pub_date r = Some d → d ≤ m).
Proof.
  revert m. induction rows as [|r rows IH]; intros m; simpl; [done|].
  destruct (r_pub_date r) as [d|] eqn:Hd, (max_pub_date rows) as [m'|] eqn:Hm.
  - intros [= <-]. destruct (IH m' eq_refl) as [(r0 & Hr0 & Hr0m) Hub]. split.
    + destruct (Z.max_spec d m') as [[_ ->]|[_ ->]].
      * exists r0. split; [by right|done].
      * exists r. split; [by left|done].
    + intros r1 d1 [->|Hin]%elem_of_cons Hd1.
      * rewrite Hd in Hd1. injection Hd1 as <-. lia.
      * specialize (Hub r1 d1 Hin Hd1). lia.
  - intros [= <-]. apply max_pub_date_None in Hm. split.
    + exists r. split; [by left|done].
    + intros r1 d1 [->|Hin]%elem_of_cons Hd1.
      * rewrite Hd in Hd1. injection Hd1 as <-. lia.
      * rewrite Forall_forall in Hm. rewrite (Hm r1 Hin) in Hd1. done.
  - intros Hm'. destruct (IH m Hm') as [(r0 & Hr0 & Hr0m) Hub]. split.
    + exists r0. split; [by right|done].
    + intros r1 d1 [->|Hin]%elem_of_cons Hd1; [congruence|eauto].
  - done.
Qed.

End DBFacts.

(** An item without DOI, as [crawler/main_forward.py] builds it: the dict has
    no [url] key, so both calls insert a row, and the second returns [True]. *)
Lemma save_paper_twice_without_identity :
  (DB.save_paper (DB.save_paper [] Examples.item_without_identity "Nature").1
                 Examples.item_without_identity "Nature").2 = true
  ∧ length (DB.save_paper (DB.save_paper [] Examples.item_without_identity "Nature").1
                          Examples.item_without_identity "Nature").1 = 2%nat.
Proof. vm_compute. done. Qed.

(** [clean_empty_string] takes a DOI made of white space for a missing one,
    also when the white space is a no-break space (U+00A0) or an ideographic
    space (U+3000); such a paper is keyed by its URL. *)
Lemma blank_doi_counts_as_missing :
  PyStr.is_blank Examples.no_break_space = true
  ∧ PyStr.is_blank (" " +:+ Examples.ideographic_space +:+ Examples.no_break_space) = true
  ∧ PyStr.is_blank ("10.1/a" +:+ Examples.no_break_space) = false
  ∧ DB.doi_value
      (Consensus.set_reason "related"
         (Consensus.card_of_paper_incremental
            {| Consensus.p_title := "T"; Consensus.p_abstract := "";
               Consensus.p_date := None; Consensus.p_doi := Examples.no_break_space;
               Consensus.p_url := "https://example.org/t"; Consensus.p_authors := "" |}))
    = Some "https://example.org/t".
Proof. vm_compute. done. Qed.

(** The first card of a run, saved twice into an empty table. *)
Lemma save_paper_twice_with_doi :
  DB.doi_value Examples.item1 = Some "10.1/a"
  ∧ (DB.save_paper (DB.save_paper [] Examples.item1 "Nature").1 Examples.item1 "Nature").2
    = false
  ∧ length (DB.save_paper (DB.save_paper [] Examples.item1 "Nature").1
                          Examples.item1 "Nature").1 = 1%nat.
Proof.
  assert (DB.doi_value Examples.item1 = Some "10.1/a") as Hk by reflexivity.
  split; [exact Hk|].
  destruct (save_paper_idempotent_on_key [] Examples.item1 Examples.item1
              "Nature" "Nature" "10.1/a" Hk Hk) as (H1 & H2 & _ & _).
  split; [exact H2|]. vm_compute. reflexivity.
Qed.

(** C6 (the full crawl, [crawler/main_forward.py] 136-146 and 198-201).  A
    relevant paper that has a URL and no DOI is crawled twice.
    [save_paper] falls back on the value under [url], but the full crawl
    stores the paper's URL under [link] only: the row gets a [NULL] key, the
    unique index lets the second insert through, the second call returns
    [True] as well, and the table holds the paper twice.  The incremental
    crawl ([crawler/main_backward.py] 195) passes [url], and there the same
    two runs leave one row, keyed by the URL, the second save returning
    [False]. *)
Theorem full_crawl_saves_paper_without_doi_twice :
  Orchestrator.saved_count Examples.full_crawl_once = 1
  ∧ Orchestrator.saved_count Examples.full_crawl_twice = 1
  ∧ DB.r_doi <$> Orchestrator.table_after Examples.full_crawl_twice = [None; None]
  ∧ DB.r_title <$> Orchestrator.table_after Examples.full_crawl_twice
    = ["Quantum error correction with neural decoders";
       "Quantum error correction with neural decoders"]
  ∧ Orchestrator.saved_count <$> Examples.incremental_crawl_once = Some 1
  ∧ Orchestrator.saved_count <$> Examples.incremental_crawl_twice = Some 0
  ∧ (λ batch, DB.r_doi <$> Orchestrator.table_after batch) <$> Examples.incremental_crawl_twice
    = Some [Some "https://www.science.org/doi/full/10.1126/science.abc1234"].
Proof. vm_compute. split_and!; done. Qed.

(** ** The orchestrators *)
Section OrchestratorFacts.
Import Agent Consensus DB Orchestrator.

(** C7.  For a sub-journal without stored publication dates
    [get_last_update_time] returns [datetime.now() - timedelta(weeks=1)];
    with stored dates it returns their maximum; and once the first run is
    over, the start of the window of a run is the value
    [get_last_update_time] returns. *)
Theorem next_window_starts_at_last_known_date (s : Schedule) table journal_name now_query now_end :
  (Forall (λ r, r_pub_date r = None) (rows_for table journal_name) →
     get_last_update_time table journal_name now_query
     = PDateTime (now_query - 7 * 24 * 3600 * 1000000))
  ∧ (∀ r d, r ∈ rows_for table journal_name → r_pub_date r = Some d →
       ∃ m, get_last_update_time table journal_name now_query = PDate m
            ∧ d ≤ m
            ∧ ∃ r', r' ∈ rows_for table journal_name ∧ r_pub_date r' = Some m)
  ∧ (crawl_window (after_run s) table journal_name now_query now_end).1
    = get_last_update_time table journal_name now_query.
Proof.
  split_and!.
  - intros Hnone. unfold get_last_update_time.
    apply max_pub_date_None in Hnone. by rewrite Hnone.
  - intros r d Hr Hd. unfold get_last_update_time.
    destruct (max_pub_date (rows_for table journal_name)) as [m|] eqn:Hm.
    + destruct (max_pub_date_Some _ _ Hm) as [Hex Hub].
      exists m. split_and!; [done|by eapply Hub|done].
    + apply max_pub_date_None in Hm. rewrite Forall_forall in Hm.
      rewrite (Hm r Hr) in Hd. done.
  - unfold crawl_window, after_run. simpl. done.
Qed.

Lemma Sorted_strengthen {A} (R R' : A → A → Prop) (P : A → Prop) l :
  (∀ x y, P x → P y → R x y → R' x y) →
  Forall P l → Sorted R l → Sorted R' l.
Proof.
  intros Himpl HP Hs. induction Hs as [|x l Hs IH Hhd]; [constructor|].
  apply Forall_cons in HP as [Hx Hl]. constructor; [by apply IH|].
  destruct Hhd as [|y l' Hxy]; constructor.
  apply Forall_cons in Hl as [Hy _]. by apply Himpl.
Qed.


(** The sort raises exactly when there are two or more relevant items and
    one of them has no date; the batch then saves nothing. *)
Lemma sort_by_date_None l :
  sort_by_date l = None ↔ (1 < length l)%nat ∧ Exists (λ it, date it = None) l.
Proof.
  unfold sort_by_date.
  destruct (bool_decide (1 < length l)%nat) eqn:Hlen;
    destruct (bool_decide (Exists (λ it, date it = None) l)) eqn:Hex; simpl;
    rewrite ?bool_decide_eq_true, ?bool_decide_eq_false in *;
    split; try done; intros [? ?]; done.
Qed.


End OrchestratorFacts.



(** Witness for [next_window_starts_at_last_known_date]: an empty table
    gives the one-week default, and the run after the first starts there. *)
Lemma next_window_starts_at_last_known_date_witness :
  DB.get_last_update_time [] "Nature Physics" 1700000000000000
  = DB.PDateTime (1700000000000000 - 604800000000)
  ∧ (Orchestrator.crawl_window (Orchestrator.after_run Examples.configured)
       Examples.some_table "Nature Physics" 1700000000000000 1700000001000000).1
    = DB.PDate 738050.
Proof.
  destruct (next_window_starts_at_last_known_date Examples.configured []
              "Nature Physics" 1700000000000000 0) as (Hdefault & _ & _).
  split; [apply Hdefault; constructor|].
  destruct (next_window_starts_at_last_known_date Examples.configured
              Examples.some_table "Nature Physics" 1700000000000000
              1700000001000000) as (_ & _ & Hstart).
  etrans; [exact Hstart|]. vm_compute. reflexivity.
Defined.

(** ** The listing crawl *)
Section NatureFacts.
Import Nature.
Variables (start_date end_date : option Z).
Variable paper_exists : string → bool.
Variable non_ai_set : gset (string * string).
Variables (journal_name article_type : string).

Abbreviation process_card' :=
  (process_card start_date end_date paper_exists non_ai_set journal_name article_type).
Abbreviation crawl' :=
  (crawl_stream start_date end_date paper_exists non_ai_set journal_name article_type).
Abbreviation visited' :=
  (visited start_date end_date paper_exists non_ai_set journal_name article_type).
Abbreviation kept' := (kept start_date end_date paper_exists non_ai_set).
Abbreviation info' := (info_of_card journal_name article_type).
Abbreviation collected := (λ c : Card, has_title c && kept' c).

Lemma fold_card_infos cards st :
  card_infos (foldl process_card' st cards)
  = card_infos st ++ (info' <$> List.filter collected cards).
Proof.
  revert st. induction cards as [|c cards IH]; intros st; simpl.
  - by rewrite app_nil_r.
  - rewrite IH. unfold process_card.
    destruct (has_title c); simpl; [|done].
    destruct (kept' c); simpl; [|done]. by rewrite <-app_assoc.
Qed.

Lemma fold_pages_requested cards st :
  pages_requested (foldl process_card' st cards) = pages_requested st.
Proof.
  revert st. induction cards as [|c cards IH]; intros st; simpl; [done|].
  rewrite IH. unfold process_card. by destruct (has_title c).
Qed.

(** After a page all of whose cards have a title, [ret_date] is the date of
    the last card of the page. *)
Lemma fold_ret_date cards st :
  Forall (λ c, has_title c = true) cards →
  ret_date (foldl process_card' st cards)
  = match last cards with Some c => pub_date c | None => ret_date st end.
Proof.
  revert st. induction cards as [|c cards IH]; intros st Ht; simpl; [done|].
  apply Forall_cons in Ht as [Hc Ht]. rewrite IH by done.
  destruct cards as [|c' cards]; simpl.
  - unfold process_card. by rewrite Hc.
  - destruct (last (c' :: cards)) eqn:Hlast; [done|].
    by apply last_None in Hlast.
Qed.

(** The candidates are the cards of the visited pages that have a title and
    get past the filters, in listing order. *)
Lemma crawl_card_infos s st :
  card_infos (crawl' s st)
  = card_infos st ++ (info' <$> List.filter collected (concat (visited' s st))).
Proof.
  revert st. induction s as [|cards|cards rest IH]; intros st; simpl.
  - by rewrite app_nil_r.
  - by rewrite fold_card_infos, app_nil_r.
  - destruct (stop_signal _ _); simpl.
    + by rewrite fold_card_infos, app_nil_r.
    + rewrite IH, fold_card_infos, List.filter_app, fmap_app. simpl.
      by rewrite <-app_assoc.
Qed.


Lemma too_old_mono a b :
  a ≤ b → too_old start_date b = true → too_old start_date a = true.
Proof. unfold too_old. destruct start_date; [|done]. rewrite !Z.ltb_lt. lia. Qed.

Lemma too_old_not_kept c d :
  pub_date c = Some d → too_old start_date d = true → kept' c = false.
Proof. intros Hd Hold. unfold kept. by rewrite Hd, Hold. Qed.

Lemma filter_none {A} (f : A → bool) l :
  Forall (λ x, f x = false) l → List.filter f l = [].
Proof.
  induction 1 as [|x l Hx _ IH]; simpl; [done|]. by rewrite Hx.
Qed.


Lemma reverse_chronological_next cards rest :
  reverse_chronological (NextPage cards rest) →
  reverse_chronological rest
  ∧ Forall (λ c, has_title c = true ∧ is_Some (pub_date c)) cards
  ∧ StronglySorted not_older cards
  ∧ (∀ c c', c ∈ cards → c' ∈ concat (pages rest) → not_older c c').
Proof.
  unfold reverse_chronological. simpl.
  rewrite Forall_app, StronglySorted_app. intros [[H1 H2] (H3 & H4 & H5)].
  split_and!; done.
Qed.

(** The last card of a page in reverse chronological order is its oldest. *)
Lemma last_is_oldest cards c c' :
  StronglySorted not_older cards → last cards = Some c → c' ∈ cards →
  c' = c ∨ not_older c' c.
Proof.
  intros Hs Hlast Hin. apply last_Some in Hlast as [l' ->].
  apply StronglySorted_app in Hs as (Hcross & _ & _).
  apply elem_of_app in Hin as [Hin|Hin%list_elem_of_singleton]; [|by left].
  right. apply Hcross; [done|]. by apply list_elem_of_singleton.
Qed.

(** On a listing in reverse chronological order the pages the loop leaves
    out hold nothing the filters would keep. *)
Lemma visited_has_all_kept s st :
  reverse_chronological s → fetch_fails s = false →
  (∀ r, ret_date st = Some r →
        Forall (λ c, ∀ d, pub_date c = Some d → d ≤ r) (concat (pages s))) →
  List.filter collected (concat (visited' s st))
  = List.filter collected (concat (pages s)).
Proof.
  revert st. induction s as [|cards|cards rest IH]; intros st Hrc Hok Hinv; simpl in *.
  - done.
  - done.
  - apply reverse_chronological_next in Hrc as (Hrest & Hcards & Hsorted & Hcross).
    rewrite !List.filter_app. f_equal.
    set (st' := foldl process_card' (request st) cards).
    assert (∀ r, ret_date st' = Some r →
              Forall (λ c, ∀ d, pub_date c = Some d → d ≤ r) (concat (pages rest)))
      as Hinv'.
    { intros r Hr. subst st'. rewrite fold_ret_date in Hr
        by (eapply Forall_impl; [exact Hcards|]; by intros ? [? ?]).
      destruct (last cards) as [c|] eqn:Hlast.
      - apply Forall_forall. intros c' Hc' d Hd.
        assert (c ∈ cards) as Hc.
        { apply last_Some in Hlast as [l' ->]. rewrite elem_of_app, list_elem_of_singleton. auto. }
        specialize (Hcross c c' Hc Hc'). unfold not_older in Hcross.
        rewrite Hr, Hd in Hcross. done.
      - simpl in Hr. specialize (Hinv r Hr).
        apply Forall_app in Hinv as [_ ?]. done. }
    destruct (stop_signal start_date st') eqn:Hstop.
    + simpl. symmetry. apply filter_none.
      unfold stop_signal in Hstop. destruct (ret_date st') as [r|] eqn:Hr; [|done].
      specialize (Hinv' r eq_refl). rewrite Forall_forall in Hinv'.
      apply Forall_forall. intros c' Hc'.
      destruct Hrest as [Hdated _]. rewrite Forall_forall in Hdated.
      destruct (Hdated c' Hc') as [_ [d Hd]].
      rewrite (too_old_not_kept c' d Hd); [apply andb_false_r|].
      apply (too_old_mono d r); [by eapply Hinv'|done].
    + by apply IH.
Qed.

(** No page is requested beyond the first page that shows a card older than
    the window, when the pages list their cards in reverse chronological
    order. *)
Lemma crawl_stops_after_old_card s st i page c d :
  reverse_chronological s →
  pages s !! i = Some page → c ∈ page → pub_date c = Some d →
  too_old start_date d = true →
  (pages_requested (crawl' s st) ≤ pages_requested st + i + 1)%nat.
Proof.
  revert st i. induction s as [|cards|cards rest IH]; intros st i Hrc Hpage Hc Hd Hold;
    simpl in *.
  - done.
  - rewrite fold_pages_requested. simpl. lia.
  - apply reverse_chronological_next in Hrc as (Hrest & Hcards & Hsorted & Hcross).
    set (st' := foldl process_card' (request st) cards).
    assert (pages_requested st' = S (pages_requested st)) as Hreq
      by (subst st'; by rewrite fold_pages_requested).
    destruct (stop_signal start_date st') eqn:Hstop; [lia|].
    destruct i as [|i]; simpl in Hpage.
    + exfalso. injection Hpage as <-.
      unfold stop_signal in Hstop. subst st'.
      rewrite fold_ret_date in Hstop
        by (eapply Forall_impl; [exact Hcards|]; by intros ? [? ?]).
      destruct (last cards) as [cl|] eqn:Hlast.
      * destruct (last_is_oldest cards cl c Hsorted Hlast Hc) as [->|Hno].
        -- rewrite Hd, Hold in Hstop. done.
        -- unfold not_older in Hno. rewrite Hd in Hno.
           destruct (pub_date cl) as [dl|]; [|done].
           rewrite (too_old_mono dl d) in Hstop; done.
      * apply last_None in Hlast. subst cards. by apply elem_of_nil in Hc.
    + specialize (IH st' i Hrest Hpage Hc Hd Hold). lia.
Qed.

End NatureFacts.

Section NatureClaims.
Import Nature.
Variable paper_exists : string → bool.
Variable non_ai_set : gset (string * string).
Variables (journal_name article_type : string).



Lemma crawl_collects_window start_date end_date s :
  reverse_chronological s → fetch_fails s = false →
  card_infos (crawl_stream start_date end_date paper_exists non_ai_set
                journal_name article_type s init)
  = info_of_card journal_name article_type
    <$> List.filter (kept start_date end_date paper_exists non_ai_set) (concat (pages s)).
Proof.
  intros Hrc Hok. rewrite crawl_card_infos. simpl.
  rewrite visited_has_all_kept by done. f_equal.
  destruct Hrc as [Hdated _].
  induction (concat (pages s)) as [|c l IH]; simpl; [done|].
  apply Forall_cons in Hdated as [[-> _] Hl]. simpl. by rewrite IH.
Qed.

(** For a dated card, [kept] is the two inclusive comparisons with the
    window's bounds and the three tests that follow them. *)
Lemma kept_dated (start_date end_date : Z) card d :
  pub_date card = Some d →
  kept (Some start_date) (Some end_date) paper_exists non_ai_set card
  = bool_decide (start_date ≤ d ≤ end_date)
    && negb (fetch_raises card)
    && negb (paper_exists (PyStr.last_segment (c_link card)))
    && bool_decide ((c_title card, c_link card) ∉ non_ai_set).
Proof.
  intros Hd. unfold kept, too_old, too_new. rewrite Hd.
  assert (negb (d <? start_date) && negb (end_date <? d)
          = bool_decide (start_date ≤ d ≤ end_date)) as ->.
  { case_bool_decide as Hin.
    - apply andb_true_iff. rewrite !negb_true_iff, !Z.ltb_ge. lia.
    - apply andb_false_iff. rewrite !negb_false_iff, !Z.ltb_lt. lia. }
  do 3 f_equal. by rewrite bool_decide_not.
Qed.


(** C10.  A card without a parsed date goes through the date filter
    untouched: what the loop body does with it is the same for every window,
    and on any visited page it becomes a candidate unless its article page
    cannot be fetched or it is already stored or archived as non-relevant.  A
    dated card that passes those same tests becomes a candidate exactly when
    its date is inside the window, bounds included: only dated cards are
    compared with the window. *)
Theorem undated_card_bypasses_window start_date end_date card :
  has_title card = true →
  pub_date card = None →
  (∀ st start_date' end_date',
     process_card start_date end_date paper_exists non_ai_set journal_name article_type st card
     = process_card start_date' end_date' paper_exists non_ai_set journal_name article_type st card)
  ∧ (∀ s, card ∈ concat (visited start_date end_date paper_exists non_ai_set
                           journal_name article_type s init) →
       fetch_raises card = false →
       paper_exists (PyStr.last_segment (c_link card)) = false →
       (c_title card, c_link card) ∉ non_ai_set →
       {| title := c_title card; url := c_link card; abstract := c_abstract card;
          date := None; doi := PyStr.last_segment (c_link card);
          type_ := article_type; journal := journal_name; authors := c_authors card |}
       ∈ card_infos (crawl_stream start_date end_date paper_exists non_ai_set
                       journal_name article_type s init))
  ∧ (∀ st card' d window_start window_end,
       has_title card' = true →
       pub_date card' = Some d →
       fetch_raises card' = false →
       paper_exists (PyStr.last_segment (c_link card')) = false →
       (c_title card', c_link card') ∉ non_ai_set →
       card_infos (process_card (Some window_start) (Some window_end) paper_exists
                     non_ai_set journal_name article_type st card')
       = if bool_decide (window_start ≤ d ≤ window_end)
         then card_infos st ++ [info_of_card journal_name article_type card']
         else card_infos st).
Proof.
  intros Htitle Hdate. split_and!.
  - intros st s' e'. unfold process_card, kept. by rewrite Htitle, Hdate.
  - intros s Hvisited Hfetch Hnew Harch. rewrite crawl_card_infos. simpl.
    apply list_elem_of_fmap. exists card. split.
    { unfold info_of_card. by rewrite Hdate. }
    apply list_elem_of_In, List.filter_In. split; [by apply list_elem_of_In|].
    unfold kept. rewrite Htitle, Hdate, Hfetch, Hnew. simpl.
    by rewrite bool_decide_eq_false_2.
  - intros st card' d window_start window_end Ht Hd Hfetch Hnew Harch.
    unfold process_card. rewrite Ht. cbn [negb card_infos].
    rewrite (kept_dated _ _ _ d Hd), Hfetch, Hnew.
    rewrite (bool_decide_eq_true_2 _ Harch), !andb_true_r.
    by case_bool_decide.
Qed.

End NatureClaims.

(** What [scrape_journal] returns is sorted newest first: the opposite order
    of the one the incremental orchestrator saves in. *)
Lemma final_sort_newest_first articles sorted :
  Nature.final_sort articles = Some sorted →
  sorted ≡ₚ articles
  ∧ (Forall (λ x, is_Some (Nature.date x)) articles → Sorted Nature.newest_first sorted).
Proof.
  unfold Nature.final_sort. intros Hsort.
  destruct (bool_decide (Exists (λ x, Nature.date x = None) articles)
            && bool_decide (Exists (λ x, is_Some (Nature.date x)) articles)); [done|].
  injection Hsort as <-. split; [apply sort_by_perm|].
  intros Hdated.
  apply (Sorted_strengthen
           (λ x y, - default 0 (Nature.date x) ≤ - default 0 (Nature.date y))
           _ (λ x, is_Some (Nature.date x))).
  - intros x y [a Ha] [b Hb]. unfold Nature.newest_first. rewrite Ha, Hb. simpl. lia.
  - by rewrite sort_by_perm.
  - apply sort_by_sorted.
Qed.

(** The pagination example of the specification, however the five cards are
    cut into pages: the items dated 10, 9 and 8 are returned, and no page is
    requested beyond the one that shows the card dated 5. *)
Lemma pagination_example s :
  Nature.fetch_fails s = false →
  concat (Nature.pages s) = Examples.card_dated <$> [10; 9; 8; 5; 1] →
  Nature.date <$> Nature.card_infos (Examples.crawl_example s)
  = [Some 10; Some 9; Some 8]
  ∧ ∀ i page, Nature.pages s !! i = Some page → Examples.card_dated 5 ∈ page →
      (Nature.pages_requested (Examples.crawl_example s) ≤ i + 1)%nat.
Proof.
  intros Hok Hcards.
  assert (Nature.reverse_chronological s) as Hrc.
  { unfold Nature.reverse_chronological. rewrite Hcards. split.
    - repeat constructor; by eexists.
    - repeat (constructor; try (by vm_compute)). }
  split.
  - unfold Examples.crawl_example. rewrite crawl_collects_window by done.
    rewrite Hcards. vm_compute. reflexivity.
  - intros i page Hpage Hc.
    by apply (crawl_stops_after_old_card _ _ _ _ _ _ s Nature.init i page
                (Examples.card_dated 5) 5).
Qed.



(** Witness for [undated_card_bypasses_window]: an undated card on the first
    page of a listing is collected although the window is empty. *)
Lemma undated_card_bypasses_window_witness :
  Nature.pub_date Examples.undated_card = None
  ∧ Nature.info_of_card "Nature" "research-articles" Examples.undated_card
    ∈ Nature.card_infos
        (Nature.crawl_stream (Some 11) (Some 6) (λ _, false) ∅ "Nature" "research-articles"
           (Nature.LastPage [Examples.card_dated 10; Examples.undated_card]) Nature.init).
Proof.
  split; [reflexivity|].
  destruct (undated_card_bypasses_window (λ _, false) ∅ "Nature" "research-articles"
              (Some 11) (Some 6) Examples.undated_card eq_refl eq_refl)
    as (_ & Hcollected & _).
  apply Hcollected; [|reflexivity|reflexivity|apply not_elem_of_empty].
  simpl. apply elem_of_cons. right. apply elem_of_cons. by left.
Defined.

(** ** The relaxed fallback *)
Section RelaxedFacts.
Import Relaxed.

Lemma insert_by_fmap {A B} (key : B → Z) (g : A → B) x l :
  PySort.insert_by key (g x) (g <$> l) = g <$> PySort.insert_by (key ∘ g) x l.
Proof.
  induction l as [|y l IH]; [done|].
  rewrite fmap_cons. cbn [PySort.insert_by compose].
  destruct (key (g y) <? key (g x)); [|done]. by rewrite IH.
Qed.

(** Sorting records built from the entries is sorting the entries by the
    key of their record. *)
Lemma sort_by_fmap {A B} (key : B → Z) (g : A → B) l :
  PySort.sort_by key (g <$> l) = g <$> PySort.sort_by (key ∘ g) l.
Proof.
  induction l as [|x l IH]; [done|].
  rewrite fmap_cons. unfold PySort.sort_by in *. cbn [foldr].
  rewrite IH. apply insert_by_fmap.
Qed.

Lemma omap_fmap_filter {E} (cand : E → option Dated) (g : E → Dated) (l : list E) :
  (∀ e v, cand e = Some v → g e = v) →
  omap cand l = g <$> filter (λ e, is_Some (cand e)) l.
Proof.
  intros Hg. induction l as [|e l IH]; [done|].
  cbn [omap list_omap]. fold (omap cand l). rewrite filter_cons.
  destruct (cand e) as [v|] eqn:He.
  - rewrite decide_True by done. rewrite fmap_cons, (Hg e v He). by rewrite IH.
  - rewrite decide_False by (by intros [? ?]). done.
Qed.

(** The fallback in terms of the entries of the page: it returns the links
    of at most two entries that have a candidate, and none of the entries it
    leaves out is nearer to the centre than one it returns. *)
Lemma nearest_two_of_entries {E} (cand : E → option Dated) (proj : E → IssueLink)
    (l : list E) :
  (∀ e v, cand e = Some v → link_of v = proj e) →
  ∃ chosen rest : list E,
    chosen ++ rest ≡ₚ filter (λ e, is_Some (cand e)) l
    ∧ nearest_two (omap cand l) = proj <$> chosen
    ∧ length chosen = (length (filter (λ e, is_Some (cand e)) l) `min` 2)%nat
    ∧ ∀ c r vc vr, c ∈ chosen → r ∈ rest → cand c = Some vc → cand r = Some vr →
        d_distance vc ≤ d_distance vr.
Proof.
  intros Hproj.
  set (g := λ e, default {| d_url := String.EmptyString; d_title := String.EmptyString;
                            d_date := 0; d_distance := 0 |} (cand e)).
  assert (∀ e v, cand e = Some v → g e = v) as Hg.
  { intros e v He. unfold g. by rewrite He. }
  set (entries := filter (λ e, is_Some (cand e)) l).
  set (sorted := PySort.sort_by (d_distance ∘ g) entries).
  assert (sorted ≡ₚ entries) as Hperm by apply sort_by_perm.
  exists (take 2 sorted), (drop 2 sorted). split_and!.
  - by rewrite take_drop.
  - unfold nearest_two. rewrite (omap_fmap_filter cand g l Hg). fold entries.
    rewrite sort_by_fmap. fold sorted. rewrite <-fmap_take, <-list_fmap_compose.
    apply Forall_fmap_ext, Forall_forall. intros e He.
    assert (e ∈ entries) as Hin.
    { rewrite <-Hperm, <-(take_drop 2 sorted), elem_of_app. by left. }
    unfold entries in Hin. apply list_elem_of_filter in Hin as [[v Hv] _].
    cbn [compose]. rewrite (Hg e v Hv). by apply Hproj.
  - rewrite length_take. unfold sorted. rewrite sort_by_length. lia.
  - intros c r vc vr Hc Hr Hvc Hvr.
    pose proof (sort_by_sorted (d_distance ∘ g) entries) as Hs. fold sorted in Hs.
    assert (Transitive (λ x y : E, (d_distance ∘ g) x ≤ (d_distance ∘ g) y)) as Htrans.
    { intros x y z. cbn [compose]. lia. }
    apply (@Sorted_StronglySorted _ _ Htrans) in Hs.
    rewrite <-(take_drop 2 sorted) in Hs.
    apply StronglySorted_app in Hs as (Hcross & _ & _).
    specialize (Hcross c r Hc Hr). cbn [compose] in Hcross.
    by rewrite (Hg c vc Hvc), (Hg r vr Hvr) in Hcross.
Qed.

Lemma science_candidate_Some start_date end_date e :
  is_Some (science_candidate start_date end_date e)
  ↔ is_Some (cover_date_text e) ∧ is_Some (parsed_date e)
    ∧ is_Some (toc_href e) ∧ toc_href e ≠ Some String.EmptyString.
Proof.
  unfold science_candidate.
  destruct (cover_date_text e), (parsed_date e), (toc_href e) as [h|];
    try (split; [by intros [? ?]|]; intros (H1 & H2 & H3 & _);
         by (destruct H1 || destruct H2 || destruct H3)).
  destruct (String.eqb_spec h String.EmptyString) as [->|Hne].
  - split; [by intros [? ?]|]. by intros (_ & _ & _ & ?).
  - split; [|by eexists]. intros _. split_and!; try by eexists. congruence.
Qed.

Lemma science_candidate_fields start_date end_date e v :
  science_candidate start_date end_date e = Some v →
  parsed_date e = Some (d_date v)
  ∧ d_distance v = Z.abs (d_date v - (start_date + (end_date - start_date) / 2))
  ∧ link_of v
    = {| i_url := toc_url e;
         i_title := default ("Volume (Date: " +:+ default String.EmptyString (cover_date_text e)
                             +:+ ")") (title_text e) |}.
Proof.
  unfold science_candidate.
  destruct (cover_date_text e), (parsed_date e), (toc_href e) as [h|]; try done.
  destruct (String.eqb h _); [done|]. by intros [= <-].
Qed.

(** The strict pass of a year page finds nothing exactly when no element
    with a cover date and a link is dated inside the window. *)
Lemma science_strict_empty start_date end_date volume_elements :
  Forall (λ e, ∀ d, is_Some (cover_date_text e) → parsed_date e = Some d →
                    is_Some (toc_href e) → ¬ (start_date ≤ d ≤ end_date))
         volume_elements →
  omap (science_strict start_date end_date) volume_elements = [].
Proof.
  induction 1 as [|e l He _ IH]; [done|].
  cbn [omap list_omap]. fold (omap (science_strict start_date end_date) l). rewrite IH.
  unfold science_strict, is_date_in_range.
  destruct (cover_date_text e), (parsed_date e) as [d|], (toc_href e); try done.
  destruct ((start_date <=? d) && (d <=? end_date)) eqn:Hin; [|done].
  exfalso. apply andb_true_iff in Hin as [H1%Z.leb_le H2%Z.leb_le].
  apply (He d); [by eexists|done|by eexists|lia].
Qed.

Lemma first_parsed_issue_date link d :
  first_parsed (spans link) = Some d ↔ issue_date_is link d.
Proof.
  unfold issue_date_is. generalize (spans link). intros l. split.
  - induction l as [|s l IH]; [done|]. cbn [first_parsed].
    destruct (span_date s) as [| | |d'] eqn:Hs;
      try (intros (before & s' & after & -> & Hd & Hb)%IH;
           exists (s :: before), s', after; split_and!; [done..|];
           constructor; [congruence|done]).
    intros [= ->]. exists [], s, l. split_and!; [done..|constructor].
  - intros (before & s & after & -> & Hd & Hb).
    induction Hb as [|s' before Hs' _ IH]; cbn [app first_parsed].
    + by rewrite Hd.
    + destruct (span_date s') as [| | |d'] eqn:Heq; try done. by destruct (Hs' d').
Qed.

Lemma should_include_first_parsed start_date end_date l :
  should_include start_date end_date l
  = match first_parsed l with
    | Some d => bool_decide (start_date ≤ d ≤ end_date)
    | None => true
    end.
Proof.
  induction l as [|s l IH]; [done|]. cbn [should_include first_parsed].
  destruct (span_date s) as [| | |d]; try done.
  case_bool_decide as Hin.
  - apply andb_true_iff. rewrite !negb_true_iff, !Z.ltb_ge. lia.
  - apply andb_false_iff. rewrite !negb_false_iff, !Z.ltb_lt. lia.
Qed.

Lemma usable_spec link :
  usable link = true ↔ href link ≠ String.EmptyString ∧ spans link ≠ [].
Proof.
  unfold usable. rewrite andb_true_iff, !negb_true_iff, bool_decide_eq_false.
  by rewrite String.eqb_neq.
Qed.

(** The strict pass of an archive page finds nothing exactly when every
    link with an address and spans shows a date, and that date is outside
    the window. *)
Lemma cell_strict_empty start_date end_date all_found_links :
  Forall (λ link, href link ≠ String.EmptyString → spans link ≠ [] →
                  ∃ d, issue_date_is link d ∧ ¬ (start_date ≤ d ≤ end_date))
         all_found_links →
  omap (cell_strict start_date end_date) all_found_links = [].
Proof.
  induction 1 as [|link l Hlink _ IH]; [done|].
  cbn [omap list_omap]. fold (omap (cell_strict start_date end_date) l). rewrite IH.
  unfold cell_strict. destruct (usable link) eqn:Hu; [|done].
  apply usable_spec in Hu as [Hh Hs].
  destruct (Hlink Hh Hs) as (d & Hd%first_parsed_issue_date & Hout).
  rewrite should_include_first_parsed, Hd. by rewrite bool_decide_eq_false_2.
Qed.

Lemma cell_candidate_fields start_date end_date link v :
  cell_candidate start_date end_date link = Some v →
  issue_date_is link (d_date v)
  ∧ d_distance v = Z.abs (d_date v - (start_date + (end_date - start_date) / 2))
  ∧ link_of v
    = {| i_url := href link; i_title := PyStr.join " " (span_text <$> spans link) |}.
Proof.
  unfold cell_candidate. destruct (usable link); [|done].
  destruct (first_parsed (spans link)) as [d|] eqn:Hd; [|done].
  intros [= <-]. split; [by apply first_parsed_issue_date|done].
Qed.

Lemma issue_date_is_unique link d d' :
  issue_date_is link d → issue_date_is link d' → d = d'.
Proof. rewrite <-!first_parsed_issue_date. congruence. Qed.

Lemma science_volumes_app pages pages' start_date end_date :
  science_volumes (pages ++ pages') start_date end_date
  = science_volumes pages start_date end_date ++ science_volumes pages' start_date end_date.
Proof. unfold science_volumes. by rewrite fmap_app, concat_app. Qed.

(** C5, as amended.  The fallback works page by page.  On a year page of the
    Science archive whose strict pass finds nothing, the crawl takes from
    that page the entries the relaxed fallback returns: at most two of the
    page's entries that have a cover date, a parsed date and a link, such
    that no such entry left out is nearer (in days) to the centre of the
    window, [start_date + (end_date - start_date) / 2], than one returned;
    the other year pages of the crawl contribute their own volumes.  The same
    holds for the archive page of a Cell journal and its links that have an
    address and spans. *)
Theorem relaxed_fallback_returns_two_nearest (start_date end_date : Z) :
  let centre := start_date + (end_date - start_date) / 2 in
  (∀ pages_before volume_elements pages_after,
     Forall (λ e, ∀ d, is_Some (cover_date_text e) → parsed_date e = Some d →
                       is_Some (toc_href e) → ¬ (start_date ≤ d ≤ end_date))
            volume_elements →
     let dated := filter (λ e, is_Some (cover_date_text e) ∧ is_Some (parsed_date e)
                               ∧ is_Some (toc_href e)
                               ∧ toc_href e ≠ Some String.EmptyString)
                         volume_elements in
     ∃ chosen rest,
       chosen ++ rest ≡ₚ dated
       ∧ length chosen = (length dated `min` 2)%nat
       ∧ science_volumes (pages_before ++ volume_elements :: pages_after) start_date end_date
         = science_volumes pages_before start_date end_date
           ++ ((λ e, {| i_url := toc_url e;
                        i_title := default ("Volume (Date: "
                                            +:+ default String.EmptyString (cover_date_text e)
                                            +:+ ")") (title_text e) |}) <$> chosen)
           ++ science_volumes pages_after start_date end_date
       ∧ ∀ c r dc dr, c ∈ chosen → r ∈ rest →
           parsed_date c = Some dc → parsed_date r = Some dr →
           Z.abs (dc - centre) ≤ Z.abs (dr - centre))
  ∧ (∀ all_found_links,
     all_found_links ≠ [] →
     Forall (λ link, href link ≠ String.EmptyString → spans link ≠ [] →
                     ∃ d, issue_date_is link d ∧ ¬ (start_date ≤ d ≤ end_date))
            all_found_links →
     let dated := filter (λ link, href link ≠ String.EmptyString ∧ spans link ≠ [])
                         all_found_links in
     ∃ chosen rest,
       chosen ++ rest ≡ₚ dated
       ∧ length chosen = (length dated `min` 2)%nat
       ∧ extract_volume_issue_links all_found_links start_date end_date
         = (λ link, {| i_url := href link;
                       i_title := PyStr.join " " (span_text <$> spans link) |}) <$> chosen
       ∧ ∀ c r dc dr, c ∈ chosen → r ∈ rest →
           issue_date_is c dc → issue_date_is r dr →
           Z.abs (dc - centre) ≤ Z.abs (dr - centre)).
Proof.
  intros centre. split.
  - intros pages_before volume_elements pages_after Hstrict dated.
    destruct (nearest_two_of_entries (science_candidate start_date end_date)
                (λ e, {| i_url := toc_url e;
                         i_title := default ("Volume (Date: "
                                             +:+ default String.EmptyString (cover_date_text e)
                                             +:+ ")") (title_text e) |})
                volume_elements)
      as (chosen & rest & Hperm & Hres & Hlen & Hnear).
    { intros e v Hv. by apply science_candidate_fields in Hv as (_ & _ & ?). }
    assert (filter (λ e, is_Some (science_candidate start_date end_date e)) volume_elements
            = dated) as Heq.
    { apply list_filter_iff. intros e. apply science_candidate_Some. }
    rewrite Heq in Hperm, Hlen.
    exists chosen, rest. split_and!; [done..| |].
    + rewrite science_volumes_app. f_equal.
      change (volume_elements :: pages_after) with ([volume_elements] ++ pages_after).
      rewrite science_volumes_app. f_equal.
      unfold science_volumes. rewrite list_fmap_singleton. cbn [concat]. rewrite app_nil_r.
      unfold get_science_year_volumes.
      rewrite (science_strict_empty _ _ _ Hstrict). exact Hres.
    + intros c r dc dr Hc Hr Hdc Hdr.
      assert (∀ e, e ∈ chosen ++ rest →
                ∃ v, science_candidate start_date end_date e = Some v) as Hcand.
      { intros e He. rewrite Hperm, <-Heq in He.
        by apply list_elem_of_filter in He as [? _]. }
      destruct (Hcand c) as [vc Hvc]; [rewrite elem_of_app; auto|].
      destruct (Hcand r) as [vr Hvr]; [rewrite elem_of_app; auto|].
      specialize (Hnear c r vc vr Hc Hr Hvc Hvr).
      apply science_candidate_fields in Hvc as (Hc1 & Hc2 & _).
      apply science_candidate_fields in Hvr as (Hr1 & Hr2 & _).
      rewrite Hc2, Hr2 in Hnear. by simplify_eq.
  - intros all_found_links Hne Hstrict dated.
    destruct (nearest_two_of_entries (cell_candidate start_date end_date)
                (λ link, {| i_url := href link;
                            i_title := PyStr.join " " (span_text <$> spans link) |})
                all_found_links)
      as (chosen & rest & Hperm & Hres & Hlen & Hnear).
    { intros e v Hv. by apply cell_candidate_fields in Hv as (_ & _ & ?). }
    assert (filter (λ e, is_Some (cell_candidate start_date end_date e)) all_found_links
            = dated) as Heq.
    { subst dated. clear -Hstrict.
      induction Hstrict as [|link l Hlink _ IH]; [done|].
      rewrite !filter_cons, IH. unfold cell_candidate.
      destruct (usable link) eqn:Hu.
      - apply usable_spec in Hu as [Hh Hs].
        destruct (Hlink Hh Hs) as (d & Hd%first_parsed_issue_date & _). rewrite Hd.
        rewrite !decide_True; [done|done|by eexists].
      - rewrite !decide_False; [done| |by intros [? ?]].
        intros Hu'%usable_spec. congruence. }
    rewrite Heq in Hperm, Hlen.
    exists chosen, rest. split_and!; [done..| |].
    + unfold extract_volume_issue_links.
      rewrite (cell_strict_empty _ _ _ Hstrict). cbn [length app].
      rewrite bool_decide_eq_true_2 by done.
      rewrite bool_decide_eq_false_2 by done. exact Hres.
    + intros c r dc dr Hc Hr Hdc Hdr.
      assert (∀ e, e ∈ chosen ++ rest →
                ∃ v, cell_candidate start_date end_date e = Some v) as Hcand.
      { intros e He. rewrite Hperm, <-Heq in He.
        by apply list_elem_of_filter in He as [? _]. }
      destruct (Hcand c) as [vc Hvc]; [rewrite elem_of_app; auto|].
      destruct (Hcand r) as [vr Hvr]; [rewrite elem_of_app; auto|].
      specialize (Hnear c r vc vr Hc Hr Hvc Hvr).
      apply cell_candidate_fields in Hvc as (Hc1 & Hc2 & _).
      apply cell_candidate_fields in Hvr as (Hr1 & Hr2 & _).
      rewrite Hc2, Hr2 in Hnear.
      by rewrite (issue_date_is_unique c dc _ Hdc Hc1),
                 (issue_date_is_unique r dr _ Hdr Hr1).
Qed.

End RelaxedFacts.

(** The relaxed-fallback example of the specification: both issues are
    returned, the one 12 days from the centre before the one 45 days from
    it. *)
Lemma relaxed_fallback_example :
  Relaxed.i_title <$> Relaxed.extract_volume_issue_links Examples.sparse_archive 737425 737426
  = ["Issue December 20, 2019 December 20, 2019";
     "Issue February 15, 2020 February 15, 2020"]
  ∧ Relaxed.i_url <$> Relaxed.get_science_year_volumes Examples.sparse_year 737425 737426
    = ["https://www.science.org/toc/science/20 December";
       "https://www.science.org/toc/science/15 February"].
Proof. vm_compute. done. Qed.

(** C5, as stated, fails for a Science crawl whose window, 2019-12-30 to
    2020-01-02, spans two years: neither year page shows a volume inside the
    window, each contributes its own two nearest volumes, and the crawl
    scrapes four volumes, among them the one of 2019-12-20, which is farther
    from the centre of the window than the one of 2020-01-03. *)
Lemma science_crawl_falls_back_on_each_year_page :
  omap (Relaxed.science_strict 737423 737426) Examples.year_2019 = []
  ∧ omap (Relaxed.science_strict 737423 737426) Examples.year_2020 = []
  ∧ Relaxed.i_url
    <$> Relaxed.science_volumes [Examples.year_2019; Examples.year_2020] 737423 737426
    = ["https://www.science.org/toc/science/27 December";
       "https://www.science.org/toc/science/20 December";
       "https://www.science.org/toc/science/3 January";
       "https://www.science.org/toc/science/10 January"]
  ∧ ¬ (length (Relaxed.science_volumes [Examples.year_2019; Examples.year_2020]
                 737423 737426) ≤ 2)%nat.
Proof. vm_compute. split_and!; try done. lia. Qed.

(** Witness for [relaxed_fallback_returns_two_nearest]: the example's year
    page, alone in its crawl, and the example's archive page; the strict
    pass finds nothing on either, and both entries of each are returned. *)
Lemma relaxed_fallback_returns_two_nearest_witness :
  length (Relaxed.science_volumes [Examples.sparse_year] 737425 737426) = 2%nat
  ∧ length (Relaxed.extract_volume_issue_links Examples.sparse_archive 737425 737426)
    = 2%nat.
Proof.
  destruct (relaxed_fallback_returns_two_nearest 737425 737426) as [Hscience Hcell].
  split.
  - destruct (Hscience [] Examples.sparse_year []) as (chosen & rest & _ & Hlen & Hres & _).
    { repeat constructor; intros d _ [= <-] _; lia. }
    change ([] ++ [Examples.sparse_year]) with [Examples.sparse_year] in Hres.
    rewrite Hres. cbn [Relaxed.science_volumes fmap list_fmap concat app].
    rewrite app_nil_r, length_fmap. exact Hlen.
  - destruct (Hcell Examples.sparse_archive) as (chosen & rest & _ & Hlen & Hres & _).
    { discriminate. }
    { repeat constructor; intros _ _.
      - exists 737470. split; [|lia].
        eexists [_], _, []. split_and!; [reflexivity|reflexivity|].
        repeat constructor. intros d'. discriminate.
      - exists 737413. split; [|lia].
        eexists [_], _, []. split_and!; [reflexivity|reflexivity|].
        repeat constructor. intros d'. discriminate. }
    rewrite Hres, length_fmap. exact Hlen.
Defined.

(** ** The failure registry *)
Section FailedJournalsFacts.
Import FailedJournals.

Lemma named_true name record : named name record = true ↔ journal_name record = name.
Proof. unfold named. apply String.eqb_eq. Qed.

Lemma named_false name record : named name record = false ↔ journal_name record ≠ name.
Proof. unfold named. apply String.eqb_neq. Qed.

Lemma filter_all {A} (f : A → bool) l :
  ¬ (length (List.filter f l) < length l)%nat → List.filter f l = l.
Proof.
  induction l as [|x l IH]; simpl; [done|].
  destruct (f x); simpl; intros Hlen.
  - f_equal. apply IH. lia.
  - pose proof (List.filter_length_le f l). lia.
Qed.

Lemma remove_successful_journal_filter failed_journals name :
  remove_successful_journal failed_journals name
  = List.filter (λ journal, negb (named name journal)) failed_journals.
Proof.
  unfold remove_successful_journal. case_bool_decide as Hlen; [done|].
  symmetry. by apply filter_all.
Qed.

(** [update_first] changes the first record of the name and nothing else. *)
Lemma update_first_present name f failed_journals :
  (∃ record, record ∈ failed_journals ∧ journal_name record = name) →
  ∃ before record after,
    failed_journals = before ++ record :: after
    ∧ Forall (λ r, journal_name r ≠ name) before
    ∧ journal_name record = name
    ∧ update_first name f failed_journals = before ++ f record :: after.
Proof.
  induction failed_journals as [|r l IH]; intros (record & Hin & Hname).
  - by apply elem_of_nil in Hin.
  - simpl. destruct (named name r) eqn:Hr.
    + exists [], r, l. apply named_true in Hr. by split_and!.
    + apply named_false in Hr.
      apply elem_of_cons in Hin as [->|Hin]; [done|].
      destruct IH as (before & r' & after & -> & Hbefore & Hr' & Hupd); [eauto|].
      exists (r :: before), r', after. rewrite Hupd. split_and!; try done.
      by constructor.
Qed.

Lemma update_first_others name f failed_journals :
  (∀ r, journal_name (f r) = journal_name r) →
  List.filter (λ journal, negb (named name journal)) (update_first name f failed_journals)
  = List.filter (λ journal, negb (named name journal)) failed_journals.
Proof.
  intros Hf. induction failed_journals as [|r l IH]; simpl; [done|].
  destruct (named name r) eqn:Hr; simpl.
  - unfold named in *. by rewrite Hf, Hr.
  - by rewrite Hr, IH.
Qed.

(** C9.  For a sub-journal that has a record in the registry:
    [remove_successful_journal] leaves no record of it and keeps the records
    of all other sub-journals, in order; [update_retry_info] adds one to the
    [retry_count] of its (first) record, sets [last_retry] to the current
    time, and leaves every other record, and the record's other fields, as
    they were; and an iteration of the retry pass that retrieves articles
    ends with the record removed, one that retrieves none ends with the
    record present and its [retry_count] incremented. *)
Theorem failure_registry_lifecycle failed_journals name now :
  (∃ record, record ∈ failed_journals ∧ journal_name record = name) →
  let others := List.filter (λ journal, negb (named name journal)) in
  (* a successful retry *)
  ((∀ record, record ∈ remove_successful_journal failed_journals name →
              journal_name record ≠ name)
   ∧ remove_successful_journal failed_journals name = others failed_journals)
  (* an unsuccessful retry *)
  ∧ (∃ before record after,
       failed_journals = before ++ record :: after
       ∧ Forall (λ r, journal_name r ≠ name) before
       ∧ journal_name record = name
       ∧ update_retry_info failed_journals name now
         = before ++ {| journal_name := name; url := url record; reason := reason record;
                        failed_time := failed_time record;
                        retry_count := retry_count record + 1;
                        last_retry := Some now |} :: after)
  ∧ others (update_retry_info failed_journals name now) = others failed_journals
  (* one iteration of the retry pass *)
  ∧ (∀ journal_record articles, journal_name journal_record = name →
       let after_retry := retry_journal failed_journals journal_record articles now in
       (articles ≠ [] →
          (∀ record, record ∈ after_retry → journal_name record ≠ name)
          ∧ after_retry = others failed_journals)
       ∧ (articles = [] → after_retry = update_retry_info failed_journals name now)).
Proof.
  intros Hpresent others.
  assert (∀ l record, record ∈ others l → journal_name record ≠ name) as Hgone.
  { intros l record Hin. apply list_elem_of_In, List.filter_In in Hin as [_ Hin].
    apply negb_true_iff in Hin. by apply named_false. }
  split_and!.
  - intros record. rewrite remove_successful_journal_filter. apply Hgone.
  - apply remove_successful_journal_filter.
  - destruct (update_first_present name (touch now) failed_journals Hpresent)
      as (before & record & after & Hl & Hbefore & Hname & Hupd).
    exists before, record, after. split_and!; try done.
    unfold update_retry_info. rewrite Hupd. unfold touch. by rewrite Hname.
  - by apply update_first_others.
  - intros journal_record articles Hrec after_retry. subst after_retry.
    unfold retry_journal. rewrite Hrec. split.
    + intros Hsome. destruct articles as [|a articles]; [done|].
      rewrite remove_successful_journal_filter. unfold update_retry_info.
      rewrite (update_first_others name (touch now)) by done.
      split; [apply Hgone|done].
    + by intros ->.
Qed.

End FailedJournalsFacts.

(** Witness for [failure_registry_lifecycle]: the sub-journal "cell" in a
    registry of two. *)
Lemma failure_registry_lifecycle_witness :
  Examples.failed "cell" ∈ Examples.registry
  ∧ FailedJournals.remove_successful_journal Examples.registry "cell"
    = [Examples.failed "neuron"]
  ∧ FailedJournals.retry_count
      <$> FailedJournals.update_retry_info Examples.registry "cell" 1700000500
    = [1; 0].
Proof.
  assert (Examples.failed "cell" ∈ Examples.registry) as Hin by (by left).
  split; [exact Hin|].
  destruct (failure_registry_lifecycle Examples.registry "cell" 1700000500)
    as ((_ & Hremoved) & _ & _ & _).
  { exists (Examples.failed "cell"). split; [exact Hin|reflexivity]. }
  split; [etrans; [exact Hremoved|]; reflexivity|].
  vm_compute. reflexivity.
Defined.

(** ** The fetch *)
Section FetchFacts.
Import Fetch.
Variable w : World.

Lemma get_in_request_events k attempt : Get k ∈ request_events w attempt ↔ k = attempt.
Proof.
  unfold request_events. rewrite elem_of_cons, elem_of_app, list_elem_of_singleton.
  case_bool_decide; rewrite ?elem_of_cons, ?elem_of_nil; (split; [|by auto]);
    intros Hin; repeat (destruct Hin as [Hin|Hin]); by simplify_eq.
Qed.

Lemma get_not_in_failure_events k attempt last : Get k ∉ failure_events w attempt last.
Proof.
  unfold failure_events.
  repeat case_match; try apply not_elem_of_nil;
    intros Hin%list_elem_of_singleton; discriminate.
Qed.

Lemma gets_of_request_events attempt :
  List.filter is_get (request_events w attempt) = [Get attempt].
Proof. unfold request_events. by case_bool_decide. Qed.

Lemma gets_of_failure_events attempt last :
  List.filter is_get (failure_events w attempt last) = [].
Proof. unfold failure_events. by repeat case_match. Qed.

Lemma selenium_not_in_request_events attempt : SeleniumGet ∉ request_events w attempt.
Proof.
  unfold request_events. rewrite elem_of_cons, elem_of_app, list_elem_of_singleton.
  case_bool_decide; rewrite ?list_elem_of_singleton, ?elem_of_nil;
    intros Hin; repeat (destruct Hin as [Hin|Hin]); by simplify_eq.
Qed.

Lemma selenium_not_in_failure_events attempt last :
  SeleniumGet ∉ failure_events w attempt last.
Proof.
  unfold failure_events.
  repeat case_match; try apply not_elem_of_nil;
    intros Hin%list_elem_of_singleton; discriminate.
Qed.

(** One step of the loop, spelled out. *)
Lemma plain_phase_success remaining attempt :
  http w attempt = Status 200 →
  plain_phase w (S remaining) attempt = (request_events w attempt, Some attempt).
Proof. intros Hok. simpl. by rewrite Hok. Qed.

Lemma plain_phase_failure remaining attempt :
  http w attempt ≠ Status 200 →
  plain_phase w (S remaining) attempt
  = (request_events w attempt
       ++ failure_events w attempt (bool_decide (remaining = 0%nat))
       ++ (plain_phase w remaining (S attempt)).1,
     (plain_phase w remaining (S attempt)).2).
Proof.
  intros Hfail. simpl.
  destruct (plain_phase w remaining (S attempt)) as [events r].
  destruct (http w attempt) as [code|]; [|done].
  destruct (decide (code = 200)) as [->|Hne]; [done|].
  repeat case_match; simplify_eq; done.
Qed.

Lemma gets_bound remaining attempt :
  (length (List.filter is_get (plain_phase w remaining attempt).1) ≤ remaining)%nat.
Proof.
  revert attempt. induction remaining as [|remaining IH]; intros attempt; [done|].
  destruct (decide (http w attempt = Status 200)) as [Hok|Hfail].
  - rewrite plain_phase_success by done. cbn [fst snd]. rewrite gets_of_request_events. simpl. lia.
  - rewrite plain_phase_failure by done. cbn [fst snd].
    rewrite !List.filter_app, gets_of_request_events, gets_of_failure_events. simpl.
    specialize (IH (S attempt)). lia.
Qed.


Lemma selenium_not_in_plain_phase remaining attempt :
  SeleniumGet ∉ (plain_phase w remaining attempt).1.
Proof.
  revert attempt. induction remaining as [|remaining IH]; intros attempt.
  - apply not_elem_of_nil.
  - destruct (decide (http w attempt = Status 200)) as [Hok|Hfail].
    + rewrite plain_phase_success by done. apply selenium_not_in_request_events.
    + rewrite plain_phase_failure by done. cbn [fst snd]. rewrite !elem_of_app.
      intros [Hin|[Hin|Hin]].
      * by apply selenium_not_in_request_events in Hin.
      * by apply selenium_not_in_failure_events in Hin.
      * by apply IH in Hin.
Qed.

(** Every request comes right after a fresh choice of the User-Agent and,
    from the second attempt on, the back-off sleep. *)
Lemma request_context remaining attempt k :
  Get k ∈ (plain_phase w remaining attempt).1 →
  ∃ pre post, (plain_phase w remaining attempt).1 = pre ++ request_events w k ++ post.
Proof.
  revert attempt. induction remaining as [|remaining IH]; intros attempt.
  - by intros ?%elem_of_nil.
  - destruct (decide (http w attempt = Status 200)) as [Hok|Hfail].
    + rewrite plain_phase_success by done. cbn [fst snd].
      intros ->%get_in_request_events. exists [], []. by rewrite app_nil_r.
    + rewrite plain_phase_failure by done. cbn [fst snd]. rewrite !elem_of_app.
      intros [->%get_in_request_events|[Hin|Hin]].
      * by exists [], (failure_events w attempt (bool_decide (remaining = 0%nat))
                      ++ (plain_phase w remaining (S attempt)).1).
      * by apply get_not_in_failure_events in Hin.
      * destruct (IH _ Hin) as (pre & post & ->).
        exists (request_events w attempt
                  ++ failure_events w attempt (bool_decide (remaining = 0%nat)) ++ pre), post.
        by rewrite <-!app_assoc.
Qed.



Lemma all_failed remaining attempt :
  (plain_phase w remaining attempt).2 = None →
  ∀ k, (attempt ≤ k < attempt + remaining)%nat →
       Get k ∈ (plain_phase w remaining attempt).1 ∧ http w k ≠ Status 200.
Proof.
  revert attempt. induction remaining as [|remaining IH]; intros attempt Hnone k Hk; [lia|].
  destruct (decide (http w attempt = Status 200)) as [Hok|Hfail].
  - by rewrite plain_phase_success in Hnone.
  - rewrite plain_phase_failure in Hnone |- * by done. cbn [fst snd] in *.
    rewrite !elem_of_app, get_in_request_events.
    destruct (decide (k = attempt)) as [->|Hne]; [auto|].
    destruct (IH (S attempt) Hnone k) as [Hin Hkfail]; [lia|]. auto.
Qed.

Lemma first_success remaining attempt k :
  (plain_phase w remaining attempt).2 = Some k →
  http w k = Status 200 ∧ (attempt ≤ k < attempt + remaining)%nat
  ∧ ∀ j, (attempt ≤ j < k)%nat → http w j ≠ Status 200.
Proof.
  revert attempt. induction remaining as [|remaining IH]; intros attempt; [done|].
  destruct (decide (http w attempt = Status 200)) as [Hok|Hfail].
  - rewrite plain_phase_success by done. cbn [fst snd]. intros [= <-].
    split; [done|]. split; [lia|]. intros j ?. lia.
  - rewrite plain_phase_failure by done. cbn [fst snd]. intros Hsome.
    destruct (IH _ Hsome) as (Hk & Hrange & Hbefore).
    split; [done|]. split; [lia|]. intros j Hj.
    destruct (decide (j = attempt)) as [->|Hne]; [done|]. apply Hbefore. lia.
Qed.



End FetchFacts.

Section FetchClaims.
Import Fetch.


End FetchClaims.

(** [len] counts characters, not bytes: a page of 400 Chinese characters
    takes 1200 bytes and fails the test of line 328. *)
Lemma page_ok_counts_characters :
  String.length Examples.short_page = 1200%nat
  ∧ PyStr.len Examples.short_page = 400%nat
  ∧ Fetch.page_ok Examples.short_page = false.
Proof. vm_compute. done. Qed.




(** ** The persistence boundary: queries after saves *)
Section DBQueries.
Import Consensus DB Orchestrator.

Lemma check_paper_exists_doi_taken table k :
  check_paper_exists table k = doi_taken table k.
Proof.
  unfold check_paper_exists, doi_taken. apply bool_decide_ext.
  rewrite list_elem_of_fmap. split.
  - intros Hlen. destruct (filter _ table) as [|r rest] eqn:Hf; [simpl in Hlen; lia|].
    assert (r ∈ filter (λ r, r_doi r = Some k) table) as Hin by (rewrite Hf; left).
    apply list_elem_of_filter in Hin as [Hr Hin]. eauto.
  - intros (r & Hr & Hin).
    assert (r ∈ filter (λ r, r_doi r = Some k) table) as Hin'
      by (by apply list_elem_of_filter).
    destruct (filter _ table); [by apply elem_of_nil in Hin'|simpl; lia].
Qed.

Lemma doi_value_of_doi paper :
  PyStr.is_blank (doi paper) = false → doi_value paper = Some (doi paper).
Proof. intros Hb. unfold doi_value, clean_empty_string. by rewrite Hb. Qed.

Lemma get_paper_count_app table rows :
  get_paper_count (table ++ rows) = get_paper_count table + get_paper_count rows.
Proof. unfold get_paper_count. rewrite length_app. lia. Qed.

Lemma insert_ignore_cases table row :
  insert_ignore table row = (table, 0) ∨ insert_ignore table row = (table ++ [row], 1).
Proof.
  unfold insert_ignore. destruct (r_doi row) as [k|]; [|auto].
  destruct (doi_taken table k); auto.
Qed.

Lemma save_paper_cases table paper journal_name :
  save_paper table paper journal_name = (table, false)
  ∨ save_paper table paper journal_name
    = (table ++ [row_of_paper paper journal_name], true).
Proof.
  unfold save_paper.
  destruct (insert_ignore_cases table (row_of_paper paper journal_name)) as [-> | ->]; auto.
Qed.

(** X1.  For a paper with a DOI that is not blank, [save_paper] returns
    [True] exactly when [check_paper_exists] answered [False] for that DOI
    before the call; after the call [check_paper_exists] answers [True],
    and [get_paper_count] has grown by one if [True] was returned and not at
    all otherwise. *)
Theorem save_paper_reports_new_doi table paper journal_name :
  PyStr.is_blank (doi paper) = false →
  let table' := (save_paper table paper journal_name).1 in
  let saved := (save_paper table paper journal_name).2 in
  saved = negb (check_paper_exists table (doi paper))
  ∧ check_paper_exists table' (doi paper) = true
  ∧ get_paper_count table' = get_paper_count table + (if saved then 1 else 0).
Proof.
  intros Hb table' saved. subst table' saved.
  rewrite !check_paper_exists_doi_taken.
  unfold save_paper, insert_ignore. simpl. rewrite doi_value_of_doi by done.
  destruct (doi_taken table (doi paper)) eqn:Ht; simpl.
  - split_and!; [done..|lia].
  - split_and!; [done| |by rewrite get_paper_count_app; unfold get_paper_count; simpl; lia].
    unfold doi_taken. apply bool_decide_eq_true. rewrite fmap_app, elem_of_app. right.
    simpl. rewrite doi_value_of_doi by done. left.
Qed.

Lemma save_loop_snoc table journal_name papers paper :
  save_loop table journal_name (papers ++ [paper]) =
    let '(t, n) := save_loop table journal_name papers in
    let '(t', ok) := save_paper t paper journal_name in
    (t', if ok then n + 1 else n).
Proof. unfold save_loop. rewrite foldl_app. simpl. by destruct (foldl _ _ papers). Qed.

Lemma save_loop_grows table journal_name papers :
  table `prefix_of` (save_loop table journal_name papers).1
  ∧ get_paper_count (save_loop table journal_name papers).1
    = get_paper_count table + (save_loop table journal_name papers).2
  ∧ 0 ≤ (save_loop table journal_name papers).2 ≤ Z.of_nat (length papers).
Proof.
  induction papers as [|paper papers IH] using rev_ind; simpl.
  - split_and!; [done|unfold get_paper_count; lia|lia..].
  - rewrite save_loop_snoc. destruct (save_loop table journal_name papers) as [t n].
    simpl in IH. destruct IH as (Hpre & Hcount & Hn).
    rewrite length_app. simpl.
    destruct (save_paper_cases t paper journal_name) as [-> | ->]; simpl.
    + split_and!; [done|done|lia..].
    + split_and!; [by apply prefix_app_r| |lia..].
      rewrite get_paper_count_app. unfold get_paper_count in *. simpl. lia.
Qed.

(** X2.  The loop that hands the relevant papers to [save_paper] only ever
    appends rows: the table it started from is a prefix of the table it
    leaves, [saved_count] is the number of rows added (the growth of
    [get_paper_count]), and it lies between 0 and the number of papers. *)
Theorem save_loop_counts_added_rows table journal_name papers :
  let table' := (save_loop table journal_name papers).1 in
  let saved_count := (save_loop table journal_name papers).2 in
  table `prefix_of` table'
  ∧ get_paper_count table' = get_paper_count table + saved_count
  ∧ 0 ≤ saved_count ≤ Z.of_nat (length papers).
Proof. apply save_loop_grows. Qed.

Lemma max_pub_date_app rows1 rows2 :
  max_pub_date (rows1 ++ rows2) =
    match max_pub_date rows1, max_pub_date rows2 with
    | Some a, Some b => Some (Z.max a b)
    | Some a, None => Some a
    | None, m => m
    end.
Proof.
  induction rows1 as [|r rows1 IH]; simpl.
  - by destruct (max_pub_date rows2).
  - rewrite IH. destruct (r_pub_date r), (max_pub_date rows1), (max_pub_date rows2);
      try done; f_equal; lia.
Qed.

Lemma rows_for_app table rows journal_name :
  rows_for (table ++ rows) journal_name = rows_for table journal_name ++ rows_for rows journal_name.
Proof. unfold rows_for. destruct (String.eqb journal_name ""); [done|]. apply filter_app. Qed.

(** X3.  Once a dated paper has been stored for a sub-journal,
    [get_last_update_time] of that sub-journal (and of the whole table, for
    the empty name) no longer falls back to the one-week default: it returns
    a date that is not earlier than the paper's date, nor earlier than the
    date it returned before the save. *)
Theorem last_update_time_follows_save table paper journal_name for_journal now d :
  date paper = Some d →
  (save_paper table paper journal_name).2 = true →
  for_journal = journal_name ∨ for_journal = "" →
  ∃ m, get_last_update_time (save_paper table paper journal_name).1 for_journal now = PDate m
       ∧ d ≤ m
       ∧ ∀ m0, get_last_update_time table for_journal now = PDate m0 → m0 ≤ m.
Proof.
  intros Hd Hsaved Hfor.
  destruct (save_paper_cases table paper journal_name) as [Heq|Heq];
    rewrite Heq in Hsaved |- *; [done|]. simpl.
  unfold get_last_update_time. rewrite rows_for_app, max_pub_date_app.
  assert (max_pub_date (rows_for [row_of_paper paper journal_name] for_journal) = Some d)
    as ->.
  { unfold rows_for. destruct (String.eqb for_journal "") eqn:He.
    - simpl. by rewrite Hd.
    - destruct Hfor as [-> | ->]; [|done].
      rewrite filter_cons, decide_True by done. simpl. by rewrite Hd. }
  destruct (max_pub_date (rows_for table for_journal)) as [m0|].
  - exists (Z.max m0 d). split_and!; [done|lia|]. intros ? [= <-]. lia.
  - exists d. split_and!; [done|lia|]. intros ??. done.
Qed.

End DBQueries.


(** Witness for [save_paper_reports_new_doi]: a new DOI stored in the example
    table. *)
Lemma save_paper_reports_new_doi_witness :
  PyStr.is_blank (Consensus.doi Examples.item_with_doi) = false
  ∧ (DB.save_paper Examples.some_table Examples.item_with_doi "Nature Physics").2 = true
  ∧ DB.check_paper_exists
      (DB.save_paper Examples.some_table Examples.item_with_doi "Nature Physics").1
      "10.1/new" = true.
Proof.
  assert (PyStr.is_blank (Consensus.doi Examples.item_with_doi) = false) as Hb
    by reflexivity.
  split; [exact Hb|].
  destruct (save_paper_reports_new_doi Examples.some_table Examples.item_with_doi
              "Nature Physics" Hb) as (Hsaved & Hexists & _).
  split; [|exact Hexists].
  etrans; [exact Hsaved|]. vm_compute. reflexivity.
Defined.

(** Witness for [last_update_time_follows_save]: the same save moves the
    sub-journal's last update from day 738050 to day 738200. *)
Lemma last_update_time_follows_save_witness :
  Consensus.date Examples.item_with_doi = Some 738200
  ∧ ∃ m, DB.get_last_update_time
           (DB.save_paper Examples.some_table Examples.item_with_doi "Nature Physics").1
           "Nature Physics" 0 = DB.PDate m
         ∧ 738200 ≤ m.
Proof.
  assert (Consensus.date Examples.item_with_doi = Some 738200) as Hd by reflexivity.
  assert ((DB.save_paper Examples.some_table Examples.item_with_doi "Nature Physics").2
          = true) as Hs by (vm_compute; reflexivity).
  split; [exact Hd|].
  destruct (last_update_time_follows_save Examples.some_table Examples.item_with_doi
              "Nature Physics" "Nature Physics" 0 738200 Hd Hs (or_introl eq_refl))
    as (m & Hm & Hle & _).
  exists m. split; [exact Hm|exact Hle].
Defined.


(** ** The failure registry: recording and statistics *)
Section FailedJournalsRegistry.
Import FailedJournals.

Lemma find_update_first name f l :
  (∀ r, journal_name (f r) = journal_name r) →
  List.find (named name) (update_first name f l) = f <$> List.find (named name) l.
Proof.
  intros Hf. induction l as [|r l IH]; simpl; [done|].
  destruct (named name r) eqn:Hn; simpl.
  - unfold named in *. by rewrite Hf, Hn.
  - by rewrite Hn.
Qed.

Lemma find_existsb name l :
  existsb (named name) l = bool_decide (is_Some (List.find (named name) l)).
Proof.
  induction l as [|r l IH]; simpl; [done|].
  by destruct (named name r).
Qed.

Lemma length_update_first name f l : length (update_first name f l) = length l.
Proof.
  induction l as [|r l IH]; simpl; [done|].
  destruct (named name r); simpl; by rewrite ?IH.
Qed.

Lemma names_update_first name f l :
  (∀ r, journal_name (f r) = journal_name r) →
  journal_name <$> update_first name f l = journal_name <$> l.
Proof.
  intros Hf. induction l as [|r l IH]; [done|]. cbn [update_first].
  destruct (named name r); rewrite !fmap_cons, ?Hf, ?IH; done.
Qed.

Lemma filter_update_first name other f l :
  (∀ r, journal_name (f r) = journal_name r) →
  other ≠ name →
  List.filter (named other) (update_first name f l) = List.filter (named other) l.
Proof.
  intros Hf Hne. induction l as [|r l IH]; simpl; [done|].
  destruct (named name r) eqn:Hn; simpl.
  - apply named_true in Hn.
    assert (named other (f r) = false) as ->
      by (apply named_false; rewrite Hf; congruence).
    assert (named other r = false) as -> by (apply named_false; congruence).
    done.
  - rewrite IH. done.
Qed.

Lemma find_app_None name l l' :
  List.find (named name) l = None →
  List.find (named name) (l ++ l') = List.find (named name) l'.
Proof.
  induction l as [|r l IH]; simpl; [done|]. destruct (named name r); [done|apply IH].
Qed.

(** X4.  [add_failed_journal] keeps one record per journal.  If the journal
    has no record yet, a record with retry count 0 and no last retry is
    appended.  If it has one, the list keeps its length and the journal's
    first record gets the new reason and failure time and a retry count
    higher by one, while its URL and its last-retry time stay as they were
    (the URL passed in is not stored).  The records of other journals are
    not touched, and if the journal names were pairwise distinct before, they
    still are. *)
Theorem add_failed_journal_updates_in_place l name url' reason' now :
  let l' := add_failed_journal l name url' reason' now in
  match List.find (named name) l with
  | None =>
      l' = l ++ [{| journal_name := name; url := url'; reason := reason';
                    failed_time := now; retry_count := 0; last_retry := None |}]
  | Some r =>
      length l' = length l
      ∧ List.find (named name) l'
        = Some {| journal_name := journal_name r; url := url r; reason := reason';
                  failed_time := now; retry_count := retry_count r + 1;
                  last_retry := last_retry r |}
  end
  ∧ is_Some (List.find (named name) l')
  ∧ (∀ other, other ≠ name →
       List.filter (named other) l' = List.filter (named other) l)
  ∧ (NoDup (journal_name <$> l) → NoDup (journal_name <$> l')).
Proof.
  intros l'. subst l'. unfold add_failed_journal. rewrite find_existsb.
  assert (∀ r, journal_name (refail reason' now r) = journal_name r) as Hf by done.
  destruct (List.find (named name) l) as [r|] eqn:Hfind.
  - rewrite bool_decide_eq_true_2 by eauto.
    rewrite find_update_first, Hfind by done. simpl.
    split_and!; [apply length_update_first|done|eauto| |].
    + intros other Hne. by apply filter_update_first.
    + by rewrite names_update_first.
  - rewrite bool_decide_eq_false_2 by (by intros [? ?]).
    split_and!; [done| | |].
    + rewrite find_app_None by done. simpl.
      assert (named name {| journal_name := name; url := url'; reason := reason';
                failed_time := now; retry_count := 0; last_retry := None |} = true) as ->
        by (by apply named_true).
      eauto.
    + intros other Hne. rewrite List.filter_app. simpl.
      assert (named other {| journal_name := name; url := url'; reason := reason';
                failed_time := now; retry_count := 0; last_retry := None |} = false) as ->
        by (by apply named_false).
      by rewrite app_nil_r.
    + intros Hnd. rewrite fmap_app. simpl. apply NoDup_app. split_and!; [done| |].
      * intros x Hx ->%list_elem_of_singleton.
        apply list_elem_of_fmap in Hx as (r & Hr & Hin).
        apply list_elem_of_In in Hin.
        assert (List.find (named name) l ≠ None) as Hsome; [|done].
        intros Hnone. eapply find_none in Hnone; [|exact Hin].
        apply named_false in Hnone. congruence.
      * apply NoDup_singleton.
Qed.

Lemma distribution_snoc l record :
  retry_distribution (get_statistics (l ++ [record])) =
    <[retry_count record :=
        default 0 (retry_distribution (get_statistics l) !! retry_count record) + 1]>
      (retry_distribution (get_statistics l)).
Proof. unfold get_statistics. simpl. by rewrite foldl_app. Qed.

Lemma distribution_lookup l c :
  retry_distribution (get_statistics l) !! c =
    match length (filter (λ journal, retry_count journal = c) l) with
    | O => None
    | S n => Some (Z.of_nat (S n))
    end.
Proof.
  induction l as [|record l IH] using rev_ind; [done|].
  rewrite distribution_snoc, filter_app, length_app, filter_cons, filter_nil.
  destruct (decide (retry_count record = c)) as [->|Hne].
  - rewrite lookup_insert_eq, IH. simpl.
    destruct (length (filter _ l)) as [|n]; simpl; [done|].
    rewrite Nat.add_1_r. f_equal. lia.
  - rewrite lookup_insert_ne by done. rewrite IH. simpl. by rewrite Nat.add_0_r.
Qed.

Lemma sum_insert_increment (m : gmap Z Z) k :
  map_fold (λ _ n total, n + total) 0 (<[k := default 0 (m !! k) + 1]> m)
  = map_fold (λ _ n total, n + total) 0 m + 1.
Proof.
  destruct (m !! k) as [v|] eqn:Hk; simpl.
  - rewrite <-(insert_delete_id m k v) at 2 by done.
    rewrite <-(insert_delete_eq m k (v + 1)).
    rewrite !map_fold_insert_L; [lia| |apply lookup_delete_eq| |apply lookup_delete_eq];
      intros; lia.
  - rewrite map_fold_insert_L; [lia| |done]. intros; lia.
Qed.

(** X5.  [get_statistics] counts every record once: the entry of
    [retry_distribution] under a retry count is the number of records that
    have this retry count, a retry count no record has is not a key, and the
    entries add up to [total_failed]. *)
Theorem get_statistics_distribution l :
  let statistics := get_statistics l in
  (∀ c, retry_distribution statistics !! c =
        match length (filter (λ journal, retry_count journal = c) l) with
        | O => None
        | S n => Some (Z.of_nat (S n))
        end)
  ∧ map_fold (λ _ n total, n + total) 0 (retry_distribution statistics)
    = total_failed statistics
  ∧ total_failed statistics = Z.of_nat (length (get_failed_journals l)).
Proof.
  intros statistics. subst statistics. split_and!; [apply distribution_lookup| |done].
  induction l as [|record l IH] using rev_ind; [done|].
  rewrite distribution_snoc, sum_insert_increment, IH. simpl.
  rewrite length_app. simpl. lia.
Qed.

End FailedJournalsRegistry.


(** ** The votes: batching and lookup *)
Section AgentFacts.
Import Agent Consensus.

Lemma results_map_snoc result res :
  results_map (result ++ [res]) = <[v_id res := res]> (results_map result).
Proof. unfold results_map. by rewrite foldl_app. Qed.

Lemma results_map_lookup result i :
  results_map result !! i = last (filter (λ res, v_id res = i) result).
Proof.
  induction result as [|res result IH] using rev_ind; [done|].
  rewrite results_map_snoc, filter_app, filter_cons, filter_nil.
  destruct (decide (v_id res = i)) as [<-|Hne].
  - by rewrite lookup_insert_eq, last_snoc.
  - by rewrite lookup_insert_ne, app_nil_r.
Qed.

(** X6.  In the lookup table built from a pass's results, an id is bound to
    the last result that carries it (when the model answers twice for one
    id, the later answer counts), and an id that no result carries is
    unbound. *)
Theorem results_map_last_vote_wins result i :
  results_map result !! i = last (filter (λ res, v_id res = i) result)
  ∧ (results_map result !! i = None ↔ i ∉ v_id <$> result).
Proof.
  split; [apply results_map_lookup|].
  rewrite results_map_lookup, last_None. split.
  - intros Hnil (res & Hi & Hin)%list_elem_of_fmap.
    assert (res ∈ filter (λ res, v_id res = i) result) as Hf
      by (by apply list_elem_of_filter).
    rewrite Hnil in Hf. by apply elem_of_nil in Hf.
  - intros Hnotin. destruct (filter _ result) as [|res rest] eqn:Hf; [done|].
    assert (res ∈ filter (λ res, v_id res = i) result) as Hin by (rewrite Hf; left).
    apply list_elem_of_filter in Hin as [Hi Hin]. destruct Hnotin.
    apply list_elem_of_fmap. eauto.
Qed.

Lemma results_map_perm result result' :
  NoDup (v_id <$> result) → result ≡ₚ result' →
  results_map result = results_map result'.
Proof.
  intros Hnd Hperm. apply map_eq. intros i. rewrite !results_map_lookup.
  assert (filter (λ res, v_id res = i) result ≡ₚ filter (λ res, v_id res = i) result')
    as Hf by (by rewrite Hperm).
  assert (length (filter (λ res, v_id res = i) result) ≤ 1)%nat as Hlen.
  { clear Hperm Hf. induction result as [|res result IH]; [simpl; lia|].
    rewrite fmap_cons in Hnd. apply NoDup_cons in Hnd as [Hnotin Hnd].
    rewrite filter_cons. destruct (decide (v_id res = i)) as [Hi|Hi]; [|by apply IH].
    assert (filter (λ res, v_id res = i) result = []) as ->; [|simpl; lia].
    destruct (filter _ result) as [|x rest] eqn:Hfx; [done|].
    assert (x ∈ filter (λ res, v_id res = i) result) as Hx by (rewrite Hfx; left).
    apply list_elem_of_filter in Hx as [Hxi Hx]. destruct Hnotin.
    apply list_elem_of_fmap. exists x. split; [congruence|done]. }
  destruct (filter _ result) as [|x [|y rest]] eqn:Hfr; [| |simpl in Hlen; lia].
  - apply Permutation_nil_l in Hf. by rewrite <-Hf.
  - apply Permutation_singleton_l in Hf. by rewrite Hf.
Qed.

Lemma batches_concat {A : Type} (paper_list : list A) (batch_size m : nat) :
  (0 < batch_size)%nat → (length paper_list ≤ m * batch_size)%nat →
  concat ((λ k, take batch_size (drop (k * batch_size) paper_list)) <$> seq 0 m)
  = paper_list.
Proof.
  intros Hpos. revert paper_list. induction m as [|m IH]; intros paper_list Hlen.
  - simpl in *. destruct paper_list; [done|simpl in Hlen; lia].
  - rewrite <-cons_seq, fmap_cons, <-fmap_S_seq, <-list_fmap_compose. simpl.
    change (drop 0 paper_list) with paper_list.
    transitivity (take batch_size paper_list ++ drop batch_size paper_list);
      [|apply take_drop].
    f_equal.
    etrans; [|apply (IH (drop batch_size paper_list)); rewrite length_drop; lia].
    f_equal. apply list_fmap_ext. intros _ k _. simpl.
    rewrite drop_drop. do 2 f_equal; lia.
Qed.

(** X7.  For a positive batch size, the batches are consecutive slices of
    the paper list: joined in order they give the list back, so every paper
    is sent to the model in exactly one batch; no batch is empty and none
    has more than [batch_size] papers.  A batch size of 0 raises. *)
Theorem batches_partition {A : Type} (paper_list : list A) (batch_size : nat) :
  match batches paper_list batch_size with
  | None => batch_size = 0%nat
  | Some bs =>
      concat bs = paper_list
      ∧ Forall (λ batch, 0 < length batch ≤ batch_size)%nat bs
      ∧ (length bs * batch_size < length paper_list + batch_size)%nat
  end.
Proof.
  unfold batches. destruct batch_size as [|b]; [done|].
  set (batch_size := S b). set (n := length paper_list).
  set (m := ((n + batch_size - 1) / batch_size)%nat).
  assert (0 < batch_size)%nat as Hpos by (subst batch_size; lia).
  assert (m * batch_size ≤ n + batch_size - 1)%nat as Hlow.
  { subst m. rewrite Nat.mul_comm. apply Nat.Div0.mul_div_le. }
  assert (n + batch_size - 1 < (m + 1) * batch_size)%nat as Hhigh.
  { subst m. pose proof (Nat.mul_succ_div_gt (n + batch_size - 1) batch_size). lia. }
  split_and!.
  - apply batches_concat; [done|]. fold n. lia.
  - apply Forall_fmap, Forall_forall. intros k Hk%elem_of_seq. simpl.
    rewrite length_take, length_drop. fold n. nia.
  - rewrite length_fmap, length_seq. fold n. lia.
Qed.

(** X8.  The order in which the concurrent batches complete does not change
    the lookup table built from the results, as long as no id occurs twice
    among the results: for two completion orders of the same batches, the
    two tables are equal. *)
Theorem completion_order_is_irrelevant {A : Type} (answer : nat → list A → list Vote)
    (completion completion' : list nat) (paper_list : list A) (batch_size : nat)
    (result result' : list Vote) :
  completion ≡ₚ completion' →
  batch_analyze_papers_in_batches_concurrent answer completion paper_list batch_size
    = Some result →
  batch_analyze_papers_in_batches_concurrent answer completion' paper_list batch_size
    = Some result' →
  NoDup (v_id <$> result) →
  results_map result = results_map result'.
Proof.
  unfold batch_analyze_papers_in_batches_concurrent.
  intros Hperm Hr Hr' Hnd. destruct (batches paper_list batch_size) as [bs|]; [|done].
  injection Hr as <-. injection Hr' as <-.
  apply results_map_perm; [done|]. by rewrite Hperm.
Qed.

End AgentFacts.


(** ** The consensus loop: what becomes of the scraped papers *)
Section ConsensusPartition.
Import Agent Consensus.
Variable analyze_paper : nat → string → string → Review.

Section Projection.
(** Something read off an item that the loop does not write to. *)
Context {B : Type} (proj : Item → B).
Hypothesis proj_set_reason : ∀ r it, proj (set_reason r it) = proj it.
Hypothesis proj_set_ai_relevant : ∀ b it, proj (set_ai_relevant b it) = proj it.

Lemma vote_block_lists r1 r2 acc item :
  ∃ x, proj x = proj item
       ∧ ((ai_papers (vote_block analyze_paper r1 r2 acc item) = ai_papers acc ++ [x]
           ∧ non_ai_papers (vote_block analyze_paper r1 r2 acc item) = non_ai_papers acc)
          ∨ (ai_papers (vote_block analyze_paper r1 r2 acc item) = ai_papers acc
             ∧ non_ai_papers (vote_block analyze_paper r1 r2 acc item)
               = non_ai_papers acc ++ [x])).
Proof.
  unfold vote_block.
  repeat match goal with |- context [if ?b then _ else _] => destruct b end;
    simpl; eexists; (split; [|eauto]); apply proj_set_reason.
Qed.

Section AnyLoop.
Variable step : Acc → Item → Acc.
Variable keep : Item → bool.
Hypothesis step_lists : ∀ acc item,
  if keep item then
    ∃ x, proj x = proj item
         ∧ ((ai_papers (step acc item) = ai_papers acc ++ [x]
             ∧ non_ai_papers (step acc item) = non_ai_papers acc)
            ∨ (ai_papers (step acc item) = ai_papers acc
               ∧ non_ai_papers (step acc item) = non_ai_papers acc ++ [x]))
  else ai_papers (step acc item) = ai_papers acc
       ∧ non_ai_papers (step acc item) = non_ai_papers acc.

Lemma run_lists items acc :
  ∃ a n,
    proj <$> ai_papers (foldl step acc items) = (proj <$> ai_papers acc) ++ a
    ∧ proj <$> non_ai_papers (foldl step acc items) = (proj <$> non_ai_papers acc) ++ n
    ∧ a ++ n ≡ₚ proj <$> List.filter keep items
    ∧ a `sublist_of` proj <$> items
    ∧ n `sublist_of` proj <$> items.
Proof.
  revert acc. induction items as [|item items IH]; intros acc.
  - exists [], []. simpl. by rewrite !app_nil_r.
  - destruct (IH (step acc item)) as (a & n & Ha & Hn & Hperm & Hsa & Hsn).
    pose proof (step_lists acc item) as Hstep. rewrite fmap_cons.
    cbn [foldl List.filter].
    destruct (keep item).
    + destruct Hstep as (x & Hx & [[Hai Hnon]|[Hai Hnon]]).
      * exists (proj item :: a), n.
        rewrite Ha, Hn, Hai, Hnon, fmap_app, <-app_assoc, !fmap_cons, fmap_nil, Hx.
        split_and!; [done|done| |by apply sublist_skip|by apply sublist_cons].
        simpl. by rewrite Hperm.
      * exists a, (proj item :: n).
        rewrite Ha, Hn, Hai, Hnon, fmap_app, <-app_assoc, !fmap_cons, fmap_nil, Hx.
        split_and!; [done|done| |by apply sublist_cons|by apply sublist_skip].
        by rewrite <-Permutation_middle, Hperm.
    + destruct Hstep as [Hai Hnon]. exists a, n. rewrite Ha, Hn, Hai, Hnon.
      split_and!; [done|done|done|by apply sublist_cons|by apply sublist_cons].
Qed.

End AnyLoop.

Lemma step_light_lists r1_map r2_map acc item :
  ∃ x, proj x = proj item
       ∧ ((ai_papers (step_light analyze_paper r1_map r2_map acc item)
             = ai_papers acc ++ [x]
           ∧ non_ai_papers (step_light analyze_paper r1_map r2_map acc item)
             = non_ai_papers acc)
          ∨ (ai_papers (step_light analyze_paper r1_map r2_map acc item) = ai_papers acc
             ∧ non_ai_papers (step_light analyze_paper r1_map r2_map acc item)
               = non_ai_papers acc ++ [x])).
Proof.
  unfold step_light.
  destruct (r1_map !! id item) as [r1|]; [destruct (r2_map !! id item) as [r2|]|];
    [apply vote_block_lists|..]; eexists; (split; [|right; simpl; eauto]);
    by rewrite proj_set_ai_relevant, proj_set_reason.
Qed.

Lemma step_incremental_lists r1_map r2_map acc item :
  if voted r1_map r2_map item then
    ∃ x, proj x = proj item
         ∧ ((ai_papers (step_incremental analyze_paper r1_map r2_map acc item)
               = ai_papers acc ++ [x]
             ∧ non_ai_papers (step_incremental analyze_paper r1_map r2_map acc item)
               = non_ai_papers acc)
            ∨ (ai_papers (step_incremental analyze_paper r1_map r2_map acc item)
                 = ai_papers acc
               ∧ non_ai_papers (step_incremental analyze_paper r1_map r2_map acc item)
                 = non_ai_papers acc ++ [x]))
  else ai_papers (step_incremental analyze_paper r1_map r2_map acc item) = ai_papers acc
       ∧ non_ai_papers (step_incremental analyze_paper r1_map r2_map acc item)
         = non_ai_papers acc.
Proof.
  destruct (voted r1_map r2_map item) eqn:Hv.
  - apply voted_true in Hv as (r1 & r2 & H1 & H2).
    rewrite (step_incremental_voted _ _ _ _ _ r1 r2) by done. apply vote_block_lists.
  - apply voted_false in Hv. by rewrite step_incremental_unvoted.
Qed.

Lemma proj_imap_set_id (f : nat → string) card_infos :
  (∀ s it, proj (set_id s it) = proj it) →
  proj <$> imap (λ i, set_id (f i)) card_infos = proj <$> card_infos.
Proof.
  intros Hid. revert f. induction card_infos as [|it l IH]; intros f; [done|].
  rewrite imap_cons, !fmap_cons, Hid. f_equal. apply (IH (f ∘ S)).
Qed.

Lemma proj_assign_ids card_infos :
  (∀ s it, proj (set_id s it) = proj it) →
  proj <$> assign_ids card_infos = proj <$> card_infos.
Proof. apply (proj_imap_set_id (λ i, pretty (S i))). Qed.

End Projection.

Lemma filter_true {A : Type} (l : list A) : List.filter (λ _, true) l = l.
Proof. induction l as [|x l IH]; simpl; by rewrite ?IH. Qed.

Lemma paper_of_card (card : Paper → Item) papers :
  (∀ p, paper_of_item (card p) = p) →
  paper_of_item <$> assign_ids (card <$> papers) = papers.
Proof.
  intros Hcard. rewrite proj_assign_ids by done. rewrite <-list_fmap_compose.
  rewrite <-(list_fmap_id papers) at 2. apply list_fmap_ext. intros _ p _. apply Hcard.
Qed.

Lemma paper_of_card_full p : paper_of_item (card_of_paper_full p) = p.
Proof. by destruct p. Qed.

Lemma paper_of_card_incremental p : paper_of_item (card_of_paper_incremental p) = p.
Proof. by destruct p. Qed.

(** X9.  The light orchestrator loses no paper and invents none: the papers
    behind its two output lists are, together, the scraped papers, each as
    often as it was scraped, and each list keeps them in crawl order. *)
Theorem light_run_partitions_papers papers result1 result2 :
  let out := classify_light analyze_paper papers result1 result2 in
  paper_of_item <$> (ai_papers out ++ non_ai_papers out) ≡ₚ papers
  ∧ paper_of_item <$> ai_papers out `sublist_of` papers
  ∧ paper_of_item <$> non_ai_papers out `sublist_of` papers.
Proof.
  intros out. subst out. unfold classify_light.
  destruct (run_lists paper_of_item
              (step_light analyze_paper (results_map result1) (results_map result2))
              (λ _, true)
              (step_light_lists paper_of_item (λ _ _, eq_refl) (λ _ _, eq_refl) _ _)
              (assign_ids (card_of_paper_full <$> papers)) empty_acc)
    as (a & n & Ha & Hn & Hperm & Hsa & Hsn).
  rewrite filter_true in Hperm.
  rewrite (paper_of_card _ _ paper_of_card_full) in Hperm, Hsa, Hsn.
  rewrite fmap_app, Ha, Hn. simpl. done.
Qed.

(** X10.  The incremental and the full orchestrator keep exactly the papers
    whose id got a vote in both passes: the papers behind the two output
    lists are, together, those behind the voted items, and each list keeps
    them in crawl order.  A paper without both votes is in neither list. *)
Theorem incremental_run_keeps_voted_papers papers result1 result2 :
  let both := voted (results_map result1) (results_map result2) in
  let incremental := classify_incremental analyze_paper papers result1 result2 in
  let full := classify_full analyze_paper papers result1 result2 in
  (paper_of_item <$> (ai_papers incremental ++ non_ai_papers incremental)
     ≡ₚ paper_of_item <$> List.filter both (assign_ids (card_of_paper_incremental <$> papers))
   ∧ paper_of_item <$> ai_papers incremental `sublist_of` papers
   ∧ paper_of_item <$> non_ai_papers incremental `sublist_of` papers)
  ∧ (paper_of_item <$> (ai_papers full ++ non_ai_papers full)
       ≡ₚ paper_of_item <$> List.filter both (assign_ids (card_of_paper_full <$> papers))
     ∧ paper_of_item <$> ai_papers full `sublist_of` papers
     ∧ paper_of_item <$> non_ai_papers full `sublist_of` papers).
Proof.
  intros both incremental full. subst both incremental full.
  unfold classify_incremental, classify_full. split.
  - destruct (run_lists paper_of_item
                (step_incremental analyze_paper (results_map result1) (results_map result2))
                (voted (results_map result1) (results_map result2))
                (step_incremental_lists paper_of_item (λ _ _, eq_refl) _ _)
                (assign_ids (card_of_paper_incremental <$> papers)) empty_acc)
      as (a & n & Ha & Hn & Hperm & Hsa & Hsn).
    rewrite (paper_of_card _ _ paper_of_card_incremental) in Hsa, Hsn.
    rewrite fmap_app, Ha, Hn. simpl. done.
  - destruct (run_lists paper_of_item
                (step_incremental analyze_paper (results_map result1) (results_map result2))
                (voted (results_map result1) (results_map result2))
                (step_incremental_lists paper_of_item (λ _ _, eq_refl) _ _)
                (assign_ids (card_of_paper_full <$> papers)) empty_acc)
      as (a & n & Ha & Hn & Hperm & Hsa & Hsn).
    rewrite (paper_of_card _ _ paper_of_card_full) in Hsa, Hsn.
    rewrite fmap_app, Ha, Hn. simpl. done.
Qed.

(** What the output lists of the incremental and of the full orchestrator
    hold under [url]. *)
Lemma run_urls (card : Paper → Item) papers result1 result2 it :
  it ∈ non_ai_papers
         (foldl (step_incremental analyze_paper (results_map result1) (results_map result2))
                empty_acc (assign_ids (card <$> papers))) →
  ∃ p, p ∈ papers ∧ url it = url (card p).
Proof.
  intros Hin.
  destruct (run_lists url
              (step_incremental analyze_paper (results_map result1) (results_map result2))
              (voted (results_map result1) (results_map result2))
              (step_incremental_lists url (λ _ _, eq_refl) _ _)
              (assign_ids (card <$> papers)) empty_acc)
    as (a & n & _ & Hn & _ & _ & Hsn).
  simpl in Hn. rewrite proj_assign_ids, <-list_fmap_compose in Hsn by done.
  assert (url it ∈ n) as Hu by (rewrite <-Hn; by apply list_elem_of_fmap_2).
  eapply elem_of_sublist in Hu; [|exact Hsn].
  apply list_elem_of_fmap in Hu as (p & Hp & Hinp). eauto.
Qed.

End ConsensusPartition.


(** ** [NatureParser.scrape_journal]: what is returned and what is remembered *)
Section NatureScrapeFacts.
Import Agent Nature NatureScrape.
Variables (start_date end_date : option Z).
Variable paper_exists : string → bool.
Variable journal_name : string.

Lemma candidate_not_archived start_date' end_date' non_ai_set article_type s info :
  info ∈ card_infos (crawl_stream start_date' end_date' paper_exists non_ai_set
                       journal_name article_type s init) →
  (title info, url info) ∉ non_ai_set.
Proof.
  rewrite crawl_card_infos. simpl.
  intros (c & -> & Hc)%list_elem_of_fmap.
  apply list_elem_of_In, List.filter_In in Hc as [_ Hc].
  apply andb_true_iff in Hc as [_ Hkept]. unfold kept in Hkept.
  rewrite !andb_true_iff, !negb_true_iff, bool_decide_eq_false in Hkept.
  destruct Hkept as [_ Harch]. done.
Qed.

(** X11.  A candidate of the listing crawl is never a paper that
    [paper_exists] reports as stored nor one whose title and link are in
    [non_ai_set]; its DOI is the last segment of its link, and it carries the
    sub-journal's name and the article type of the stream.  This holds for
    every stream and every window. *)
Theorem crawl_skips_known_papers non_ai_set article_type s info :
  info ∈ card_infos (crawl_stream start_date end_date paper_exists non_ai_set
                       journal_name article_type s init) →
  paper_exists (doi info) = false
  ∧ ((title info, url info) ∉ non_ai_set)
  ∧ doi info = PyStr.last_segment (url info)
  ∧ journal info = journal_name ∧ type_ info = article_type.
Proof.
  intros Hin. pose proof (candidate_not_archived _ _ _ _ _ _ Hin) as Harch.
  revert Hin. rewrite crawl_card_infos. simpl.
  intros (c & -> & Hc)%list_elem_of_fmap.
  apply list_elem_of_In, List.filter_In in Hc as [_ Hc].
  apply andb_true_iff in Hc as [_ Hkept]. unfold kept in Hkept.
  rewrite !andb_true_iff, !negb_true_iff in Hkept.
  destruct Hkept as [[_ Hnew] _]. simpl. done.
Qed.

Lemma info_imap_set_id (f : nat → string) l :
  info <$> imap (λ i, set_id (f i)) l = info <$> l.
Proof.
  revert f. induction l as [|a l IH]; intros f; [done|].
  rewrite imap_cons, !fmap_cons. f_equal. apply (IH (f ∘ S)).
Qed.

Lemma info_assign_ids l : info <$> assign_ids l = info <$> l.
Proof. apply (info_imap_set_id (λ i, pretty (S i))). Qed.

Lemma info_candidate (l : list CardInfo) : info <$> (candidate <$> l) = l.
Proof.
  rewrite <-list_fmap_compose. rewrite <-(list_fmap_id l) at 2.
  by apply list_fmap_ext.
Qed.

Lemma analysis_step_cases a r1_map r2_map st item :
  ∃ item' reviewed,
    info item' = info item
    ∧ (analysis_step a r1_map r2_map st item = to_articles item' reviewed st
       ∨ analysis_step a r1_map r2_map st item = to_non_ai_articles item' reviewed st
       ∨ analysis_step a r1_map r2_map st item = skip item' st).
Proof.
  unfold analysis_step.
  destruct (r1_map !! id item) as [r1|]; [destruct (r2_map !! id item) as [r2|]|];
    [|exists item, false; auto..].
  repeat match goal with |- context [if ?b then _ else _] => destruct b end;
    (eexists _, _; split; [|by eauto]; done).
Qed.

(** The loop goes through every item; what it puts in either output list is
    among the dicts it has gone through. *)
Lemma analysis_loop a r1_map r2_map items st :
  ∃ relevant non_relevant through,
    articles (foldl (analysis_step a r1_map r2_map) st items) = articles st ++ relevant
    ∧ non_ai_articles (foldl (analysis_step a r1_map r2_map) st items)
      = non_ai_articles st ++ non_relevant
    ∧ seen (foldl (analysis_step a r1_map r2_map) st items) = seen st ++ through
    ∧ info <$> through = info <$> items
    ∧ relevant `sublist_of` through
    ∧ non_relevant `sublist_of` through.
Proof.
  revert st. induction items as [|item items IH]; intros st.
  - exists [], [], []. simpl. by rewrite !app_nil_r.
  - destruct (IH (analysis_step a r1_map r2_map st item))
      as (r & n & t & Hr & Hn & Ht & Hinfo & Hsr & Hsn).
    cbn [foldl]. rewrite Hr, Hn, Ht.
    destruct (analysis_step_cases a r1_map r2_map st item)
      as (item' & reviewed & Hi & [-> | [-> | ->]]); simpl; rewrite <-?app_assoc.
    + exists (item' :: r), n, (item' :: t).
      rewrite !fmap_cons, Hi, Hinfo.
      split_and!; [done..|by apply sublist_skip|by apply sublist_cons].
    + exists r, (item' :: n), (item' :: t).
      rewrite !fmap_cons, Hi, Hinfo.
      split_and!; [done..|by apply sublist_cons|by apply sublist_skip].
    + exists r, n, (item' :: t).
      rewrite !fmap_cons, Hi, Hinfo.
      split_and!; [done..|by apply sublist_cons|by apply sublist_cons].
Qed.


(** What one article type leaves behind. *)
Lemma scrape_type_spec has_agent env article_type s a :
  let out := scrape_type has_agent start_date end_date paper_exists journal_name
               env article_type s a in
  ∃ relevant non_relevant,
    env_articles out.1 = env_articles env ++ relevant
    ∧ env_file out.1 = append_non_ai (env_file env) non_relevant
    ∧ env_non_ai_set out.1 = load_non_ai_set (env_file env) (env_non_ai_set env)
    ∧ info <$> out.2
      = card_infos (crawl_stream start_date end_date paper_exists
                      (load_non_ai_set (env_file env) (env_non_ai_set env))
                      journal_name article_type s init)
    ∧ relevant `sublist_of` out.2
    ∧ non_relevant `sublist_of` out.2
    ∧ (has_agent = false → relevant = [] ∧ non_relevant = []
                           ∧ out.2 = candidates start_date end_date paper_exists
                                       journal_name env article_type s).
Proof.
  intros out. subst out. unfold scrape_type.
  destruct (negb (bool_decide (candidates _ _ _ _ env article_type s = [])) && has_agent)
    eqn:Hrun; simpl.
  - destruct (analysis_loop a (Consensus.results_map (result1 a))
                (Consensus.results_map (result2 a))
                (assign_ids (candidates start_date end_date paper_exists journal_name
                               env article_type s))
                (start_loop (env_articles env)))
      as (r & n & t & Hr & Hn & Ht & Hinfo & Hsr & Hsn).
    simpl in Hr, Hn, Ht. exists r, n. rewrite Hr, Hn, Ht.
    split_and!; [done..| |done|done|].
    + rewrite Hinfo, info_assign_ids. unfold candidates. apply info_candidate.
    + intros ->. by rewrite andb_false_r in Hrun.
  - exists [], []. unfold append_non_ai. rewrite !app_nil_r.
    split_and!; [done|done|done|unfold candidates; apply info_candidate
                |apply sublist_nil_l|apply sublist_nil_l|done].
Qed.


(** X13.  With an agent, the list [scrape_journal] returns (when the sort
    does not raise) is a rearrangement of: the articles found relevant in
    either stream, followed by every candidate of the research-articles
    stream, whatever the verdict on it.  So a research article that was
    found not relevant, or that got no vote, is returned all the same, and
    one that was found relevant is returned twice. *)
Theorem scrape_returns_every_candidate_of_last_stream has_agent file non_ai_set
    news research sorted :
  (scrape_journal has_agent start_date end_date paper_exists journal_name
     file non_ai_set news research).1 = Some sorted →
  ∃ relevant_news relevant_research through,
    sorted ≡ₚ relevant_news ++ relevant_research ++ through
    ∧ info <$> relevant_news
      `sublist_of` card_infos (crawl_stream start_date end_date paper_exists
                                 (load_non_ai_set file non_ai_set)
                                 journal_name "news-and-comment" news.1 init)
    ∧ relevant_research `sublist_of` through
    ∧ info <$> through
      = card_infos (crawl_stream start_date end_date paper_exists
                      (env_non_ai_set
                         (scrape_journal has_agent start_date end_date paper_exists
                            journal_name file non_ai_set news research).2)
                      journal_name "research-articles" research.1 init)
    ∧ ∀ c, c ∈ card_infos (crawl_stream start_date end_date paper_exists
                             (env_non_ai_set
                                (scrape_journal has_agent start_date end_date paper_exists
                                   journal_name file non_ai_set news research).2)
                             journal_name "research-articles" research.1 init) →
           ∃ article, article ∈ sorted ∧ info article = c.
Proof.
  unfold scrape_journal.
  set (env := {| env_articles := []; env_file := file; env_non_ai_set := non_ai_set |}).
  pose proof (scrape_type_spec has_agent env "news-and-comment" news.1 news.2) as H1.
  destruct (scrape_type has_agent _ _ _ _ env "news-and-comment" news.1 news.2)
    as [env1 infos1].
  pose proof (scrape_type_spec has_agent env1 "research-articles" research.1 research.2)
    as H2.
  destruct (scrape_type has_agent _ _ _ _ env1 "research-articles" research.1 research.2)
    as [env2 infos2].
  cbv zeta in H1, H2. simpl in H1, H2 |- *.
  destruct H1 as (r1 & n1 & Ha1 & _ & _ & Hinfo1 & Hsub1 & _).
  destruct H2 as (r2 & n2 & Ha2 & _ & Hset & Hinfo & Hsub & _).
  unfold sort_articles.
  destruct (bool_decide _ && bool_decide _); [done|]. intros [= <-].
  assert (PySort.sort_by (λ x, - default 0 (date (info x))) (env_articles env2 ++ infos2)
          ≡ₚ r1 ++ r2 ++ infos2) as Hperm.
  { rewrite sort_by_perm, Ha2, Ha1. simpl. by rewrite <-app_assoc. }
  exists r1, r2, infos2. rewrite Hset.
  split_and!; [done| |done|done|].
  { rewrite <-Hinfo1. by apply fmap_sublist. }
  intros c Hc. rewrite <-Hinfo in Hc.
  apply list_elem_of_fmap in Hc as (article & -> & Hin).
  exists article. split; [|done]. rewrite Hperm, !elem_of_app. auto.
Qed.

(** X14.  What the analysis of one article type finds not relevant is
    written to the file, title and link, and no crawl that loads the file
    afterwards collects a card with the title and link of one of the file's
    lines again, whatever the stream and the window. *)
Theorem non_relevant_articles_are_not_collected_again has_agent env article_type s a :
  let out := scrape_type has_agent start_date end_date paper_exists journal_name
               env article_type s a in
  env_file env `prefix_of` env_file out.1
  ∧ (has_agent = true →
     ∀ item, item ∈ non_ai_articles
                      (foldl (analysis_step a (Consensus.results_map (result1 a))
                                (Consensus.results_map (result2 a)))
                             (start_loop (env_articles env))
                             (assign_ids (candidates start_date end_date paper_exists
                                            journal_name env article_type s))) →
             (title (info item), url (info item)) ∈ env_file out.1)
  ∧ ∀ line later_start later_end later_set later_type later_stream c,
      line ∈ env_file out.1 →
      c ∈ card_infos (crawl_stream later_start later_end paper_exists
                        (load_non_ai_set (env_file out.1) later_set)
                        journal_name later_type later_stream init) →
      (title c, url c) ≠ line.
Proof.
  intros out. split_and!.
  - subst out. unfold scrape_type.
    destruct (negb _ && has_agent); simpl; [|done]. by apply prefix_app_r.
  - intros -> item Hitem. subst out. unfold scrape_type.
    destruct (bool_decide (candidates _ _ _ _ env article_type s = [])) eqn:Hempty; simpl.
    + apply bool_decide_eq_true in Hempty. rewrite Hempty in Hitem. simpl in Hitem.
      by apply elem_of_nil in Hitem.
    + unfold append_non_ai. rewrite elem_of_app, list_elem_of_fmap. right. eauto.
  - intros line ls le lset lt lstream c Hline Hc [= <-].
    apply (candidate_not_archived ls le _ lt lstream c Hc). unfold load_non_ai_set. apply elem_of_union. right.
    by apply elem_of_list_to_set.
Qed.

End NatureScrapeFacts.


(** ** The verdict of the consensus loop, item by item *)
Section ConsensusVerdict.
Import Agent Consensus.
Variables r1_map r2_map : gmap string Vote.

(** Either copy of the orchestrators' loop appends to its two lists only,
    and what it appends while going through [items] carries the ids of
    items of that list. *)
Lemma run_ids analyze_paper step items acc :
  step = step_light analyze_paper r1_map r2_map
  ∨ step = step_incremental analyze_paper r1_map r2_map →
  ∃ ai_new non_new,
    ai_papers (foldl step acc items) = ai_papers acc ++ ai_new
    ∧ non_ai_papers (foldl step acc items) = non_ai_papers acc ++ non_new
    ∧ Forall (λ y, ∃ it, it ∈ items ∧ id y = id it) (ai_new ++ non_new).
Proof.
  intros Hstep.
  assert (∃ a n,
            id <$> ai_papers (foldl step acc items) = (id <$> ai_papers acc) ++ a
            ∧ id <$> non_ai_papers (foldl step acc items) = (id <$> non_ai_papers acc) ++ n
            ∧ a `sublist_of` id <$> items ∧ n `sublist_of` id <$> items)
    as (a & n & Ha & Hn & Hsa & Hsn).
  { destruct Hstep as [-> | ->].
    - destruct (run_lists id (step_light analyze_paper r1_map r2_map)
                  (λ _, true)
                  (step_light_lists analyze_paper id (λ _ _, eq_refl) (λ _ _, eq_refl) _ _)
                  items acc) as (a & n & Ha & Hn & _ & Hsa & Hsn). eauto 10.
    - destruct (run_lists id (step_incremental analyze_paper r1_map r2_map)
                  (voted r1_map r2_map)
                  (step_incremental_lists analyze_paper id (λ _ _, eq_refl) _ _)
                  items acc) as (a & n & Ha & Hn & _ & Hsa & Hsn). eauto 10. }
  assert (ai_papers acc `prefix_of` ai_papers (foldl step acc items)
          ∧ non_ai_papers acc `prefix_of` non_ai_papers (foldl step acc items))
    as [[ai_new Hai] [non_new Hnon]].
  { apply (run_grows analyze_paper r1_map r2_map step).
    - intros. destruct Hstep as [-> | ->];
        [by apply step_light_voted | by apply step_incremental_voted].
    - intros acc' it Hnone. destruct Hstep as [-> | ->].
      + rewrite step_light_unvoted by done. simpl. split_and!; [done..|].
        by apply prefix_app_r.
      + rewrite step_incremental_unvoted by done. done. }
  exists ai_new, non_new. split; [done|]. split; [done|].
  rewrite Hai, fmap_app in Ha. apply app_inv_head in Ha.
  rewrite Hnon, fmap_app in Hn. apply app_inv_head in Hn.
  apply Forall_app. split; apply Forall_forall; intros y Hy.
  - assert (id y ∈ id <$> items) as Hin.
    { eapply elem_of_sublist; [|exact Hsa]. rewrite <-Ha. by apply list_elem_of_fmap_2. }
    apply list_elem_of_fmap in Hin as (it & ? & ?). eauto.
  - assert (id y ∈ id <$> items) as Hin.
    { eapply elem_of_sublist; [|exact Hsn]. rewrite <-Hn. by apply list_elem_of_fmap_2. }
    apply list_elem_of_fmap in Hin as (it & ? & ?). eauto.
Qed.

(** The items of the parser's copy of the loop on which both passes voted
    and disagree. *)
Let disputed (article : NatureScrape.Article) : bool :=
  match r1_map !! NatureScrape.id article, r2_map !! NatureScrape.id article with
  | Some v1, Some v2 => negb (eqb (is_ai_related v1) (is_ai_related v2))
  | _, _ => false
  end.

Lemma analysis_step_lists a st article :
  ∃ relevant_new non_new,
    NatureScrape.articles (NatureScrape.analysis_step a r1_map r2_map st article)
    = NatureScrape.articles st ++ relevant_new
    ∧ NatureScrape.non_ai_articles (NatureScrape.analysis_step a r1_map r2_map st article)
      = NatureScrape.non_ai_articles st ++ non_new
    ∧ Forall (λ y, NatureScrape.id y = NatureScrape.id article) (relevant_new ++ non_new)
    ∧ NatureScrape.reviews (NatureScrape.analysis_step a r1_map r2_map st article)
      = (NatureScrape.reviews st + if disputed article then 1 else 0)%nat.
Proof.
  unfold NatureScrape.analysis_step, disputed.
  destruct (r1_map !! NatureScrape.id article) as [v1|];
    [destruct (r2_map !! NatureScrape.id article) as [v2|]|];
    [|exists [], []; simpl; rewrite !app_nil_r; split_and!; [done|done|done|lia]..].
  destruct (is_ai_related v1), (is_ai_related v2); simpl;
    repeat match goal with |- context [if ?b then _ else _] => destruct b end; simpl;
    first [ eexists [_], []; split_and!; [done|by rewrite app_nil_r| |lia];
            by repeat constructor
          | eexists [], [_]; split_and!; [by rewrite app_nil_r|done| |lia];
            by repeat constructor ].
Qed.

Lemma analysis_run_lists a items st :
  let out := foldl (NatureScrape.analysis_step a r1_map r2_map) st items in
  ∃ relevant_new non_new,
    NatureScrape.articles out = NatureScrape.articles st ++ relevant_new
    ∧ NatureScrape.non_ai_articles out = NatureScrape.non_ai_articles st ++ non_new
    ∧ Forall (λ y, ∃ it, it ∈ items ∧ NatureScrape.id y = NatureScrape.id it)
             (relevant_new ++ non_new)
    ∧ NatureScrape.reviews out
      = (NatureScrape.reviews st + length (List.filter disputed items))%nat.
Proof.
  revert st. induction items as [|article items IH]; intros st; cbn [foldl].
  - exists [], []. rewrite !app_nil_r. simpl. split_and!; [done|done|done|lia].
  - destruct (IH (NatureScrape.analysis_step a r1_map r2_map st article))
      as (r & n & Hr & Hn & Hids & Hrev).
    destruct (analysis_step_lists a st article) as (r0 & n0 & Hr0 & Hn0 & Hids0 & Hrev0).
    exists (r0 ++ r), (n0 ++ n). rewrite Hr, Hn, Hrev, Hr0, Hn0, Hrev0, <-!app_assoc.
    split_and!; [done|done| |simpl; destruct (disputed article); simpl; lia].
    apply Forall_app in Hids as [Hir Hin]. apply Forall_app in Hids0 as [Hir0 Hin0].
    rewrite !Forall_app. split_and!.
    + eapply Forall_impl; [exact Hir0|]. intros y Hy. exists article. split; [by left|done].
    + eapply Forall_impl; [exact Hir|]. intros y (it & ? & ?). exists it. split; [by right|done].
    + eapply Forall_impl; [exact Hin0|]. intros y Hy. exists article. split; [by left|done].
    + eapply Forall_impl; [exact Hin|]. intros y (it & ? & ?). exists it. split; [by right|done].
Qed.

(** C2.  In every copy of the loop (the two orchestrator variants and the
    parser's), for an item that has a vote from both passes: the verdict is
    the shared vote when the two votes agree, and the adjudicator's answer
    when they disagree; the item is appended to the list of that verdict and
    to that list only, after what the items before it left and before what
    the items after it leave, with its [reason] set to pass A's explanation
    in the first case and to the adjudicator's in the second, and nothing
    else changed.  The single-item adjudication calls of the whole run are
    exactly those for the items whose two votes disagree, in order: none for
    an item with agreeing votes, one for each item with disagreeing votes,
    and the answer used for an item is that of its own call. *)
Theorem consensus_verdict_rule r1 r2 :
  let agree := eqb (is_ai_related r1) (is_ai_related r2) in
  (∀ analyze_paper step pre item post,
     step = step_light analyze_paper r1_map r2_map
     ∨ step = step_incremental analyze_paper r1_map r2_map →
     r1_map !! id item = Some r1 →
     r2_map !! id item = Some r2 →
     let disagreeing :=
       List.filter (λ it, match r1_map !! id it, r2_map !! id it with
                          | Some v1, Some v2 =>
                              negb (eqb (is_ai_related v1) (is_ai_related v2))
                          | _, _ => false
                          end) in
     let review := analyze_paper (length (disagreeing pre)) (title item) (abstract item) in
     let verdict := if agree then is_ai_related r1 else rv_is_ai_related review in
     let stored :=
       {| title := title item; abstract := abstract item; date := date item;
          doi := doi item; link := link item; url := url item; authors := authors item;
          type_ := type_ item; id := id item;
          reason := Some (if agree then explanation r1
                          else default "reviewed" (rv_explanation review));
          ai_relevant := ai_relevant item |} in
     let out := foldl step empty_acc (pre ++ item :: post) in
     (∃ ai_before ai_after non_before non_after,
        ai_papers out = ai_before ++ (if verdict then [stored] else []) ++ ai_after
        ∧ non_ai_papers out = non_before ++ (if verdict then [] else [stored]) ++ non_after
        ∧ Forall (λ y, ∃ it, it ∈ pre ∧ id y = id it) (ai_before ++ non_before)
        ∧ Forall (λ y, ∃ it, it ∈ post ∧ id y = id it) (ai_after ++ non_after))
     ∧ review_calls out
       = (λ it, (title it, abstract it)) <$> disagreeing (pre ++ item :: post)
     ∧ disagreeing [item] = (if agree then [] else [item]))
  ∧ (∀ a initial pre article post,
     r1_map !! NatureScrape.id article = Some r1 →
     r2_map !! NatureScrape.id article = Some r2 →
     let disagreeing :=
       List.filter (λ it, match r1_map !! NatureScrape.id it,
                                r2_map !! NatureScrape.id it with
                          | Some v1, Some v2 =>
                              negb (eqb (is_ai_related v1) (is_ai_related v2))
                          | _, _ => false
                          end) in
     let review := NatureScrape.analyze_paper a (length (disagreeing pre))
                     (Nature.title (NatureScrape.info article))
                     (Nature.abstract (NatureScrape.info article)) in
     let verdict := if agree then is_ai_related r1 else rv_is_ai_related review in
     let stored :=
       {| NatureScrape.info := NatureScrape.info article;
          NatureScrape.id := NatureScrape.id article;
          NatureScrape.reason :=
            Some (if agree then explanation r1
                  else default "reviewed" (rv_explanation review)) |} in
     let out := foldl (NatureScrape.analysis_step a r1_map r2_map)
                      (NatureScrape.start_loop initial) (pre ++ article :: post) in
     (∃ ai_before ai_after non_before non_after,
        NatureScrape.articles out
        = initial ++ ai_before ++ (if verdict then [stored] else []) ++ ai_after
        ∧ NatureScrape.non_ai_articles out
          = non_before ++ (if verdict then [] else [stored]) ++ non_after
        ∧ Forall (λ y, ∃ it, it ∈ pre ∧ NatureScrape.id y = NatureScrape.id it)
                 (ai_before ++ non_before)
        ∧ Forall (λ y, ∃ it, it ∈ post ∧ NatureScrape.id y = NatureScrape.id it)
                 (ai_after ++ non_after))
     ∧ NatureScrape.reviews out = length (disagreeing (pre ++ article :: post))
     ∧ disagreeing [article] = (if agree then [] else [article])).
Proof.
  intros agree. split.
  - intros analyze_paper step pre item post Hstep H1 H2 disagreeing review verdict stored out.
    assert (∀ acc it v1 v2, r1_map !! id it = Some v1 → r2_map !! id it = Some v2 →
              step acc it = vote_block analyze_paper v1 v2 acc it) as Hvoted.
    { intros. destruct Hstep as [-> | ->];
        [by apply step_light_voted | by apply step_incremental_voted]. }
    assert (∀ acc it, r1_map !! id it = None ∨ r2_map !! id it = None →
              review_calls (step acc it) = review_calls acc
              ∧ ai_papers (step acc it) = ai_papers acc
              ∧ non_ai_papers acc `prefix_of` non_ai_papers (step acc it)) as Hunvoted.
    { intros acc it Hn. destruct Hstep as [-> | ->].
      - rewrite step_light_unvoted by done. simpl. split_and!; [done..|].
        by apply prefix_app_r.
      - rewrite step_incremental_unvoted by done. done. }
    split_and!.
    + subst out. rewrite foldl_app. cbn [foldl].
      set (mid := foldl step empty_acc pre).
      destruct (run_ids analyze_paper step pre empty_acc Hstep)
        as (ai_before & non_before & Hab & Hnb & Hbefore).
      fold mid in Hab, Hnb. simpl in Hab, Hnb.
      destruct (run_ids analyze_paper step post (step mid item) Hstep)
        as (ai_after & non_after & Haa & Hna & Hafter).
      exists ai_before, ai_after, non_before, non_after.
      rewrite Haa, Hna. split_and!; [| |done|done].
      * rewrite app_assoc. f_equal. rewrite (Hvoted mid item r1 r2 H1 H2).
        assert (length (review_calls mid) = length (disagreeing pre)) as Hn.
        { subst mid. rewrite (run_calls analyze_paper r1_map r2_map step Hvoted Hunvoted).
          simpl. by rewrite length_fmap. }
        subst verdict stored review agree. unfold vote_block. rewrite Hn, <-Hab.
        destruct (is_ai_related r1), (is_ai_related r2); simpl;
          try destruct (rv_is_ai_related _); simpl; by rewrite ?app_nil_r.
      * rewrite app_assoc. f_equal. rewrite (Hvoted mid item r1 r2 H1 H2).
        assert (length (review_calls mid) = length (disagreeing pre)) as Hn.
        { subst mid. rewrite (run_calls analyze_paper r1_map r2_map step Hvoted Hunvoted).
          simpl. by rewrite length_fmap. }
        subst verdict stored review agree. unfold vote_block. rewrite Hn, <-Hnb.
        destruct (is_ai_related r1), (is_ai_related r2); simpl;
          try destruct (rv_is_ai_related _); simpl; by rewrite ?app_nil_r.
    + subst out. by rewrite (run_calls analyze_paper r1_map r2_map step Hvoted Hunvoted).
    + subst disagreeing agree. simpl. rewrite H1, H2.
      by destruct (is_ai_related r1), (is_ai_related r2).
  - intros a initial pre article post H1 H2 disagreeing review verdict stored out.
    split_and!.
    + subst out. rewrite foldl_app. cbn [foldl].
      set (mid := foldl _ (NatureScrape.start_loop initial) pre).
      destruct (analysis_run_lists a pre (NatureScrape.start_loop initial))
        as (ai_before & non_before & Hab & Hnb & Hbefore & Hrev).
      fold mid in Hab, Hnb, Hrev. simpl in Hab, Hnb, Hrev.
      destruct (analysis_run_lists a post
                  (NatureScrape.analysis_step a r1_map r2_map mid article))
        as (ai_after & non_after & Haa & Hna & Hafter & _).
      exists ai_before, ai_after, non_before, non_after.
      rewrite Haa, Hna. split_and!; [| |done|done].
      * rewrite !app_assoc. f_equal.
        subst verdict stored review agree. unfold NatureScrape.analysis_step.
        rewrite H1, H2, Hrev, <-Hab.
        destruct (is_ai_related r1), (is_ai_related r2); simpl;
          try destruct (rv_is_ai_related _); simpl; by rewrite ?app_nil_r.
      * rewrite app_assoc. f_equal.
        subst verdict stored review agree. unfold NatureScrape.analysis_step.
        rewrite H1, H2, Hrev, <-Hnb.
        destruct (is_ai_related r1), (is_ai_related r2); simpl;
          try destruct (rv_is_ai_related _); simpl; by rewrite ?app_nil_r.
    + subst out.
      destruct (analysis_run_lists a (pre ++ article :: post)
                  (NatureScrape.start_loop initial)) as (_ & _ & _ & _ & _ & Hrev).
      exact Hrev.
    + subst disagreeing agree. simpl. rewrite H1, H2.
      by destruct (is_ai_related r1), (is_ai_related r2).
Qed.

End ConsensusVerdict.

(** Witness for [consensus_verdict_rule]: the second of three papers, on
    which both passes say no; it is stored as not relevant with pass A's
    explanation, and the only single-item call of the run is the one for the
    third paper, on which the passes disagree. *)
Lemma consensus_verdict_rule_witness :
  Consensus.non_ai_papers
    (foldl (Consensus.step_incremental Examples.always_relevant
              Examples.three_votes_a Examples.three_votes_b)
           Consensus.empty_acc Examples.three_items)
  = [Consensus.set_reason "not related" Examples.item2]
  ∧ Consensus.review_calls
      (foldl (Consensus.step_incremental Examples.always_relevant
                Examples.three_votes_a Examples.three_votes_b)
             Consensus.empty_acc Examples.three_items)
    = [("Paper c", "Abstract of c")].
Proof.
  destruct (consensus_verdict_rule Examples.three_votes_a Examples.three_votes_b
              (Examples.no "2") (Examples.no "2")) as [Hloop _].
  destruct (Hloop Examples.always_relevant
              (Consensus.step_incremental Examples.always_relevant
                 Examples.three_votes_a Examples.three_votes_b)
              [Examples.item1'] Examples.item2 [Examples.item3]
              (or_intror eq_refl))
    as (_ & Hcalls & _); [vm_compute; reflexivity|vm_compute; reflexivity|].
  split; [vm_compute; reflexivity|].
  etrans; [exact Hcalls|]. vm_compute. reflexivity.
Defined.



(** ** The orchestrators' counters *)
Section RunFacts.
Import Agent Consensus DB Orchestrator.

Lemma process_incremental_batch analyze table0 journal_name papers r1 r2 :
  match process_incremental analyze table0 journal_name papers r1 r2 with
  | None => sort_by_date (ai_papers (classify_incremental analyze papers r1 r2)) = None
  | Some batch =>
      sort_by_date (ai_papers (classify_incremental analyze papers r1 r2)) ≠ None
      ∧ table0 `prefix_of` table_after batch
      ∧ get_paper_count (table_after batch) = get_paper_count table0 + saved_count batch
  end.
Proof.
  unfold process_incremental.
  destruct (sort_by_date _) as [sorted|]; [|done].
  pose proof (save_loop_grows table0 journal_name sorted) as (Hpre & Hcount & _).
  by destruct (save_loop table0 journal_name sorted).
Qed.

Lemma process_full_batch analyze table0 journal_name papers r1 r2 :
  let batch := process_full analyze table0 journal_name papers r1 r2 in
  table0 `prefix_of` table_after batch
  ∧ get_paper_count (table_after batch) = get_paper_count table0 + saved_count batch.
Proof.
  unfold process_full.
  pose proof (save_loop_grows table0 journal_name
                (ai_papers (classify_full analyze papers r1 r2))) as (Hpre & Hcount & _).
  by destruct (save_loop table0 journal_name _).
Qed.

Lemma incremental_subjournal_step label t sj :
  let t' := incremental_subjournal label t sj in
  table t `prefix_of` table t'
  ∧ get_paper_count (table t') - get_paper_count (table t) = total_saved t' - total_saved t
  ∧ total_subjournals t' = total_subjournals t + 1
  ∧ subjournal_success t' + subjournal_failed t'
    = subjournal_success t + subjournal_failed t + 1
      + (if fails_after_scrape sj then 1 else 0)
  ∧ Z.of_nat (length (failed_subjournal_names t')) - subjournal_failed t'
    = Z.of_nat (length (failed_subjournal_names t)) - subjournal_failed t.
Proof.
  unfold incremental_subjournal, fails_after_scrape.
  destruct (scraped sj) as [papers|]; simpl.
  - destruct (bool_decide (papers = [])); simpl; [split_and!; (done || lia)|].
    pose proof (process_incremental_batch (analyze_paper sj) (table t) (name sj) papers
                  (result1 sj) (result2 sj)) as Hb.
    destruct (process_incremental _ _ _ _ _ _) as [batch|]; simpl.
    + destruct Hb as (Hsome & Hpre & Hcount).
      rewrite bool_decide_eq_false_2 by done.
      split_and!; (done || lia).
    + rewrite Hb. simpl. rewrite length_app. simpl. split_and!; (done || lia).
  - rewrite length_app. simpl. split_and!; (done || lia).
Qed.


Lemma incremental_run_step label journal_list t :
  let t' := run_incremental_crawl label t journal_list in
  table t `prefix_of` table t'
  ∧ get_paper_count (table t') - get_paper_count (table t) = total_saved t' - total_saved t
  ∧ total_subjournals t' = total_subjournals t + Z.of_nat (length journal_list)
  ∧ subjournal_success t' + subjournal_failed t'
    = subjournal_success t + subjournal_failed t + Z.of_nat (length journal_list)
      + Z.of_nat (length (List.filter fails_after_scrape journal_list))
  ∧ Z.of_nat (length (failed_subjournal_names t')) - subjournal_failed t'
    = Z.of_nat (length (failed_subjournal_names t)) - subjournal_failed t.
Proof.
  unfold run_incremental_crawl. revert t.
  induction journal_list as [|sj journal_list IH]; intros t.
  - simpl. split_and!; (done || lia).
  - cbn [foldl List.filter length].
    destruct (IH (incremental_subjournal label t sj)) as (Hp & Hc & Ht & Hs & Hn).
    destruct (incremental_subjournal_step label t sj) as (Hp1 & Hc1 & Ht1 & Hs1 & Hn1).
    split_and!; [by etrans|lia|lia| |lia].
    rewrite Hs, Hs1. destruct (fails_after_scrape sj); simpl length; lia.
Qed.

(** X15.  The counters of an incremental run over one journal group, started
    from zero: [total_saved] is the number of rows the run added to the
    group's table, and rows are only ever appended; every sub-journal is
    counted in [total_subjournals]; and a sub-journal whose papers were
    scraped but whose processing then raised is counted both as a success
    and as a failure, so that successes and failures add up to the number of
    sub-journals plus the number of such sub-journals. *)
Theorem incremental_run_counters label table0 journal_list :
  let start := {| table := table0; total_papers := 0; total_saved := 0;
                  subjournal_success := 0; subjournal_failed := 0;
                  failed_subjournal_names := []; total_subjournals := 0 |} in
  let t := run_incremental_crawl label start journal_list in
  table0 `prefix_of` table t
  ∧ total_saved t = get_paper_count (table t) - get_paper_count table0
  ∧ total_subjournals t = Z.of_nat (length journal_list)
  ∧ subjournal_success t + subjournal_failed t
    = total_subjournals t + Z.of_nat (length (List.filter fails_after_scrape journal_list))
  ∧ subjournal_failed t = Z.of_nat (length (failed_subjournal_names t)).
Proof.
  intros start t. subst t.
  destruct (incremental_run_step label journal_list start) as (Hp & Hc & Ht & Hs & Hn).
  simpl in *. split_and!; [done|lia..].
Qed.

Lemma full_run_grows journal_list table0 papers0 saved0 :
  table0 `prefix_of` (run_full_crawl table0 papers0 saved0 journal_list).1
  ∧ ∀ papers1 saved1,
      (run_full_crawl table0 papers0 saved0 journal_list).2 = Some (papers1, saved1) →
      saved1 - saved0
      = get_paper_count (run_full_crawl table0 papers0 saved0 journal_list).1
        - get_paper_count table0
      ∧ Forall (λ sj, is_Some (scraped sj)) journal_list.
Proof.
  revert table0 papers0 saved0.
  induction journal_list as [|sj journal_list IH]; intros table0 papers0 saved0; simpl.
  - split; [done|]. intros ?? [= <- <-]. split; [lia|constructor].
  - destruct (scraped sj) as [papers|] eqn:Hsc; simpl; [|by split].
    destruct (bool_decide (papers = [])).
    + destruct (IH table0 papers0 saved0) as [Hp Hr]. split; [done|].
      intros p1 s1 Hrep. destruct (Hr p1 s1 Hrep) as [? ?].
      split; [done|]. constructor; [by rewrite Hsc|done].
    + pose proof (process_full_batch (analyze_paper sj) table0 (name sj) papers
                    (result1 sj) (result2 sj)) as [Hpre Hcount].
      set (batch := process_full _ _ _ _ _ _) in *.
      destruct (IH (table_after batch) (papers0 + Z.of_nat (length papers))
                  (saved0 + saved_count batch)) as [Hp Hr].
      split; [by etrans|].
      intros p1 s1 Hrep. destruct (Hr p1 s1 Hrep) as [? ?].
      split; [lia|]. constructor; [by rewrite Hsc|done].
Qed.

Lemma full_run_app before rest table0 papers0 saved0 :
  Forall (λ sj, is_Some (scraped sj)) before →
  ∃ papers1 saved1,
    (run_full_crawl table0 papers0 saved0 before).2 = Some (papers1, saved1)
    ∧ run_full_crawl table0 papers0 saved0 (before ++ rest)
      = run_full_crawl (run_full_crawl table0 papers0 saved0 before).1 papers1 saved1 rest.
Proof.
  revert table0 papers0 saved0.
  induction before as [|sj before IH]; intros table0 papers0 saved0 Hall; simpl.
  - eauto.
  - apply Forall_cons in Hall as [[papers Hsc] Hall]. rewrite Hsc.
    destruct (bool_decide (papers = [])); by apply IH.
Qed.

(** X16.  In a full crawl ([crawler/main_forward.py]) the first sub-journal
    whose scrape raises ends its journal group: the sub-journals after it are
    not processed, the report shows an error for the group instead of its
    counters, and the rows saved for the sub-journals before it stay in the
    table.  When no scrape raises, the reported [total_saved] is the number
    of rows added. *)
Theorem full_run_stops_at_first_failing_scrape table0 before sj rest :
  Forall (λ sj, is_Some (scraped sj)) before →
  scraped sj = None →
  run_full_crawl table0 0 0 (before ++ sj :: rest)
    = ((run_full_crawl table0 0 0 before).1, None)
  ∧ table0 `prefix_of` (run_full_crawl table0 0 0 before).1
  ∧ ∃ papers1 saved1,
      (run_full_crawl table0 0 0 before).2 = Some (papers1, saved1)
      ∧ saved1 = get_paper_count (run_full_crawl table0 0 0 before).1
                 - get_paper_count table0.
Proof.
  intros Hall Hsc.
  destruct (full_run_app before (sj :: rest) table0 0 0 Hall) as (p1 & s1 & Hrep & ->).
  destruct (full_run_grows before table0 0 0) as [Hpre Hr].
  simpl. rewrite Hsc. split_and!; [done|done|].
  exists p1, s1. split; [done|]. destruct (Hr p1 s1 Hrep) as [? _]. lia.
Qed.

Lemma light_subjournal_step t sj :
  let t' := light_subjournal t sj in
  light_ai_papers t' + light_non_ai_papers t' - light_total_papers t'
    = light_ai_papers t + light_non_ai_papers t - light_total_papers t
  ∧ successful_subjournals t' + Z.of_nat (length (failed_subjournals t'))
    = successful_subjournals t + Z.of_nat (length (failed_subjournals t)) + 1
  ∧ failed_subjournals t'
    = failed_subjournals t ++ match scraped sj with Some _ => [] | None => [name sj] end.
Proof.
  unfold light_subjournal. destruct (scraped sj) as [papers|]; simpl.
  - rewrite app_nil_r. destruct (bool_decide (papers = [])); simpl.
    + split_and!; (done || lia).
    + pose proof (light_run_conserves_items (analyze_paper sj) papers
                    (result1 sj) (result2 sj)) as Hcons.
      cbv zeta in Hcons. split_and!; (done || lia).
  - rewrite length_app. simpl. split_and!; (done || lia).
Qed.

(** X17.  The report of the light orchestrator for one journal group adds
    up: the papers counted as relevant and as not relevant are together the
    papers counted as scraped, every sub-journal is either counted as
    successful or listed as failed, and the failed ones are exactly those
    whose scrape raised, in order. *)
Theorem light_report_adds_up journal_list :
  let t := light_run journal_list in
  light_ai_papers t + light_non_ai_papers t = light_total_papers t
  ∧ successful_subjournals t + Z.of_nat (length (failed_subjournals t))
    = Z.of_nat (length journal_list)
  ∧ failed_subjournals t
    = name <$> List.filter (λ sj, negb (bool_decide (is_Some (scraped sj)))) journal_list.
Proof.
  unfold light_run.
  set (start := {| light_total_papers := 0; light_ai_papers := 0; light_non_ai_papers := 0;
                   successful_subjournals := 0; failed_subjournals := [] |}).
  assert (∀ l t,
            let t' := foldl light_subjournal t l in
            light_ai_papers t' + light_non_ai_papers t' - light_total_papers t'
              = light_ai_papers t + light_non_ai_papers t - light_total_papers t
            ∧ successful_subjournals t' + Z.of_nat (length (failed_subjournals t'))
              = successful_subjournals t + Z.of_nat (length (failed_subjournals t))
                + Z.of_nat (length l)
            ∧ failed_subjournals t'
              = failed_subjournals t
                ++ (name <$> List.filter (λ sj, negb (bool_decide (is_Some (scraped sj)))) l))
    as Hgen.
  { induction l as [|sj l IH]; intros t.
    - simpl. rewrite app_nil_r. split_and!; (done || lia).
    - cbn [foldl List.filter length].
      destruct (IH (light_subjournal t sj)) as (Hc & Hs & Hf).
      destruct (light_subjournal_step t sj) as (Hc1 & Hs1 & Hf1).
      split_and!; [lia|lia|].
      rewrite Hf, Hf1, <-app_assoc. f_equal.
      destruct (scraped sj); simpl; done. }
  destruct (Hgen journal_list start) as (Hc & Hs & Hf). simpl in *.
  split_and!; [lia|lia|done].
Qed.

End RunFacts.


(** ** The fetch loops: waiting time, and the PLOS and Cell variants *)
Section FetchVariants.
Import Fetch.

(** X18.  [get_page_with_retry_plos] with its default of 8 attempts: it
    makes at most 8 calls of [session.get] and never turns to the browser;
    every call comes right after a random choice of the User-Agent and, from
    the second call on, after a sleep of [random.uniform(8, 20)] seconds
    times the number of the attempt; it returns a response exactly when some
    call returns status 200 (the first such call's response) and [None]
    exactly when none of the 8 does. *)
Theorem get_page_with_retry_plos_policy w :
  plos_samples_in_range w →
  let events := (get_page_with_retry_plos w 8).1 in
  let result := (get_page_with_retry_plos w 8).2 in
  (length (List.filter is_get events) ≤ 8)%nat
  ∧ (SeleniumGet ∉ events)
  ∧ (∀ k, Get k ∈ events →
       (∃ pre post,
          events = pre ++ [SetUserAgent k (ua_choice w k)]
                       ++ (if bool_decide (0 < k)%nat
                           then [Sleep (backoff w k * (Z.of_nat k + 1))] else [])
                       ++ [Get k] ++ post)
       ∧ 8000 * (Z.of_nat k + 1) ≤ backoff w k * (Z.of_nat k + 1) ≤ 20000 * (Z.of_nat k + 1))
  ∧ (∀ k, result = PlainResponse k ↔
          (k < 8)%nat ∧ http w k = Status 200 ∧ ∀ j, (j < k)%nat → http w j ≠ Status 200)
  ∧ (result = NoResponse ↔ ∀ k, (k < 8)%nat → http w k ≠ Status 200).
Proof.
  intros Hrange events result. subst events result.
  unfold get_page_with_retry_plos.
  pose proof (gets_bound w 8 0) as Hgets.
  pose proof (selenium_not_in_plain_phase w 8 0) as Hsel.
  pose proof (all_failed w 8 0) as Hall.
  pose proof (first_success w 8 0) as Hfirst.
  assert (∀ k, Get k ∈ (plain_phase w 8 0).1 →
            (∃ pre post,
               (plain_phase w 8 0).1
               = pre ++ [SetUserAgent k (ua_choice w k)]
                     ++ (if bool_decide (0 < k)%nat
                         then [Sleep (backoff w k * (Z.of_nat k + 1))] else [])
                     ++ [Get k] ++ post)
            ∧ 8000 * (Z.of_nat k + 1) ≤ backoff w k * (Z.of_nat k + 1)
              ≤ 20000 * (Z.of_nat k + 1)) as Hcontext.
  { intros k Hin. split.
    - destruct (request_context w _ _ _ Hin) as (pre & post & Heq).
      exists pre, post. rewrite Heq. unfold request_events.
      simpl. by rewrite <-!app_assoc.
    - destruct (Hrange k) as ((? & ?) & _). nia. }
  destruct (plain_phase w 8 0) as [events [k0|]] eqn:Hphase; cbn [fst snd] in *.
  - destruct (Hfirst k0 eq_refl) as (Hok & Hk0 & Hbefore).
    split; [done|]. split; [done|]. split; [done|]. split.
    + intros k. split.
      * intros [= <-]. split_and!; [lia|done|]. intros j Hj. apply Hbefore. lia.
      * intros (Hk & Hkok & Hkbefore). f_equal.
        destruct (Nat.lt_trichotomy k k0) as [Hlt|[Heq|Hgt]]; [|done|].
        -- destruct (Hbefore k); [lia|done].
        -- destruct (Hkbefore k0); [lia|done].
    + split; [done|]. intros Hnone. destruct (Hnone k0); [lia|done].
  - split; [done|]. split; [done|]. split; [done|]. split.
    + intros k. split; [done|]. intros (Hk & Hkok & _).
      destruct (Hall eq_refl k) as [_ Hne]; [lia|done].
    + split; [|done]. intros _ k Hk. destruct (Hall eq_refl k) as [_ Hne]; [lia|done].
Qed.

End FetchVariants.


(** ** [CellParser._get_page_with_retry] *)
Section CellFetchFacts.
Import CellFetch.
Variable w : World.
Variable c : Config.

Lemma gets_of_cell_request_events attempt :
  List.filter Fetch.is_get (request_events w attempt) = [Fetch.Get attempt]
  ∧ (Fetch.SeleniumGet ∉ request_events w attempt).
Proof.
  unfold request_events. case_bool_decide; simpl; (split; [done|]);
    rewrite !elem_of_cons, elem_of_nil; intros Hin;
    repeat (destruct Hin as [Hin|Hin]); done.
Qed.

(** What one turn of the loop does: one request, and no exception gets past
    the handler. *)
Lemma try_statement_spec attempt :
  List.filter Fetch.is_get (try_statement w c attempt).1 = [Fetch.Get attempt]
  ∧ (Fetch.SeleniumGet ∉ (try_statement w c attempt).1)
  ∧ match (try_statement w c attempt).2 with
    | Return k => k = attempt ∧ acceptable (http w attempt) = true
    | Raise _ => False
    | Break => acceptable (http w attempt) = false ∧ ¬ (attempt < max_retries c - 1)%nat
    | Continue | Done => acceptable (http w attempt) = false
    end.
Proof.
  destruct (gets_of_cell_request_events attempt) as [Hgets Hsel].
  unfold try_statement, try_body, acceptable, more_to_come.
  destruct (http w attempt) as [status_code text_length|]; simpl.
  - destruct (status_code =? 403) eqn:H403; simpl.
    { repeat case_bool_decide; simpl; (split; [done|]; split; [done|]);
        (done || (split; [done|lia])). }
    destruct (status_code =? 429) eqn:H429; simpl.
    { case_bool_decide; simpl; [|by split_and!].
      rewrite List.filter_app, Hgets. simpl. split; [done|]. split; [|done].
      rewrite elem_of_app, list_elem_of_singleton. intros [?|?]; done. }
    destruct ((400 <=? status_code) && (status_code <? 600)) eqn:Herr; simpl.
    { case_bool_decide; simpl; (split; [done|]; split; [done|]);
        (done || (split; [done|lia])). }
    repeat case_bool_decide; simpl; (split; [done|]; split; [done|]);
      (done || (split; [done|lia])).
  - case_bool_decide; simpl; (split; [done|]; split; [done|]);
      (done || (split; [done|lia])).
Qed.

Lemma plain_phase_spec remaining attempt :
  (attempt + remaining = max_retries c)%nat →
  (Fetch.SeleniumGet ∉ (plain_phase w c remaining attempt).1)
  ∧ match (plain_phase w c remaining attempt).2 with
    | Some (PlainResponse k) =>
        (attempt ≤ k < max_retries c)%nat
        ∧ acceptable (http w k) = true
        ∧ (∀ j, (attempt ≤ j < k)%nat → acceptable (http w j) = false)
        ∧ List.filter Fetch.is_get (plain_phase w c remaining attempt).1
          = Fetch.Get <$> seq attempt (S k - attempt)
    | Some _ => False
    | None =>
        (∀ j, (attempt ≤ j < max_retries c)%nat → acceptable (http w j) = false)
        ∧ List.filter Fetch.is_get (plain_phase w c remaining attempt).1
          = Fetch.Get <$> seq attempt remaining
    end.
Proof.
  revert attempt. induction remaining as [|remaining IH]; intros attempt Hsum.
  - simpl. split; [apply not_elem_of_nil|]. split; [|done]. intros j Hj. lia.
  - cbn [plain_phase].
    destruct (try_statement_spec attempt) as (Hgets & Hsel & Hflow).
    destruct (try_statement w c attempt) as [events flow]. cbn [fst snd] in *.
    specialize (IH (S attempt)).
    destruct flow as [k| | |message|]; cbn [fst snd].
    + destruct Hflow as [-> Hok]. split; [done|].
      split_and!; [lia|lia|done| |].
      * intros j Hj. lia.
      * replace (S attempt - attempt)%nat with 1%nat by lia. done.
    + destruct (plain_phase w c remaining (S attempt)) as [later r]. cbn [fst snd] in *.
      destruct IH as [Hsel' Hr]; [lia|].
      split; [rewrite elem_of_app; intros [?|?]; done|].
      rewrite List.filter_app, Hgets.
      destruct r as [[k| | |]|]; try done.
      * destruct Hr as (Hk & Hok & Hbefore & Hlater). split_and!; [lia|lia|done| |].
        -- intros j Hj. destruct (decide (j = attempt)) as [->|]; [done|].
           apply Hbefore. lia.
        -- rewrite Hlater. replace (S k - attempt)%nat with (S (S k - S attempt)) by lia.
           done.
      * destruct Hr as [Hall Hlater]. split.
        -- intros j Hj. destruct (decide (j = attempt)) as [->|]; [done|].
           apply Hall. lia.
        -- by rewrite Hlater.
    + destruct Hflow as [Hbad Hlast]. split; [done|]. split.
      * intros j Hj. by replace j with attempt by lia.
      * rewrite Hgets. by replace remaining with 0%nat by lia.
    + done.
    + destruct (plain_phase w c remaining (S attempt)) as [later r]. cbn [fst snd] in *.
      destruct IH as [Hsel' Hr]; [lia|].
      split; [rewrite elem_of_app; intros [?|?]; done|].
      rewrite List.filter_app, Hgets.
      destruct r as [[k| | |]|]; try done.
      * destruct Hr as (Hk & Hok & Hbefore & Hlater). split_and!; [lia|lia|done| |].
        -- intros j Hj. destruct (decide (j = attempt)) as [->|]; [done|].
           apply Hbefore. lia.
        -- rewrite Hlater. replace (S k - attempt)%nat with (S (S k - S attempt)) by lia.
           done.
      * destruct Hr as [Hall Hlater]. split.
        -- intros j Hj. destruct (decide (j = attempt)) as [->|]; [done|].
           apply Hall. lia.
        -- by rewrite Hlater.
Qed.

Lemma selenium_phase_spec :
  List.filter Fetch.is_get (selenium_phase w c).1 = []
  ∧ (length (List.filter Fetch.is_selenium_get (selenium_phase w c).1)
     ≤ 2)%nat
  ∧ (Fetch.SeleniumGet ∈ (selenium_phase w c).1 → use_selenium c = true)
  ∧ match (selenium_phase w c).2 with
    | MockResponse text =>
        (1000 < PyStr.len text)%nat
        ∧ (browser w 0 = Some text
           ∨ (page_ok (browser w 0) = None ∧ browser w 1 = Some text))
    | NoResponse =>
        use_selenium c && (has_driver c || init_driver w) = true →
        page_ok (browser w 0) = None ∧ page_ok (browser w 1) = None
    | _ => False
    end.
Proof.
  unfold selenium_phase.
  destruct (use_selenium c); simpl;
    [|split_and!; [done|lia|by intros ?%elem_of_nil|done]].
  destruct (has_driver c || init_driver w); simpl;
    [|split_and!; [done|lia|done|done]].
  assert (∀ p text, page_ok p = Some text → p = Some text ∧ (1000 < PyStr.len text)%nat)
    as Hok.
  { intros [t|] text; simpl; [|done]. case_bool_decide; [|done]. by intros [= <-]. }
  destruct (page_ok (browser w 0)) as [text|] eqn:H0; simpl.
  - apply Hok in H0 as [? ?]. split_and!; [done|lia|done|done|auto].
  - destruct (page_ok (browser w 1)) as [text|] eqn:H1; simpl.
    + apply Hok in H1 as [? ?]. split_and!; [done|lia|done|done|auto].
    + split_and!; [done|lia|done|done].
Qed.

(** X20.  [_get_page_with_retry] never lets an exception out, also not the
    "403 Forbidden after ... attempts" it raises itself: that [raise] sits
    in the [try] whose handler turns it into a [break].  When every attempt
    is answered with status 403, [max_retries] requests are made, one per
    attempt, and the result is whatever the browser phase gives ([None] if
    Selenium is not in use). *)
Theorem cell_fetch_never_raises :
  (∀ message, (get_page_with_retry w c).2 ≠ Raised message)
  ∧ ((∀ k, (k < max_retries c)%nat → ∃ n, http w k = Answer 403 n) →
     List.filter Fetch.is_get (get_page_with_retry w c).1
       = Fetch.Get <$> seq 0 (max_retries c)
     ∧ (get_page_with_retry w c).2 = (selenium_phase w c).2
     ∧ (use_selenium c = false → (get_page_with_retry w c).2 = NoResponse)).
Proof.
  unfold get_page_with_retry.
  destruct (plain_phase_spec (max_retries c) 0) as [_ Hplain]; [lia|].
  destruct selenium_phase_spec as (Hsg & _ & _ & Hsr).
  destruct (plain_phase w c (max_retries c) 0) as [events [r|]]; cbn [fst snd] in *.
  - destruct r as [k| | |]; try done. split; [done|].
    intros Hall. destruct Hplain as (Hk & Hok & _).
    destruct (Hall k) as [n Hn]; [lia|]. by rewrite Hn in Hok.
  - split.
    + intros message Heq. by rewrite Heq in Hsr.
    + intros _. destruct Hplain as [_ Hgets].
      rewrite List.filter_app, Hgets, Hsg, app_nil_r. split_and!; [done|done|].
      unfold selenium_phase. by intros ->.
Qed.

(** X21.  [_get_page_with_retry] returns the response of the first attempt
    whose status is neither 403, 429 nor another error status and whose text
    is longer than 1000 characters.  If no attempt gives such a response,
    all [max_retries] requests are made before the browser is asked, the
    browser is asked at most twice, and a page it delivers is returned only
    if it is longer than 1000 characters ([len] counts characters, not
    bytes); otherwise the result is [None]. *)
Theorem cell_fetch_policy :
  let events := (get_page_with_retry w c).1 in
  let result := (get_page_with_retry w c).2 in
  (∀ k, result = PlainResponse k ↔
        (k < max_retries c)%nat ∧ acceptable (http w k) = true
        ∧ ∀ j, (j < k)%nat → acceptable (http w j) = false)
  ∧ (∀ k, result = PlainResponse k →
          List.filter Fetch.is_get events = Fetch.Get <$> seq 0 (S k)
          ∧ (Fetch.SeleniumGet ∉ events))
  ∧ (Fetch.SeleniumGet ∈ events →
       use_selenium c = true
       ∧ (∀ k, (k < max_retries c)%nat → acceptable (http w k) = false)
       ∧ List.filter Fetch.is_get events = Fetch.Get <$> seq 0 (max_retries c))
  ∧ (length (List.filter Fetch.is_selenium_get events) ≤ 2)%nat
  ∧ (∀ text, result = MockResponse text →
       (1000 < PyStr.len text)%nat ∧ (browser w 0 = Some text ∨ browser w 1 = Some text))
  ∧ (result = NoResponse →
       (∀ k, (k < max_retries c)%nat → acceptable (http w k) = false)
       ∧ (use_selenium c && (has_driver c || init_driver w) = true →
            ∀ i text, (i < 2)%nat → browser w i = Some text →
                      (PyStr.len text ≤ 1000)%nat)).
Proof.
  intros events result. subst events result. unfold get_page_with_retry.
  destruct (plain_phase_spec (max_retries c) 0) as [Hnosel Hplain]; [lia|].
  destruct selenium_phase_spec as (Hsg & Hcount & Huse & Hsr).
  destruct (plain_phase w c (max_retries c) 0) as [events [r|]]; cbn [fst snd] in *.
  - destruct r as [k0| | |]; try done.
    destruct Hplain as (Hk0 & Hok & Hbefore & Hgets).
    rewrite Nat.sub_0_r in Hgets.
    assert (List.filter Fetch.is_selenium_get events = []) as Hnone.
    { apply filter_none, Forall_forall. intros e He.
      destruct e; try done. }
    split_and!; [|by intros k [= <-]|done|rewrite Hnone; simpl; lia|done|done].
    intros k. split.
    + intros [= <-]. split_and!; [lia|done|]. intros j Hj. apply Hbefore. lia.
    + intros (Hk & Hkok & Hkbefore). f_equal.
      destruct (Nat.lt_trichotomy k k0) as [Hlt|[Heq|Hgt]]; [|done|].
      * rewrite Hbefore in Hkok by lia. done.
      * rewrite Hkbefore in Hok by lia. done.
  - destruct Hplain as [Hall Hgets].
    assert (List.filter Fetch.is_selenium_get events = []) as Hnone.
    { apply filter_none, Forall_forall. intros e He.
      destruct e; try done. }
    split_and!.
    + intros k. split.
      * intros Heq. by rewrite Heq in Hsr.
      * intros (Hk & Hkok & _). rewrite Hall in Hkok by lia. done.
    + intros k Heq. by rewrite Heq in Hsr.
    + rewrite elem_of_app. intros [?|Hin]; [done|].
      split_and!; [by apply Huse|intros k Hk; apply Hall; lia|].
      by rewrite List.filter_app, Hgets, Hsg, app_nil_r.
    + by rewrite List.filter_app, Hnone.
    + intros text Heq. rewrite Heq in Hsr. destruct Hsr as [? Hb].
      split; [done|]. destruct Hb as [?|[_ ?]]; auto.
    + intros Heq. split; [intros k Hk; apply Hall; lia|].
      rewrite Heq in Hsr. intros Hon i text Hi Hb.
      destruct (Hsr Hon) as [H0 H1].
      assert (page_ok (browser w i) = None) as Hnot.
      { destruct i as [|[|i]]; [done|done|lia]. }
      rewrite Hb in Hnot. simpl in Hnot. case_bool_decide; [done|lia].
Qed.

End CellFetchFacts.


(** ** The archives of the papers found not relevant *)
Section ArchiveFacts.
Import Consensus Archive.
Variable strftime : Z → string.

Lemma insert_by_date_perm x l : insert_by_date x l ≡ₚ x :: l.
Proof.
  induction l as [|y l IH]; simpl; [done|].
  destruct (String.ltb (e_date x) (e_date y)); [|done].
  rewrite IH. apply Permutation_swap.
Qed.

Lemma sort_by_date_desc_perm l : sort_by_date_desc l ≡ₚ l.
Proof.
  induction l as [|x l IH]; simpl; [done|].
  fold (sort_by_date_desc l). by rewrite insert_by_date_perm, IH.
Qed.

Lemma ltb_asym a b : String.ltb a b = true → String.ltb b a = false.
Proof.
  unfold String.ltb. rewrite (String.compare_antisym a b).
  by destruct (String.compare b a).
Qed.

Lemma insert_by_date_descending x l : descending l → descending (insert_by_date x l).
Proof.
  unfold descending. induction l as [|y l IH]; intros Hs; simpl.
  - repeat constructor.
  - inversion Hs as [|? ? Hs' Hhd]; subst.
    destruct (String.ltb (e_date x) (e_date y)) eqn:Hlt.
    + constructor; [by apply IH|].
      destruct l as [|z l]; simpl.
      * constructor. by apply ltb_asym.
      * destruct (String.ltb (e_date x) (e_date z)); constructor;
          [by inversion Hhd|by apply ltb_asym].
    + constructor; [done|]. by constructor.
Qed.

Lemma sort_by_date_desc_descending l : descending (sort_by_date_desc l).
Proof.
  induction l as [|x l IH]; simpl; [constructor|]. by apply insert_by_date_descending.
Qed.

(** Sorting a sorted archive changes nothing. *)
Lemma sort_by_date_desc_id l : descending l → sort_by_date_desc l = l.
Proof.
  unfold descending. induction l as [|x l IH]; intros Hs; simpl; [done|].
  inversion Hs as [|? ? Hs' Hhd]; subst. fold (sort_by_date_desc l).
  rewrite IH by done. destruct l as [|y l]; simpl; [done|].
  inversion Hhd as [|? ? Hxy]; subst. by rewrite Hxy.
Qed.

Lemma elem_of_dois_of d l : d ∈ dois_of l ↔ d ≠ "" ∧ d ∈ e_doi <$> l.
Proof.
  unfold dois_of. rewrite elem_of_list_to_set, list_elem_of_In, List.filter_In.
  rewrite <-list_elem_of_In, negb_true_iff, String.eqb_neq. tauto.
Qed.

Lemma merge_step_spec st paper :
  (∀ d, d ∈ st.2 ↔ d ≠ "" ∧ d ∈ e_doi <$> st.1) →
  (∀ d, d ∈ (merge_step st paper).2 ↔ d ≠ "" ∧ d ∈ e_doi <$> (merge_step st paper).1)
  ∧ (e_doi paper ≠ "" → e_doi paper ∈ (merge_step st paper).2)
  ∧ st.2 ⊆ (merge_step st paper).2
  ∧ ((merge_step st paper).1 = st.1
     ∨ ((merge_step st paper).1 = st.1 ++ [paper]
        ∧ e_doi paper ≠ "" ∧ e_doi paper ∉ e_doi <$> st.1)).
Proof.
  intros Hinv. unfold merge_step.
  destruct (String.eqb_spec (e_doi paper) "") as [Hempty|Hdoi]; simpl.
  { split_and!; [done|done|done|auto]. }
  case_bool_decide as Hin; simpl.
  { split_and!; [done|done|done|auto]. }
  split_and!.
  - intros d. rewrite elem_of_union, elem_of_singleton, Hinv, fmap_app, elem_of_app.
    simpl. rewrite list_elem_of_singleton. split.
    + intros [[? ?]| ->]; auto.
    + intros [? [?| ->]]; auto.
  - intros _. apply elem_of_union. right. by apply elem_of_singleton.
  - apply union_subseteq_l.
  - right. split_and!; [done|done|]. intros Hd. apply Hin, Hinv. done.
Qed.

Lemma merge_spec papers st :
  (∀ d, d ∈ st.2 ↔ d ≠ "" ∧ d ∈ e_doi <$> st.1) →
  (∀ d, d ∈ (foldl merge_step st papers).2
        ↔ d ≠ "" ∧ d ∈ e_doi <$> (foldl merge_step st papers).1)
  ∧ (∀ p, p ∈ papers → e_doi p ≠ "" → e_doi p ∈ (foldl merge_step st papers).2)
  ∧ st.2 ⊆ (foldl merge_step st papers).2
  ∧ ∃ added,
      (foldl merge_step st papers).1 = st.1 ++ added
      ∧ added `sublist_of` papers
      ∧ Forall (λ e, e_doi e ≠ "") added
      ∧ (NoDup (filter (λ d, d ≠ "") (e_doi <$> st.1)) →
         NoDup (filter (λ d, d ≠ "") (e_doi <$> st.1 ++ added))).
Proof.
  revert st. induction papers as [|paper papers IH]; intros st Hinv.
  - simpl. split_and!; [done|by intros ? ?%elem_of_nil|done|].
    exists []. rewrite app_nil_r. split_and!; [done|done|constructor|done].
  - cbn [foldl].
    destruct (merge_step_spec st paper Hinv) as (Hinv1 & Hin1 & Hsub1 & Hcase).
    destruct (IH (merge_step st paper) Hinv1) as (Hinv2 & Hin2 & Hsub2 & added & Hadd & Hsl & Hne & Hnd).
    split_and!; [done| |by etrans|].
    + intros p [->|Hp]%elem_of_cons Hdoi; [|by apply Hin2].
      apply Hsub2. by apply Hin1.
    + destruct Hcase as [Heq|(Heq & Hdoi & Hnew)]; rewrite Heq in Hadd, Hnd.
      * exists added. split_and!; [done|by apply sublist_cons|done|done].
      * exists (paper :: added). rewrite <-app_assoc in Hadd.
        split_and!; [done|by apply sublist_skip|by constructor|].
        intros Hnd0. rewrite (assoc_L (++) _ [paper] added). apply Hnd.
        rewrite fmap_app, filter_app. simpl.
        rewrite filter_cons, decide_True, filter_nil by done.
        apply NoDup_app. split_and!; [done| |apply NoDup_singleton].
        intros d [_ Hd]%list_elem_of_filter ->%list_elem_of_singleton. done.
Qed.

Lemma merge_noop papers st :
  (∀ p, p ∈ papers → e_doi p ≠ "" → e_doi p ∈ st.2) →
  foldl merge_step st papers = st.
Proof.
  induction papers as [|paper papers IH]; intros Hall; [done|].
  cbn [foldl].
  assert (merge_step st paper = st) as ->.
  { unfold merge_step. destruct (String.eqb_spec (e_doi paper) "") as [?|Hdoi]; [done|].
    simpl. rewrite bool_decide_eq_true_2; [done|]. apply Hall; [left|done]. }
  apply IH. intros p Hp. apply Hall. by right.
Qed.

Lemma save_backward_spec file non_ai_papers :
  let existing := match file with Content papers => papers | _ => [] end in
  ∃ added,
    save_backward strftime file non_ai_papers
      = Content (sort_by_date_desc (existing ++ added))
    ∧ added `sublist_of` paper_data strftime <$> non_ai_papers
    ∧ Forall (λ e, e_doi e ≠ "") added
    ∧ (∀ p, p ∈ non_ai_papers → doi p ≠ "" → doi p ∈ e_doi <$> existing ++ added)
    ∧ (NoDup (filter (λ d, d ≠ "") (e_doi <$> existing)) →
       NoDup (filter (λ d, d ≠ "") (e_doi <$> existing ++ added))).
Proof.
  intros existing. unfold save_backward. fold existing.
  destruct (merge_spec (paper_data strftime <$> non_ai_papers) (existing, dois_of existing))
    as (Hinv & Hin & _ & added & Hadd & Hsl & Hne & Hnd).
  { intros d. apply elem_of_dois_of. }
  simpl in Hadd, Hnd. exists added. rewrite Hadd. split_and!; [done..| |done].
  intros p Hp Hdoi. rewrite Hadd in Hinv.
  apply (Hinv (doi p)), (Hin (paper_data strftime p)); [|done].
  by apply list_elem_of_fmap_2.
Qed.

(** X22.  The archive of the incremental orchestrator is merged by DOI.
    Nothing that was in the file is lost (unless the file could not be read:
    then it is replaced).  A paper is added only if it has a DOI, so a paper
    without DOI is never archived; every paper with a DOI is represented in
    the file afterwards; if no DOI occurred twice before, none does
    afterwards; and the file is written sorted by date string, greatest
    first. *)
Theorem archive_backward_merges_by_doi file non_ai_papers :
  let existing := match file with Content papers => papers | _ => [] end in
  ∃ written,
    save_backward strftime file non_ai_papers = Content written
    ∧ descending written
    ∧ (∀ e, e ∈ existing → e ∈ written)
    ∧ (∀ e, e ∈ written →
            e ∈ existing ∨ (e_doi e ≠ "" ∧ e ∈ paper_data strftime <$> non_ai_papers))
    ∧ (∀ p, p ∈ non_ai_papers → doi p ≠ "" → ∃ e, e ∈ written ∧ e_doi e = doi p)
    ∧ (NoDup (filter (λ d, d ≠ "") (e_doi <$> existing)) →
       NoDup (filter (λ d, d ≠ "") (e_doi <$> written))).
Proof.
  intros existing.
  destruct (save_backward_spec file non_ai_papers)
    as (added & Hsave & Hsl & Hne & Hin & Hnd).
  fold existing in Hsave, Hin, Hnd.
  exists (sort_by_date_desc (existing ++ added)).
  split_and!; [done|apply sort_by_date_desc_descending|..].
  - intros e He. rewrite sort_by_date_desc_perm, elem_of_app. auto.
  - intros e. rewrite sort_by_date_desc_perm, elem_of_app. intros [?|He]; [by left|].
    right. split.
    + rewrite Forall_forall in Hne. by apply Hne.
    + by eapply elem_of_sublist.
  - intros p Hp Hdoi. specialize (Hin p Hp Hdoi).
    apply list_elem_of_fmap in Hin as (e & He & Hine).
    exists e. by rewrite sort_by_date_desc_perm.
  - intros Hnd0. rewrite sort_by_date_desc_perm. by apply Hnd.
Qed.

(** X23.  Archiving the same papers a second time changes nothing: the
    second call writes back the file the first call wrote. *)
Theorem archive_backward_idempotent file non_ai_papers :
  save_backward strftime (save_backward strftime file non_ai_papers) non_ai_papers
  = save_backward strftime file non_ai_papers.
Proof.
  destruct (save_backward_spec file non_ai_papers)
    as (added & Hsave & Hsl & Hne & Hin & Hnd).
  rewrite Hsave. unfold save_backward at 1.
  set (written := sort_by_date_desc (_ ++ added)).
  rewrite merge_noop.
  - simpl. f_equal. apply sort_by_date_desc_id, sort_by_date_desc_descending.
  - intros e (p & -> & Hp)%list_elem_of_fmap Hdoi. simpl in *.
    apply elem_of_dois_of. split; [done|].
    subst written. rewrite sort_by_date_desc_perm. by apply Hin.
Qed.

(** X24.  The archive of the full orchestrator is merged by title.  An
    unreadable file is left alone (the incremental orchestrator replaces
    it); a file is not rewritten when every title is already in it;
    otherwise the papers with a new title are added, all of them, also when
    two of the batch share a title, and the file is written sorted by date
    string, greatest first. *)
Theorem archive_forward_merges_by_title file non_ai_papers :
  let existing := match file with Content papers => papers | _ => [] end in
  let new_papers := filter (λ e, e_title e ∉ e_title <$> existing)
                           (paper_data strftime <$> non_ai_papers) in
  match file with
  | Unreadable =>
      save_forward strftime file non_ai_papers = Unreadable
      ∧ save_backward strftime file non_ai_papers
        = save_backward strftime Missing non_ai_papers
  | _ =>
      (new_papers = [] → save_forward strftime file non_ai_papers = file)
      ∧ (new_papers ≠ [] →
         ∃ written,
           save_forward strftime file non_ai_papers = Content written
           ∧ written ≡ₚ existing ++ new_papers
           ∧ descending written)
  end.
Proof.
  intros existing new_papers.
  assert (List.filter (λ p, negb (bool_decide (e_title p ∈
             (list_to_set (e_title <$> existing) : gset string))))
            (paper_data strftime <$> non_ai_papers) = new_papers) as Hnew.
  { subst new_papers. induction (paper_data strftime <$> non_ai_papers) as [|e l IH];
      [done|].
    simpl. rewrite filter_cons, IH.
    destruct (decide (e_title e ∉ e_title <$> existing)) as [Hn|Hn].
    - rewrite bool_decide_eq_false_2; [done|]. by rewrite elem_of_list_to_set.
    - rewrite bool_decide_eq_true_2; [done|]. rewrite elem_of_list_to_set.
      by apply dec_stable. }
  destruct file as [| |papers]; [|done|]; unfold save_forward; fold existing;
    rewrite Hnew; (split; [intros ->; done|]); intros Hne;
    rewrite bool_decide_eq_false_2 by done;
    (eexists; split_and!;
       [done|apply sort_by_date_desc_perm|apply sort_by_date_desc_descending]).
Qed.

(** X25.  The full orchestrator archives its non-relevant papers without
    their link: the archive dict reads the link from the key [url], which
    the items of the full crawl do not have.  The incremental orchestrator,
    whose items have the key, archives each with the URL of one of the
    scraped papers. *)
Theorem full_crawl_archives_no_link analyze_paper papers result1 result2 :
  (∀ e, e ∈ paper_data strftime
              <$> non_ai_papers (classify_full analyze_paper papers result1 result2) →
        e_link e = "")
  ∧ (∀ e, e ∈ paper_data strftime
                <$> non_ai_papers (classify_incremental analyze_paper papers result1 result2) →
          e_link e ∈ p_url <$> papers).
Proof.
  split; intros e (it & -> & Hit)%list_elem_of_fmap; simpl.
  - apply run_urls in Hit as (p & Hp & ->). done.
  - apply run_urls in Hit as (p & Hp & ->). simpl. by apply list_elem_of_fmap_2.
Qed.

End ArchiveFacts.


(** ** The strict pass of the Science year page *)
Section RelaxedStrict.
Import Relaxed.


End RelaxedStrict.


(** Witness for [completion_order_is_irrelevant]: three papers in batches
    of two, the batches completing in either order. *)
Lemma completion_order_is_irrelevant_witness :
  Agent.batch_analyze_papers_in_batches_concurrent Examples.echo [0; 1]%nat
    ["1"; "2"; "3"] 2 = Some [Examples.yes "1"; Examples.yes "2"; Examples.yes "3"]
  ∧ Agent.batch_analyze_papers_in_batches_concurrent Examples.echo [1; 0]%nat
      ["1"; "2"; "3"] 2 = Some [Examples.yes "3"; Examples.yes "1"; Examples.yes "2"]
  ∧ Consensus.results_map [Examples.yes "1"; Examples.yes "2"; Examples.yes "3"]
    = Consensus.results_map [Examples.yes "3"; Examples.yes "1"; Examples.yes "2"].
Proof.
  assert (Agent.batch_analyze_papers_in_batches_concurrent Examples.echo [0; 1]%nat
            ["1"; "2"; "3"] 2 = Some [Examples.yes "1"; Examples.yes "2"; Examples.yes "3"])
    as H1 by (vm_compute; reflexivity).
  assert (Agent.batch_analyze_papers_in_batches_concurrent Examples.echo [1; 0]%nat
            ["1"; "2"; "3"] 2 = Some [Examples.yes "3"; Examples.yes "1"; Examples.yes "2"])
    as H2 by (vm_compute; reflexivity).
  assert (NoDup (Agent.v_id <$> [Examples.yes "1"; Examples.yes "2"; Examples.yes "3"]))
    as Hnd by (apply (bool_decide_unpack _); vm_compute; exact I).
  split; [exact H1|]. split; [exact H2|].
  exact (completion_order_is_irrelevant Examples.echo [0; 1]%nat [1; 0]%nat
           ["1"; "2"; "3"] 2 _ _ (perm_swap 1%nat 0%nat []) H1 H2 Hnd).
Defined.

(** Witness for [crawl_skips_known_papers]: the card dated 10 of the
    pagination example. *)
Lemma crawl_skips_known_papers_witness :
  Nature.doi (Nature.info_of_card "Nature" "research-articles" (Examples.card_dated 10))
  = "10"
  ∧ Nature.type_ (Nature.info_of_card "Nature" "research-articles" (Examples.card_dated 10))
    = "research-articles".
Proof.
  assert (Nature.info_of_card "Nature" "research-articles" (Examples.card_dated 10)
          ∈ Nature.card_infos
              (Nature.crawl_stream (Some 6) (Some 11) (λ _, false) ∅ "Nature"
                 "research-articles" Examples.stream_3_2 Nature.init)) as Hin
    by (vm_compute; left).
  destruct (crawl_skips_known_papers (Some 6) (Some 11) (λ _, false) "Nature" ∅
              "research-articles" Examples.stream_3_2 _ Hin) as (_ & _ & Hdoi & _ & Htype).
  split; [|exact Htype]. etrans; [exact Hdoi|]. vm_compute. reflexivity.
Defined.

(** Witness for [scrape_returns_every_candidate_of_last_stream]: the
    research card dated 9 was found not relevant and is returned all the
    same. *)
Lemma scrape_returns_every_candidate_of_last_stream_witness :
  ∃ sorted,
    Examples.nature_scrape.1 = Some sorted
    ∧ ∃ article,
        article ∈ sorted
        ∧ NatureScrape.info article
          = Nature.info_of_card "Nature" "research-articles" (Examples.card_dated 9).
Proof.
  destruct (Examples.nature_scrape.1) as [sorted|] eqn:Hs;
    [|vm_compute in Hs; discriminate].
  exists sorted. split; [reflexivity|].
  destruct (scrape_returns_every_candidate_of_last_stream None None (λ _, false) "Nature"
              true [] ∅ Examples.nature_news Examples.nature_research sorted Hs)
    as (relevant_news & relevant_research & through & _ & _ & _ & _ & Hall).
  apply Hall. vm_compute. right. left.
Defined.

(** Witness for [full_run_stops_at_first_failing_scrape]: two rows are saved
    for the first sub-journal, then the scrape of the second raises. *)
Lemma full_run_stops_at_first_failing_scrape_witness :
  (Orchestrator.run_full_crawl [] 0 0 [Examples.scraped_two; Examples.scrape_raises]).2
  = None
  ∧ DB.get_paper_count
      (Orchestrator.run_full_crawl [] 0 0 [Examples.scraped_two; Examples.scrape_raises]).1
    = 2.
Proof.
  assert (Forall (λ sj, is_Some (Orchestrator.scraped sj)) [Examples.scraped_two]) as Hall
    by (repeat constructor; by eexists).
  destruct (full_run_stops_at_first_failing_scrape [] [Examples.scraped_two]
              Examples.scrape_raises [] Hall eq_refl) as (Hrun & _ & _).
  simpl app in Hrun. rewrite Hrun. split; [reflexivity|]. vm_compute. reflexivity.
Defined.

(** Witness for [get_page_with_retry_plos_policy]: the third call
    succeeds. *)
Lemma get_page_with_retry_plos_policy_witness :
  Fetch.plos_samples_in_range Examples.plos_blocked_twice
  ∧ Fetch.get_page_with_retry_plos Examples.plos_blocked_twice 8
    = ([Fetch.SetUserAgent 0 0; Fetch.Get 0; Fetch.Sleep 8000;
        Fetch.SetUserAgent 1 1; Fetch.Sleep 16000; Fetch.Get 1; Fetch.Sleep 8000;
        Fetch.SetUserAgent 2 2; Fetch.Sleep 24000; Fetch.Get 2],
       Fetch.PlainResponse 2)
  ∧ (length (List.filter Fetch.is_get
               (Fetch.get_page_with_retry_plos Examples.plos_blocked_twice 8).1) ≤ 8)%nat.
Proof.
  assert (Fetch.plos_samples_in_range Examples.plos_blocked_twice) as Hs.
  { intros k. simpl. lia. }
  split; [exact Hs|]. split; [vm_compute; reflexivity|].
  destruct (get_page_with_retry_plos_policy Examples.plos_blocked_twice Hs)
    as (Hcalls & _).
  exact Hcalls.
Defined.


(** ** The listing crawl: pages gone through and requests made *)
Section NaturePages.
Import Nature.
Variables (start_date end_date : option Z).
Variable paper_exists : string → bool.
Variable non_ai_set : gset (string * string).
Variables (journal_name article_type : string).





End NaturePages.
